(** * AgentRunbooks: a shallow embedding of the control plane's core

    Part I follows the Python sources file by file:

    - [py]            the Python values the code manipulates (the JSON
                      fragment: None, bool, int, float, str, list, dict),
                      with [==], truthiness, [str] and [repr];
    - [json]          [json.dumps] with [sort_keys] and [separators];
    - [models]        the steps and the runs of gateway/app/models.py;
    - [security]      gateway/app/security.py;
    - [audit]         gateway/app/audit.py and routers/audit.py;
    - [request], [tenancy]   the state of a request and
                      gateway/app/tenancy.py;
    - [approvals]     gateway/app/routers/approvals.py;
    - [runs]          the run controls of gateway/app/routers/runs.py;
    - [rbac]          gateway/app/rbac.py;
    - [policy_engine] gateway/app/policy_engine.py;
    - [policy_guard]  gateway/app/policy_guard.py;
    - [utils], [activities], [workflows]   orchestrator/app/.

    Part II holds the predicates in which the properties are stated,
    Part III the data of the examples, Part IV the lemmas and theorems.

    Library functions the sources call but do not define (HMAC-SHA256,
    SHA-256, the JSON-schema validator, the adapters, the brain, the
    clock) are section variables.  Strings are sequences of 8-bit
    characters and the character classes of Python are those of the ASCII
    range; a float is the exact decimal or rational it denotes; a table
    is the list of its rows in the order of the query; documents loaded
    from YAML have the types the code expects of them. *)

From Stdlib Require Import String Ascii List ZArith Bool Lia Arith.
From Stdlib Require Import QArith.
From Stdlib Require Import DecimalString.
From Stdlib Require Import OrdersEx.
From Stdlib Require Import Sorting.Permutation Sorting.Sorted.
Import ListNotations.

Close Scope Q_scope.
Open Scope list_scope.
Open Scope string_scope.

(* ===================================================================== *)
(** * Part I: the embedding                                               *)
(* ===================================================================== *)

(** ** Python values *)

Module py.

(** The values that flow through contexts, step inputs, audit payloads and
    policy documents.  A [dict] keeps its items in insertion order; a
    well-formed dict has no repeated key.  A float is kept as the exact
    decimal [m / 10^e]; binary rounding is outside the model. *)
#[warnings="-register-all"]
Inductive value : Type :=
| PNone
| PBool (b : bool)
| PInt (z : Z)
| PFloat (m : Z) (e : nat)
| PStr (s : string)
| PList (l : list value)
| PDict (d : list (string * value)).

Definition dict := list (string * value).

(** [d.get(k)]: the first item with key [k], [None] when there is none. *)
Fixpoint lookup {A : Type} (k : string) (d : list (string * A)) : option A :=
  match d with
  | [] => None
  | (k', v) :: d' => if String.eqb k k' then Some v else lookup k d'
  end.

Definition get (d : dict) (k : string) : value :=
  match lookup k d with Some v => v | None => PNone end.

Definition get_default {A : Type} (d : list (string * A)) (k : string) (dflt : A) : A :=
  match lookup k d with Some v => v | None => dflt end.

Definition keys {A : Type} (d : list (string * A)) : list string := map fst d.

(** Well-formed values: no dict, at any depth, repeats a key. *)
Fixpoint wf (v : value) : Prop :=
  match v with
  | PList l => (fix all (l : list value) : Prop :=
                  match l with [] => True | x :: l' => wf x /\ all l' end) l
  | PDict d => NoDup (map fst d) /\
               (fix all (d : list (string * value)) : Prop :=
                  match d with [] => True | kv :: d' => wf (snd kv) /\ all d' end) d
  | _ => True
  end.

(** Numbers compare by value across bool, int and float, as in Python
    ([True == 1], [1 == 1.0]). *)
Definition num_of (v : value) : option (Z * nat) :=
  match v with
  | PBool b => Some (if b then 1%Z else 0%Z, 0%nat)
  | PInt z => Some (z, 0%nat)
  | PFloat m e => Some (m, e)
  | _ => None
  end.

Definition num_eqb (a b : Z * nat) : bool :=
  Z.eqb (fst a * 10 ^ Z.of_nat (snd b)) (fst b * 10 ^ Z.of_nat (snd a)).

(** [a == b]. Dicts are equal when they have the same number of items and
    every key of [a] is bound in [b] to an equal value. *)
Fixpoint eqb (a b : value) {struct a} : bool :=
  match a, b with
  | PNone, PNone => true
  | PStr s, PStr t => String.eqb s t
  | PList l, PList l' =>
      (fix go (l : list value) (l' : list value) {struct l} : bool :=
         match l, l' with
         | [], [] => true
         | x :: r, y :: r' => eqb x y && go r r'
         | _, _ => false
         end) l l'
  | PDict d, PDict d' =>
      Nat.eqb (List.length d) (List.length d') &&
      (fix go (d : list (string * value)) : bool :=
         match d with
         | [] => true
         | kv :: r =>
             match lookup (fst kv) d' with
             | Some v' => eqb (snd kv) v' && go r
             | None => false
             end
         end) d
  | _, _ =>
      match num_of a, num_of b with
      | Some x, Some y => num_eqb x y
      | _, _ => false
      end
  end.

(** [bool(v)]. *)
Definition truthy (v : value) : bool :=
  match v with
  | PNone => false
  | PBool b => b
  | PInt z => negb (Z.eqb z 0)
  | PFloat m _ => negb (Z.eqb m 0)
  | PStr s => negb (String.eqb s "")
  | PList l => match l with [] => false | _ => true end
  | PDict d => match d with [] => false | _ => true end
  end.

(** Decimal rendering of integers and of the decimal floats. *)
Definition str_of_Z (z : Z) : string := NilZero.string_of_int (Z.to_int z).

Fixpoint zeros (n : nat) : string :=
  match n with
  | O => ""
  | S n' => String "0" (zeros n')
  end.

Definition pad_zeros (width : nat) (s : string) : string :=
  zeros (width - String.length s) ++ s.

Fixpoint strip_trailing_zeros_rev (l : list ascii) : list ascii :=
  match l with
  | "0"%char :: r => strip_trailing_zeros_rev r
  | _ => l
  end.

Definition strip_trailing_zeros (s : string) : string :=
  string_of_list_ascii (rev (strip_trailing_zeros_rev (rev (list_ascii_of_string s)))).

Definition str_of_float (m : Z) (e : nat) : string :=
  let p := (10 ^ Z.of_nat e)%Z in
  let ip := (Z.abs m / p)%Z in
  let fp := (Z.abs m mod p)%Z in
  let frac := strip_trailing_zeros (pad_zeros e (if Z.eqb fp 0 then "" else str_of_Z fp)) in
  (if Z.ltb m 0 then "-" else "") ++ str_of_Z ip ++ "." ++
  (if String.eqb frac "" then "0" else frac).

Definition hex_digit (n : nat) : ascii :=
  match n with
  | 0%nat => "0" | 1 => "1" | 2 => "2" | 3 => "3" | 4 => "4" | 5 => "5" | 6 => "6"
  | 7 => "7" | 8 => "8" | 9 => "9" | 10 => "a" | 11 => "b" | 12 => "c"
  | 13 => "d" | 14 => "e" | _ => "f"
  end%char.

Definition hex2 (c : ascii) : string :=
  let n := nat_of_ascii c in
  String (hex_digit (n / 16)) (String (hex_digit (n mod 16)) "").

Definition printable (c : ascii) : bool :=
  let n := nat_of_ascii c in Nat.leb 32 n && Nat.leb n 126.

Fixpoint contains_char (c : ascii) (s : string) : bool :=
  match s with
  | EmptyString => false
  | String c' s' => Ascii.eqb c c' || contains_char c s'
  end.

(** [repr(s)] for a string: single quotes unless the string holds a single
    quote and no double quote. *)
Fixpoint repr_body (q : ascii) (s : string) : string :=
  match s with
  | EmptyString => ""
  | String c s' =>
      (if Ascii.eqb c "\"%char then "\\"
       else if Ascii.eqb c q then String "\"%char (String q "")
       else if Ascii.eqb c "010"%char then "\n"
       else if Ascii.eqb c "013"%char then "\r"
       else if Ascii.eqb c "009"%char then "\t"
       else if printable c then String c ""
       else "\x" ++ hex2 c) ++ repr_body q s'
  end.

Definition dquote : ascii := ascii_of_nat 34.
Definition squote : ascii := "'"%char.

Definition repr_str (s : string) : string :=
  let q := if contains_char squote s && negb (contains_char dquote s)
           then dquote else squote in
  String q (repr_body q s ++ String q "").

Fixpoint join (sep : string) (l : list string) : string :=
  match l with
  | [] => ""
  | [x] => x
  | x :: r => x ++ sep ++ join sep r
  end.

(** [repr(v)]; [str(v)] differs only on strings. *)
Fixpoint repr (v : value) : string :=
  match v with
  | PNone => "None"
  | PBool b => if b then "True" else "False"
  | PInt z => str_of_Z z
  | PFloat m e => str_of_float m e
  | PStr s => repr_str s
  | PList l => "[" ++ join ", " (map repr l) ++ "]"
  | PDict d => "{" ++ join ", " (map (fun kv => repr_str (fst kv) ++ ": " ++ repr (snd kv)) d) ++ "}"
  end.

Definition str (v : value) : string :=
  match v with
  | PStr s => s
  | _ => repr v
  end.

(** [needle in hay] on strings. *)
Fixpoint substr_in (needle hay : string) : bool :=
  String.prefix needle hay ||
  match hay with
  | EmptyString => false
  | String _ hay' => substr_in needle hay'
  end.

(** [d[k] = v]: a bound key keeps its place. *)
Fixpoint setitem {A : Type} (k : string) (v : A) (d : list (string * A))
    : list (string * A) :=
  match d with
  | [] => [(k, v)]
  | (k', v') :: r => if String.eqb k k' then (k', v) :: r else (k', v') :: setitem k v r
  end.

End py.

(** ** json.dumps *)

Module json.
Import py.

(** [ensure_ascii] escaping of one character (json.encoder.ESCAPE_ASCII). *)
Definition escape_char (c : ascii) : string :=
  if Ascii.eqb c dquote then String "\"%char (String dquote "")
  else if Ascii.eqb c "\"%char then "\\"
  else if Ascii.eqb c "010"%char then "\n"
  else if Ascii.eqb c "013"%char then "\r"
  else if Ascii.eqb c "009"%char then "\t"
  else if Ascii.eqb c "008"%char then "\b"
  else if Ascii.eqb c "012"%char then "\f"
  else if printable c then String c ""
  else "\u00" ++ hex2 c.

Fixpoint escape (s : string) : string :=
  match s with
  | EmptyString => ""
  | String c s' => escape_char c ++ escape s'
  end.

Definition encode_str (s : string) : string :=
  String dquote (escape s ++ String dquote "").

Definition key_ltb (a b : string) : bool :=
  match String_as_OT.compare a b with Lt => true | _ => false end.

(** [sorted(items)] on the keys: a stable insertion sort. *)
Fixpoint insert_item {A : Type} (kv : string * A) (l : list (string * A)) : list (string * A) :=
  match l with
  | [] => [kv]
  | kv' :: r => if key_ltb (fst kv) (fst kv') then kv :: l else kv' :: insert_item kv r
  end.

Fixpoint sort_items {A : Type} (l : list (string * A)) : list (string * A) :=
  match l with
  | [] => []
  | kv :: r => insert_item kv (sort_items r)
  end.

(** [json.dumps(v, sort_keys=True, separators=(item_sep, key_sep))].
    The items of a dict are encoded and then ordered by key; the order
    depends on the keys alone, so this is the encoder's sort-then-encode. *)
Fixpoint dumps_sorted (item_sep key_sep : string) (v : value) : string :=
  match v with
  | PNone => "null"
  | PBool b => if b then "true" else "false"
  | PInt z => str_of_Z z
  | PFloat m e => str_of_float m e
  | PStr s => encode_str s
  | PList l => "[" ++ join item_sep (map (dumps_sorted item_sep key_sep) l) ++ "]"
  | PDict d =>
      "{" ++ join item_sep
               (map (fun ks => encode_str (fst ks) ++ key_sep ++ snd ks)
                    (sort_items (map (fun kv => (fst kv, dumps_sorted item_sep key_sep (snd kv))) d)))
          ++ "}"
  end.

(** The two call shapes of the sources. *)
Definition dumps_sort_keys (v : value) : string := dumps_sorted ", " ": " v.
Definition dumps_compact (v : value) : string := dumps_sorted "," ":" v.

End json.

(** ** Errors *)

(** A call either returns or raises; [HTTPException] carries its status. *)
Inductive outcome (A : Type) : Type :=
| Ret (a : A)
| Raise (exc : string).
Arguments Ret {A} a.
Arguments Raise {A} exc.

Definition bind {A B : Type} (m : outcome A) (k : A -> outcome B) : outcome B :=
  match m with
  | Ret a => k a
  | Raise e => Raise e
  end.

Notation "x <- m ;; k" := (bind m (fun x => k))
  (at level 61, m at next level, right associativity).

(** [s.split(sep)] for a one-character separator. *)
Fixpoint split_on (sep : ascii) (s : string) : list string :=
  match s with
  | EmptyString => [""]
  | String c s' =>
      if Ascii.eqb c sep then "" :: split_on sep s'
      else match split_on sep s' with
           | [] => [String c ""]
           | p :: ps => String c p :: ps
           end
  end.

(** Truthiness of an optional string ([None] and [""] are falsy). *)
Definition truthy_str (s : option string) : bool :=
  match s with
  | Some x => negb (String.eqb x "")
  | None => false
  end.

Definition opt_str_eqb (a b : option string) : bool :=
  match a, b with
  | Some x, Some y => String.eqb x y
  | None, None => true
  | _, _ => false
  end.

Definition opt_str_value (s : option string) : py.value :=
  match s with
  | Some x => py.PStr x
  | None => py.PNone
  end.

(** ** Rows of a table *)

(** The update of the first row that passes [sel], and its deletion. *)
Fixpoint replace_first {A : Type} (sel : A -> bool) (row : A) (l : list A) : list A :=
  match l with
  | [] => []
  | x :: r => if sel x then row :: r else x :: replace_first sel row r
  end.

Fixpoint remove_first {A : Type} (sel : A -> bool) (l : list A) : list A :=
  match l with
  | [] => []
  | x :: r => if sel x then r else x :: remove_first sel r
  end.

(** ** gateway/app/models.py: steps and runs *)

Module models.

Inductive StepStatus := PENDING | RUNNING | SUCCEEDED | FAILED | SKIPPED | COMPENSATED.

Definition status_value (s : StepStatus) : string :=
  match s with
  | PENDING => "pending"
  | RUNNING => "running"
  | SUCCEEDED => "succeeded"
  | FAILED => "failed"
  | SKIPPED => "skipped"
  | COMPENSATED => "compensated"
  end.

(** [StepStatus(value)]: the member with that value, [ValueError] else. *)
Definition StepStatus_of (value : string) : outcome StepStatus :=
  if String.eqb value "pending" then Ret PENDING
  else if String.eqb value "running" then Ret RUNNING
  else if String.eqb value "succeeded" then Ret SUCCEEDED
  else if String.eqb value "failed" then Ret FAILED
  else if String.eqb value "skipped" then Ret SKIPPED
  else if String.eqb value "compensated" then Ret COMPENSATED
  else Raise "ValueError".

Definition status_eqb (a b : StepStatus) : bool :=
  String.eqb (status_value a) (status_value b).

Record Step := {
  run_id : string;
  name : string;
  tool : string;
  status : StepStatus;
  input : option py.value;
  output : option py.value;
  error : option py.value;
  idempotency_key : option string;
  started_at : option Z;
  ended_at : option Z
}.

(** The terminal states ([_terminal] of routers/runs.py). *)
Definition _terminal (s : StepStatus) : bool :=
  match s with
  | SUCCEEDED | FAILED | SKIPPED | COMPENSATED => true
  | PENDING | RUNNING => false
  end.

(** [RunStatus]. *)
Module RunStatus.
Inductive t := PENDING | RUNNING | SUCCEEDED | FAILED.
End RunStatus.

(** The columns of [Run] that the handlers read or write. *)
Module Run.
Record t := {
  id : string;
  runbook_id : string;
  tenant_id : string;
  project_id : option string;
  status : RunStatus.t;
  metrics : py.dict
}.
End Run.

End models.

(** ** gateway/app/security.py *)

Module security.

Section Crypto.

(** [hmac.new(key, data, hashlib.sha256).hexdigest()] and the deployment
    secret [AUDIT_HMAC_SECRET]. *)
Variable hmac_sha256 : string -> string -> string.
Variable AUDIT_HMAC_SECRET : string.

Definition hmac_hash (prev_hash : option string) (record : py.value) : string :=
  let data :=
    if truthy_str prev_hash
    then match prev_hash with
         | Some p => p ++ json.dumps_compact record
         | None => json.dumps_compact record
         end
    else json.dumps_compact record in
  hmac_sha256 AUDIT_HMAC_SECRET data.

End Crypto.

(** [verify_approval]; [now] is the reading of [datetime.now(timezone.utc)],
    datetimes are microseconds since the epoch. *)
Definition verify_approval (now : Z) (token : string) (sig : option string)
    (expires_at : option Z) : bool :=
  match expires_at with
  | None => false
  | Some exp =>
      if (exp <? now)%Z then false
      else
        let parts := split_on "."%char token in
        if negb (Nat.eqb (List.length parts) 2) then false
        else match sig with
             | Some s => Nat.ltb 0 (String.length s)
             | None => false
             end
  end.

(** [sign_approval]; [nonce] is the value of [secrets.token_urlsafe(16)],
    [now] the reading of the clock, a [timedelta] of minutes is counted
    in microseconds. *)
Section Signing.

Variable hmac_sha256 : string -> string -> string.
Variable AUDIT_HMAC_SECRET : string.
(** [datetime.isoformat()]. *)
Variable isoformat : Z -> string.

Record signed := {
  token : string;
  sig : string;
  expires_at : Z
}.

Definition sign_approval (nonce : string) (now : Z) (payload : py.dict) (ttl_min : Z)
    : signed :=
  let expires_at := (now + ttl_min * 60000000)%Z in
  let canonical :=
    json.dumps_sort_keys
      (py.PDict (py.setitem "expires_at" (py.PStr (isoformat expires_at))
                   (py.setitem "nonce" (py.PStr nonce) payload))) in
  let sig := hmac_sha256 AUDIT_HMAC_SECRET canonical in
  {| token := nonce ++ "." ++ String.substring 0 16 sig;
     sig := sig;
     expires_at := expires_at |}.

End Signing.

End security.

(** ** gateway/app/audit.py and gateway/app/routers/audit.py *)

Module audit.

Record AuditLog := {
  id : string;
  actor_type : string;
  actor_id : string;
  tenant_id : option string;
  action : string;
  resource_type : string;
  resource_id : option string;
  payload : option py.value;
  prev_hash : option string;
  hash : string
}.

(** The [audit_logs] table in ascending [ts] order: an append adds at the
    end. *)
Definition table := list AuditLog.

Definition record_of (actor_type actor_id : string) (tenant_id : option string)
    (action resource_type : string) (resource_id : option string)
    (payload : option py.value) : py.value :=
  py.PDict
    [ ("actor_type", py.PStr actor_type);
      ("actor_id", py.PStr actor_id);
      ("tenant_id", opt_str_value tenant_id);
      ("action", py.PStr action);
      ("resource_type", py.PStr resource_type);
      ("resource_id", opt_str_value resource_id);
      ("payload", match payload with Some p => p | None => py.PNone end) ].

Definition record_of_log (log : AuditLog) : py.value :=
  record_of (actor_type log) (actor_id log) (tenant_id log) (action log)
            (resource_type log) (resource_id log) (payload log).

Definition of_tenant (tenant : string) (log : AuditLog) : bool :=
  opt_str_eqb (tenant_id log) (Some tenant).

(** [select ... order_by(ts.desc()).limit(1)]: the last row that passes. *)
Definition latest (f : AuditLog -> bool) (db : table) : option AuditLog :=
  List.last (map Some (filter f db)) None.

Inductive verify_result :=
| VerifyOk (verified_count : nat)
| VerifyBroken (broken_at : nat) (log_id : string) (expected_hash actual_hash : string).

Section Crypto.

Variable hmac_sha256 : string -> string -> string.
Variable AUDIT_HMAC_SECRET : string.

Let hmac_hash := security.hmac_hash hmac_sha256 AUDIT_HMAC_SECRET.

(** [write_audit]; [new_id] is the fresh uuid of the row. *)
Definition write_audit (new_id : string) (actor_type actor_id : string)
    (tenant_id : option string) (action resource_type : string)
    (resource_id : option string) (payload : option py.value) (db : table) : table :=
  let prev_hash :=
    if truthy_str tenant_id
    then match tenant_id with
         | Some t => match latest (of_tenant t) db with
                     | Some prev => Some (hash prev)
                     | None => None
                     end
         | None => None
         end
    else None in
  let record := record_of actor_type actor_id tenant_id action resource_type resource_id payload in
  let hash_value := hmac_hash prev_hash record in
  (db ++ [ {| id := new_id; actor_type := actor_type; actor_id := actor_id;
              tenant_id := tenant_id; action := action;
              resource_type := resource_type; resource_id := resource_id;
              payload := payload; prev_hash := prev_hash; hash := hash_value |} ])%list.

(** The loop of [verify_audit_chain] from index [idx] on. *)
Fixpoint verify_from (idx : nat) (prev_hash : option string) (logs : list AuditLog)
    (total : nat) : verify_result :=
  match logs with
  | [] => VerifyOk total
  | log :: rest =>
      let expected_hash := hmac_hash prev_hash (record_of_log log) in
      if negb (String.eqb (hash log) expected_hash)
      then VerifyBroken idx (id log) expected_hash (hash log)
      else verify_from (S idx) (Some (hash log)) rest total
  end.

Definition verify_audit_chain (tenant_id : option string) (db : table) : verify_result :=
  let logs :=
    if truthy_str tenant_id
    then match tenant_id with
         | Some t => filter (of_tenant t) db
         | None => db
         end
    else db in
  verify_from 0 None logs (List.length logs).

End Crypto.

End audit.

(** ** The request *)

Module request.

(** [request.state]: what the middleware and the dependencies attach to
    a request.  An attribute that is absent and one that is [None] are
    both [None] here (the code reads them with [hasattr(...) and ...] or
    [getattr(..., None)]); a list attribute that is absent is empty. *)
Record State := {
  tenant_id : option string;
  project_id : option string;
  user_email : option string;
  user_groups : list string;
  authn : option string;
  api_key_id : option string
}.

Record Request := {
  state : State;
  (** [request.headers.get("X-Project")]. *)
  x_project : option string
}.

End request.

(** ** gateway/app/tenancy.py *)

Module tenancy.

Module Tenant.
Record t := { id : string; name : string }.
End Tenant.

Module Project.
Record t := { id : string; tenant_id : string; name : string }.
End Project.

Record tables := {
  tenants : list Tenant.t;
  projects : list Project.t
}.

Section Settings.

Variable DEFAULT_TENANT_NAME : string.
Variable AUTO_CREATE_PROJECTS : bool.

(** [resolve_tenant]; [new_id] is the uuid of the row that [db.add]
    creates. *)
Definition resolve_tenant (new_id : string) (req : request.Request) (db : tables)
    : string * tables :=
  let tenant_id := request.tenant_id (request.state req) in
  if truthy_str tenant_id
  then (match tenant_id with Some t => t | None => "" end, db)
  else
    match find (fun t => String.eqb (Tenant.name t) DEFAULT_TENANT_NAME) (tenants db) with
    | Some tenant => (Tenant.id tenant, db)
    | None =>
        (new_id,
         {| tenants := (tenants db ++ [ {| Tenant.id := new_id;
                                           Tenant.name := DEFAULT_TENANT_NAME |} ])%list;
            projects := projects db |})
    end.

(** [resolve_project]. *)
Definition resolve_project (new_id : string) (req : request.Request) (db : tables)
    (tenant_id : string) : outcome (option string * tables) :=
  let project_name := request.x_project req in
  if negb (truthy_str project_name) then Ret (None, db)
  else
    let project_name := match project_name with Some n => n | None => "" end in
    match find (fun p => String.eqb (Project.tenant_id p) tenant_id &&
                         String.eqb (Project.name p) project_name) (projects db) with
    | Some project => Ret (Some (Project.id project), db)
    | None =>
        if AUTO_CREATE_PROJECTS
        then Ret (Some new_id,
                  {| tenants := tenants db;
                     projects := (projects db ++
                                  [ {| Project.id := new_id;
                                       Project.tenant_id := tenant_id;
                                       Project.name := project_name |} ])%list |})
        else Raise ("404 project '" ++ project_name ++ "' not found")
    end.

(** [get_tenant_and_project]: the two ids, the request with its state
    updated, and the tables. *)
Definition get_tenant_and_project (tenant_uuid project_uuid : string)
    (req : request.Request) (db : tables)
    : outcome (string * option string * request.Request * tables) :=
  let '(tenant_id, db) := resolve_tenant tenant_uuid req db in
  r <- resolve_project project_uuid req db tenant_id ;;
  let '(project_id, db) := r in
  let st := request.state req in
  Ret (tenant_id, project_id,
       {| request.state :=
            {| request.tenant_id := Some tenant_id;
               request.project_id := project_id;
               request.user_email := request.user_email st;
               request.user_groups := request.user_groups st;
               request.authn := request.authn st;
               request.api_key_id := request.api_key_id st |};
          request.x_project := request.x_project req |},
       db).

End Settings.

End tenancy.

(** ** gateway/app/routers/approvals.py *)

Module approvals.

Record Approval := {
  id : string;
  run_id : string;
  tenant_id : string;
  project_id : option string;
  step_name : string;
  approved : bool;
  token : option string;
  sig : option string;
  sig_expires_at : option Z
}.

Definition set_approved (a : Approval) (b : bool) : Approval :=
  {| id := id a; run_id := run_id a; tenant_id := tenant_id a;
     project_id := project_id a; step_name := step_name a; approved := b;
     token := token a; sig := sig a; sig_expires_at := sig_expires_at a |}.

(** The two databases the handler touches. *)
Record state := {
  approvals_table : list Approval;
  audit_table : audit.table
}.

Inductive body :=
| AlreadyApproved                 (* {"ok": True, "message": "already approved"} *)
| Approved (approval_id : string) (* {"ok": True, "approval_id": ...} *).

Inductive response :=
| Ok200 (b : body)
| HTTPException (status : nat) (detail : string).

Definition selected (approval_id tenant : string) (project : option string)
    (a : Approval) : bool :=
  String.eqb (id a) approval_id && String.eqb (tenant_id a) tenant &&
  (if truthy_str project then opt_str_eqb (project_id a) project else true).

(** [approval.approved = True; db.commit()] on the selected row. *)
Fixpoint commit_approved (sel : Approval -> bool) (l : list Approval) : list Approval :=
  match l with
  | [] => []
  | a :: r => if sel a then set_approved a true :: r else a :: commit_approved sel r
  end.

Section Handler.

Variable hmac_sha256 : string -> string -> string.
Variable AUDIT_HMAC_SECRET : string.

(** [approve_approval], after the [authorize("approve", "approval")]
    dependency has passed.  [now] is the clock reading, [audit_id] the
    uuid of the audit row, [user_email] the actor. *)
Definition approve_approval (now : Z) (audit_id user_email : string)
    (tenant : string) (project : option string)
    (approval_id : string) (payload_token : option string) (st : state)
    : response * state :=
  let sel := selected approval_id tenant project in
  match find sel (approvals_table st) with
  | None => (HTTPException 404 "approval not found", st)
  | Some approval =>
      if approved approval then (Ok200 AlreadyApproved, st)
      else
        let check : option response :=
          if truthy_str (sig approval) &&
             match sig_expires_at approval with Some _ => true | None => false end
          then
            if negb (truthy_str payload_token)
            then Some (HTTPException 400 "token required")
            else
              match payload_token with
              | Some tok =>
                  if negb (security.verify_approval now tok (sig approval)
                                                    (sig_expires_at approval))
                  then Some (HTTPException 403 "invalid or expired token")
                  else None
              | None => Some (HTTPException 400 "token required")
              end
          else if truthy_str (token approval) &&
                  negb (opt_str_eqb (token approval) payload_token)
          then Some (HTTPException 403 "invalid token")
          else None in
        match check with
        | Some err => (err, st)
        | None =>
            let approvals' := commit_approved sel (approvals_table st) in
            let audit' :=
              audit.write_audit hmac_sha256 AUDIT_HMAC_SECRET audit_id
                "user" user_email (Some tenant) "approval.approved" "approval"
                (Some approval_id)
                (Some (py.PDict [("run_id", py.PStr (run_id approval));
                                 ("step_name", py.PStr (step_name approval))]))
                (audit_table st) in
            (Ok200 (Approved approval_id),
             {| approvals_table := approvals'; audit_table := audit' |})
        end
  end.

End Handler.

(** *** [deny_approval] *)

(** The tables that [deny_approval] touches. *)
Record database := {
  approvals_rows : list Approval;
  runs_rows : list models.Run.t;
  steps_rows : list models.Step;
  audit_rows : audit.table
}.

Inductive deny_body :=
| CannotDeny                    (* {"ok": True, "message": "already approved, cannot deny"} *)
| Denied (approval_id : string) (* {"ok": True, "approval_id": ..., "message": "approval denied"} *).

Inductive deny_response :=
| DenyOk200 (b : deny_body)
| DenyHTTPException (status : nat) (detail : string).

Definition is_run (run_id : string) (r : models.Run.t) : bool :=
  String.eqb (models.Run.id r) run_id.

Definition is_run_step (run_id step_name : string) (s : models.Step) : bool :=
  String.eqb (models.run_id s) run_id && String.eqb (models.name s) step_name.

(** [step.status = FAILED; step.error = {...}; step.ended_at = utcnow()]. *)
Definition denied_step (now : Z) (s : models.Step) : models.Step :=
  {| models.run_id := models.run_id s; models.name := models.name s;
     models.tool := models.tool s; models.status := models.FAILED;
     models.input := models.input s; models.output := models.output s;
     models.error := Some (py.PDict [("message", py.PStr "Approval denied")]);
     models.idempotency_key := models.idempotency_key s;
     models.started_at := models.started_at s; models.ended_at := Some now |}.

Definition failed_run (r : models.Run.t) : models.Run.t :=
  {| models.Run.id := models.Run.id r; models.Run.runbook_id := models.Run.runbook_id r;
     models.Run.tenant_id := models.Run.tenant_id r;
     models.Run.project_id := models.Run.project_id r;
     models.Run.status := models.RunStatus.FAILED;
     models.Run.metrics := models.Run.metrics r |}.

Section DenyHandler.

Variable hmac_sha256 : string -> string -> string.
Variable AUDIT_HMAC_SECRET : string.

(** [deny_approval], after the [authorize("approve", "approval")]
    dependency has passed. *)
Definition deny_approval (now : Z) (audit_id user_email : string)
    (tenant : string) (project : option string) (approval_id : string) (db : database)
    : deny_response * database :=
  let sel := selected approval_id tenant project in
  match find sel (approvals_rows db) with
  | None => (DenyHTTPException 404 "approval not found", db)
  | Some approval =>
      if approved approval then (DenyOk200 CannotDeny, db)
      else
        let run_id := run_id approval in
        let step_name := step_name approval in
        let approvals' := remove_first sel (approvals_rows db) in
        let '(runs', steps') :=
          match find (is_run run_id) (runs_rows db) with
          | Some run =>
              match find (is_run_step run_id step_name) (steps_rows db) with
              | Some step =>
                  (replace_first (is_run run_id) (failed_run run) (runs_rows db),
                   replace_first (is_run_step run_id step_name) (denied_step now step)
                                 (steps_rows db))
              | None => (runs_rows db, steps_rows db)
              end
          | None => (runs_rows db, steps_rows db)
          end in
        let audit' :=
          audit.write_audit hmac_sha256 AUDIT_HMAC_SECRET audit_id
            "user" user_email (Some tenant) "approval.reject" "approval"
            (Some approval_id)
            (Some (py.PDict [("run_id", py.PStr run_id);
                             ("step_name", py.PStr step_name)]))
            (audit_rows db) in
        (DenyOk200 (Denied approval_id),
         {| approvals_rows := approvals'; runs_rows := runs'; steps_rows := steps';
            audit_rows := audit' |})
  end.

End DenyHandler.

End approvals.

(** ** gateway/app/routers/runs.py: resume, pause, cancel *)

Module runs.
Import models.

(** The tables that the three handlers touch.  The steps are in the order
    of the handlers' query ([started_at] with nulls first, then [name]). *)
Record database := {
  runs_table : list Run.t;
  steps_table : list Step;
  approvals_table : list approvals.Approval;
  audit_table : audit.table
}.

(** [RunResponse.model_validate(run)]: the run and its steps. *)
Inductive response :=
| RunResponse (run : Run.t) (steps : list Step)
| HTTPException (status : nat) (detail : string).

Definition selected (run_id tenant : string) (project : option string) (r : Run.t) : bool :=
  String.eqb (Run.id r) run_id && String.eqb (Run.tenant_id r) tenant &&
  (if truthy_str project then opt_str_eqb (Run.project_id r) project else true).

(** [Step.run_id == run_id]. *)
Definition of_run (id : string) (s : Step) : bool := String.eqb (run_id s) id.

Definition set_status (r : Run.t) (st : RunStatus.t) : Run.t :=
  {| Run.id := Run.id r; Run.runbook_id := Run.runbook_id r;
     Run.tenant_id := Run.tenant_id r; Run.project_id := Run.project_id r;
     Run.status := st; Run.metrics := Run.metrics r |}.

Definition run_status_eqb (a b : RunStatus.t) : bool :=
  match a, b with
  | RunStatus.PENDING, RunStatus.PENDING | RunStatus.RUNNING, RunStatus.RUNNING
  | RunStatus.SUCCEEDED, RunStatus.SUCCEEDED | RunStatus.FAILED, RunStatus.FAILED => true
  | _, _ => false
  end.

(** The approval that [resume_run] looks up for a step. *)
Definition for_step (id step_name : string) (a : approvals.Approval) : bool :=
  String.eqb (approvals.run_id a) id && String.eqb (approvals.step_name a) step_name.

Section Handlers.

Variable hmac_sha256 : string -> string -> string.
Variable AUDIT_HMAC_SECRET : string.
(** [utcnow n]: the [n]-th reading of the clock in a call. *)
Variable utcnow : nat -> Z.

(** The loop of [cancel_run]; [n] counts the readings of the clock. *)
Fixpoint cancel_steps (id : string) (n : nat) (steps : list Step) : list Step :=
  match steps with
  | [] => []
  | step :: rest =>
      if of_run id step &&
         (status_eqb (status step) PENDING || status_eqb (status step) RUNNING)
      then {| run_id := run_id step; name := name step; tool := tool step;
              status := SKIPPED; input := input step; output := output step;
              error := error step; idempotency_key := idempotency_key step;
              started_at := started_at step; ended_at := Some (utcnow n) |}
           :: cancel_steps id (S n) rest
      else step :: cancel_steps id n rest
  end.

(** [cancel_run], after the [authorize("execute", "run")] dependency has
    passed. *)
Definition cancel_run (audit_id user_email : string) (tenant : string)
    (project : option string) (id : string) (db : database) : response * database :=
  let sel := selected id tenant project in
  match find sel (runs_table db) with
  | None => (HTTPException 404 "run not found", db)
  | Some run =>
      if negb (run_status_eqb (Run.status run) RunStatus.RUNNING ||
               run_status_eqb (Run.status run) RunStatus.PENDING)
      then (HTTPException 400 "run cannot be cancelled", db)
      else
        let run := set_status run RunStatus.FAILED in
        let steps := cancel_steps id 0 (steps_table db) in
        let audit' :=
          audit.write_audit hmac_sha256 AUDIT_HMAC_SECRET audit_id
            "user" user_email (Some tenant) "run.cancel" "run" (Some id)
            (Some (py.PDict [("runbook_id", py.PStr (Run.runbook_id run))]))
            (audit_table db) in
        (RunResponse run (filter (of_run id) steps),
         {| runs_table := replace_first sel run (runs_table db);
            steps_table := steps;
            approvals_table := approvals_table db;
            audit_table := audit' |})
  end.

(** [pause_run]. *)
Definition pause_run (audit_id user_email : string) (tenant : string)
    (project : option string) (id : string) (db : database) : response * database :=
  let sel := selected id tenant project in
  match find sel (runs_table db) with
  | None => (HTTPException 404 "run not found", db)
  | Some run =>
      if negb (run_status_eqb (Run.status run) RunStatus.RUNNING)
      then (HTTPException 400 "run is not running", db)
      else
        let run := set_status run RunStatus.PENDING in
        let audit' :=
          audit.write_audit hmac_sha256 AUDIT_HMAC_SECRET audit_id
            "user" user_email (Some tenant) "run.pause" "run" (Some id)
            (Some (py.PDict [("runbook_id", py.PStr (Run.runbook_id run))]))
            (audit_table db) in
        (RunResponse run (filter (of_run id) (steps_table db)),
         {| runs_table := replace_first sel run (runs_table db);
            steps_table := steps_table db;
            approvals_table := approvals_table db;
            audit_table := audit' |})
  end.

(** The body of the loop of [resume_run] on a step it resumes;
    [x or datetime.utcnow()] reads the clock only when [x] is null. *)
Definition resumed (n : nat) (step : Step) : Step * nat :=
  let '(started, n) :=
    match started_at step with
    | Some t => (Some t, n)
    | None => (Some (utcnow n), S n)
    end in
  let '(ended, n) :=
    match ended_at step with
    | Some t => (Some t, n)
    | None => (Some (utcnow n), S n)
    end in
  ({| run_id := run_id step; name := name step; tool := tool step;
      status := SUCCEEDED; input := input step; output := output step;
      error := error step; idempotency_key := idempotency_key step;
      started_at := started; ended_at := ended |}, n).

(** The loop of [resume_run]: a pending step is marked succeeded unless
    the first approval for it is not approved. *)
Fixpoint resume_steps (approvals_rows : list approvals.Approval) (id : string)
    (n : nat) (steps : list Step) : list Step :=
  match steps with
  | [] => []
  | step :: rest =>
      if of_run id step && status_eqb (status step) PENDING then
        let approval := find (for_step id (name step)) approvals_rows in
        if match approval with
           | Some a => negb (approvals.approved a)
           | None => false
           end
        then step :: resume_steps approvals_rows id n rest
        else
          let '(step, n) := resumed n step in
          step :: resume_steps approvals_rows id n rest
      else step :: resume_steps approvals_rows id n rest
  end.

(** [resume_run]. *)
Definition resume_run (tenant : string) (project : option string) (id : string)
    (db : database) : response * database :=
  let sel := selected id tenant project in
  match find sel (runs_table db) with
  | None => (HTTPException 404 "run not found", db)
  | Some run =>
      let steps := resume_steps (approvals_table db) id 0 (steps_table db) in
      (RunResponse run (filter (of_run id) steps),
       {| runs_table := runs_table db;
          steps_table := steps;
          approvals_table := approvals_table db;
          audit_table := audit_table db |})
  end.

End Handlers.

End runs.


(** ** gateway/app/rbac.py *)

Module rbac.

Definition perm := (string * string)%type.

Definition perm_eqb (a b : perm) : bool :=
  String.eqb (fst a) (fst b) && String.eqb (snd a) (snd b).

Fixpoint perm_lookup (p : perm) (m : list (perm * bool)) : option bool :=
  match m with
  | [] => None
  | (q, v) :: r => if perm_eqb p q then Some v else perm_lookup p r
  end.

(** Permission matrix: role -> (action, resource) -> allowed. *)
Definition PERMISSIONS : list (string * list (perm * bool)) :=
  [ ("Admin",
     [ (("*", "*"), true);
       (("write", "project"), true);
       (("write", "role_binding"), true);
       (("read", "project"), true);
       (("read", "role_binding"), true) ]);
    ("SRE",
     [ (("write", "runbook"), true);
       (("write", "policy"), true);
       (("read", "runbook"), true);
       (("read", "policy"), true);
       (("read", "run"), true);
       (("execute", "run"), true);
       (("approve", "approval"), false);
       (("read", "project"), true) ]);
    ("OnCall",
     [ (("read", "*"), true);
       (("approve", "approval"), true) ]);
    ("Viewer",
     [ (("read", "*"), true) ]) ].

Definition _check_permission (role action resource : string) : bool :=
  if String.eqb role "Admin" then true
  else
    let role_perms := py.get_default PERMISSIONS role [] in
    match perm_lookup (action, resource) role_perms with
    | Some b => b
    | None =>
    match perm_lookup ("*", resource) role_perms with
    | Some b => b
    | None =>
    match perm_lookup (action, "*") role_perms with
    | Some b => b
    | None =>
    match perm_lookup ("*", "*") role_perms with
    | Some b => b
    | None => false
    end end end end.

Record RoleBinding := {
  tenant_id : string;
  project_id : option string;
  subject_type : string;
  subject_id : string;
  role : string
}.

Definition subject := (string * string)%type.

(** The two [select(RoleBinding).where(...)] queries. *)
Definition project_bindings (tenant project : string) (s : subject)
    (db : list RoleBinding) : list RoleBinding :=
  filter (fun b => String.eqb (tenant_id b) tenant &&
                   opt_str_eqb (project_id b) (Some project) &&
                   String.eqb (subject_type b) (fst s) &&
                   String.eqb (subject_id b) (snd s)) db.

Definition tenant_bindings (tenant : string) (s : subject)
    (db : list RoleBinding) : list RoleBinding :=
  filter (fun b => String.eqb (tenant_id b) tenant &&
                   match project_id b with None => true | Some _ => false end &&
                   String.eqb (subject_type b) (fst s) &&
                   String.eqb (subject_id b) (snd s)) db.

Definition mem (x : string) (l : list string) : bool :=
  existsb (String.eqb x) l.

(** The loop state: [allowed] and the set [roles_checked]. *)
Definition loop_state := (bool * list string)%type.

(** [for binding in bindings: ...] with its [break]. *)
Fixpoint check_bindings (action resource : string) (bindings : list RoleBinding)
    (st : loop_state) : loop_state :=
  match bindings with
  | [] => st
  | binding :: rest =>
      let '(allowed, roles_checked) := st in
      if negb (mem (role binding) roles_checked) then
        let roles_checked' := role binding :: roles_checked in
        if _check_permission (role binding) action resource
        then (true, roles_checked')
        else check_bindings action resource rest (allowed, roles_checked')
      else check_bindings action resource rest st
  end.

(** [for subject_type, subject_id in subjects: ...] with its [break]. *)
Fixpoint check_subjects (action resource : string) (tenant : string)
    (project : option string) (db : list RoleBinding) (subjects : list subject)
    (st : loop_state) : loop_state :=
  match subjects with
  | [] => st
  | s :: rest =>
      let st1 :=
        if truthy_str project
        then match project with
             | Some p => check_bindings action resource (project_bindings tenant p s db) st
             | None => st
             end
        else st in
      let st2 :=
        if negb (fst st1)
        then check_bindings action resource (tenant_bindings tenant s db) st1
        else st1 in
      if fst st2 then st2
      else check_subjects action resource tenant project db rest st2
  end.

(** [authorize(action, resource)] applied to a request whose tenant,
    project and subject identifiers have been resolved. *)
Definition authorize (action resource : string) (tenant : string)
    (project : option string) (subjects : list subject) (db : list RoleBinding)
    : outcome unit :=
  match subjects with
  | [] => Raise "401 authentication required"
  | _ =>
      let '(allowed, roles_checked) :=
        check_subjects action resource tenant project db subjects (false, []) in
      let allowed :=
        if String.eqb action "approve" && String.eqb resource "approval"
        then
          let has_sre := mem "SRE" roles_checked in
          let has_oncall := mem "OnCall" roles_checked in
          if has_sre && has_oncall then true else allowed
        else allowed in
      if negb allowed
      then Raise ("403 permission denied: " ++ action ++ " on " ++ resource)
      else Ret tt
  end.

(** [_get_subject_identifiers]: the user, the groups, the API key. *)
Definition _get_subject_identifiers (st : request.State) : list subject :=
  let subjects : list subject := [] in
  let subjects :=
    if truthy_str (request.user_email st)
    then (subjects ++ [("user", match request.user_email st with
                                | Some e => e | None => "" end)])%list
    else subjects in
  let subjects :=
    (subjects ++ map (fun group => ("group", group)) (request.user_groups st))%list in
  let subjects :=
    if opt_str_eqb (request.authn st) (Some "apikey")
    then if truthy_str (request.api_key_id st)
         then (subjects ++ [("apikey", match request.api_key_id st with
                                       | Some k => k | None => "" end)])%list
         else subjects
    else subjects in
  subjects.

Section Dependency.

Variable DEFAULT_TENANT_NAME : string.
Variable AUTO_CREATE_PROJECTS : bool.

(** [_authorize], the dependency that [authorize(action, resource)]
    returns: the request with the tenant and the project attached, and
    the tables of [tenancy]; [bindings] is the [role_bindings] table. *)
Definition _authorize (action resource : string) (tenant_uuid project_uuid : string)
    (req : request.Request) (db : tenancy.tables) (bindings : list RoleBinding)
    : outcome (request.Request * tenancy.tables) :=
  r <- tenancy.get_tenant_and_project DEFAULT_TENANT_NAME AUTO_CREATE_PROJECTS
         tenant_uuid project_uuid req db ;;
  let '(tenant_id, project_id, req, db) := r in
  let subjects := _get_subject_identifiers (request.state req) in
  _ <- authorize action resource tenant_id project_id subjects bindings ;;
  Ret (req, db).

End Dependency.

End rbac.

(** ** gateway/app/policy_engine.py *)

Module policy_engine.

Definition chars := list ascii.

Definition str_of (l : chars) : string := string_of_list_ascii l.

(** [c.isspace()], [c.isalnum()], [c.isdigit()] on the ASCII range. *)
Definition isspace (c : ascii) : bool :=
  let n := nat_of_ascii c in
  (Nat.leb 9 n && Nat.leb n 13) || (Nat.leb 28 n && Nat.leb n 32).

Definition isdigit (c : ascii) : bool :=
  let n := nat_of_ascii c in Nat.leb 48 n && Nat.leb n 57.

Definition isalpha (c : ascii) : bool :=
  let n := nat_of_ascii c in
  (Nat.leb 65 n && Nat.leb n 90) || (Nat.leb 97 n && Nat.leb n 122).

Definition isalnum (c : ascii) : bool := isalpha c || isdigit c.

Definition in_strs (s : string) (l : list string) : bool :=
  existsb (String.eqb s) l.

Definition is_quote (c : ascii) : bool :=
  Ascii.eqb c py.squote || Ascii.eqb c py.dquote.

Definition is_ident_char (c : ascii) : bool :=
  isalnum c || Ascii.eqb c "."%char || Ascii.eqb c "_"%char.

(** The scan of a string literal after its opening quote: the characters
    up to and with the closing quote (a backslash skips the character
    after it), and what follows the closing quote. *)
Fixpoint scan_string (quote : ascii) (s : chars) : chars * chars :=
  match s with
  | [] => ([], [])
  | c :: r =>
      if Ascii.eqb c quote then ([c], r)
      else if Ascii.eqb c "\"%char then
        match r with
        | [] => ([c], [])
        | c2 :: r2 => let '(t, rest) := scan_string quote r2 in (c :: c2 :: t, rest)
        end
      else let '(t, rest) := scan_string quote r in (c :: t, rest)
  end.

(** The scan of a number or identifier: the longest run of [isalnum] or
    [._] characters, possibly empty. *)
Fixpoint scan_ident (s : chars) : chars * chars :=
  match s with
  | [] => ([], [])
  | c :: r =>
      if is_ident_char c
      then let '(t, rest) := scan_ident r in (c :: t, rest)
      else ([], s)
  end.

(** One iteration of the [while i < len(expr)] loop of [_tokenize] on the
    rest [expr[i:]] of the input: the rest after it and the tokens. *)
Definition tokenize_step (s : chars) (tokens : list string) : chars * list string :=
  match s with
  | [] => (s, tokens)
  | c :: r =>
      if isspace c then (r, tokens)
      else if in_strs (str_of (firstn 2 s)) ["=="; "!="; "<="; ">="; "in"; "not"] then
        if String.eqb (str_of (firstn 5 s)) "not in"
        then (skipn 5 s, (tokens ++ ["not in"])%list)
        else if in_strs (str_of (firstn 2 s)) ["=="; "!="; "<="; ">="]
        then (skipn 2 s, (tokens ++ [str_of (firstn 2 s)])%list)
        else (r, (tokens ++ [str_of [c]])%list)
      else if in_strs (str_of [c]) ["="; "<"; ">"; "("; ")"; "&"; "|"]
      then (r, (tokens ++ [str_of [c]])%list)
      else if is_quote c then
        let '(t, rest) := scan_string c r in
        (rest, (tokens ++ [str_of (c :: t)])%list)
      else
        let '(t, rest) := scan_ident s in
        (rest, (tokens ++ [str_of t])%list)
  end.

(** [_tokenize]: the loop runs until the input is used up.  An iteration
    need not consume anything, so the loop is bounded by [fuel]; [None]
    says it was still running when the fuel ran out. *)
Fixpoint tokenize_loop (fuel : nat) (s : chars) (tokens : list string)
    : option (list string) :=
  match s with
  | [] => Some tokens
  | _ :: _ =>
      match fuel with
      | O => None
      | S fuel' =>
          let '(s', tokens') := tokenize_step s tokens in
          tokenize_loop fuel' s' tokens'
      end
  end.

Definition _tokenize (fuel : nat) (expr : string) : option (list string) :=
  tokenize_loop fuel (list_ascii_of_string expr) [].

(** *** [_parse_value] *)

Fixpoint remove_char (c : ascii) (s : string) : string :=
  match s with
  | EmptyString => ""
  | String c' s' => if Ascii.eqb c c' then remove_char c s' else String c' (remove_char c s')
  end.

Fixpoint all_chars (p : ascii -> bool) (s : string) : bool :=
  match s with
  | EmptyString => true
  | String c s' => p c && all_chars p s'
  end.

(** [s.isdigit()]: non-empty and all digits. *)
Definition str_isdigit (s : string) : bool :=
  negb (String.eqb s "") && all_chars isdigit s.

Definition lower_char (c : ascii) : ascii :=
  let n := nat_of_ascii c in
  if Nat.leb 65 n && Nat.leb n 90 then ascii_of_nat (n + 32) else c.

Fixpoint lower (s : string) : string :=
  match s with
  | EmptyString => ""
  | String c s' => String (lower_char c) (lower s')
  end.

Fixpoint digits_value (s : string) (acc : Z) : Z :=
  match s with
  | EmptyString => acc
  | String c s' => digits_value s' (10 * acc + Z.of_nat (nat_of_ascii c - 48))
  end.

(** [int(token)] for a token made of digits and [-]. *)
Definition parse_int (token : string) : outcome py.value :=
  let '(neg, body) :=
    match token with
    | String "-"%char b => (true, b)
    | _ => (false, token)
    end in
  if str_isdigit body
  then Ret (py.PInt (if neg then - digits_value body 0 else digits_value body 0))
  else Raise "ValueError".

(** [float(token)] for a token made of digits, [.] and [-]. *)
Definition parse_float (token : string) : outcome py.value :=
  let '(neg, body) :=
    match token with
    | String "-"%char b => (true, b)
    | _ => (false, token)
    end in
  match split_on "."%char body with
  | [ip; fp] =>
      if str_isdigit (ip ++ fp) && all_chars isdigit ip && all_chars isdigit fp
      then let m := digits_value (ip ++ fp) 0 in
           Ret (py.PFloat (if neg then - m else m) (String.length fp))
      else Raise "ValueError"
  | _ => Raise "ValueError"
  end.

(** [token[1:-1]]. *)
Definition strip_ends (token : string) : string :=
  match list_ascii_of_string token with
  | [] => ""
  | _ :: r => str_of (removelast r)
  end.

Definition starts_with_quote (token : string) : bool :=
  match token with
  | String c _ => is_quote c
  | EmptyString => false
  end.

(** [k in d]. *)
Definition has_key {A : Type} (k : string) (d : list (string * A)) : bool :=
  match py.lookup k d with Some _ => true | None => false end.

Definition _parse_value (token : string) (context step : py.dict) : outcome py.value :=
  if starts_with_quote token then Ret (py.PStr (strip_ends token))
  else if str_isdigit (remove_char "-"%char (remove_char "."%char token)) then
    if py.contains_char "."%char token then parse_float token else parse_int token
  else if in_strs (lower token) ["true"; "false"]
  then Ret (py.PBool (String.eqb (lower token) "true"))
  else
    match split_on "."%char token with
    | [namespace; key] =>
        if String.eqb namespace "context" then Ret (py.get context key)
        else if String.eqb namespace "step" then Ret (py.get step key)
        else Ret py.PNone
    | [_] =>
        if has_key token context then Ret (py.get context token)
        else Ret (py.get step token)
    | _ => Ret py.PNone
    end.

(** *** [_eval_expr] *)

(** [tokens[k]] with Python's negative indices. *)
Definition py_index (tokens : list string) (k : Z) : outcome string :=
  let n := Z.of_nat (List.length tokens) in
  let k' := if (k <? 0)%Z then (k + n)%Z else k in
  if (k' <? 0)%Z || (n <=? k')%Z then Raise "IndexError"
  else Ret (nth (Z.to_nat k') tokens "").

(** [tokens[a:b]] for [0 <= a]. *)
Definition slice (a b : nat) (tokens : list string) : list string :=
  firstn (b - a) (skipn a tokens).

Definition str_of_bool (b : bool) : string := py.str (py.PBool b).

(** The scan for the first parenthesised group that closes at level 0.
    [paren_start] is written when a group opens at level 0; it is read
    only after that, so its initial -1 is never used as an index. *)
Inductive paren_scan :=
| Group (paren_start i : nat)
| Level (paren_level : Z).

Fixpoint scan_parens (tokens : list string) (i : nat) (paren_level : Z)
    (paren_start : nat) : paren_scan :=
  match tokens with
  | [] => Level paren_level
  | tok :: rest =>
      if String.eqb tok "(" then
        scan_parens rest (S i) (paren_level + 1)
                    (if (paren_level =? 0)%Z then i else paren_start)
      else if String.eqb tok ")" then
        if (paren_level - 1 =? 0)%Z then Group paren_start i
        else scan_parens rest (S i) (paren_level - 1) paren_start
      else scan_parens rest (S i) paren_level paren_start
  end.

(** The comparison and membership operators at position [i]. *)
Inductive cmp_op := OpEq | OpNe | OpNotIn | OpIn.

Definition op_at (tokens : list string) (i : nat) : option cmp_op :=
  let len := List.length tokens in
  let tok := nth i tokens "" in
  if String.eqb tok "==" then Some OpEq
  else if String.eqb tok "!=" then Some OpNe
  else if Nat.ltb i (len - 1) &&
          match slice i (i + 2) tokens with
          | [a; b] => String.eqb a "not" && String.eqb b "in"
          | _ => false
          end
  then Some OpNotIn
  else if Nat.ltb i (len - 1) && String.eqb tok "in" then Some OpIn
  else None.

(** [while i < len(tokens)]: the first position from [i] on that holds an
    operator; [k] counts the positions lhs. *)
Fixpoint first_op (tokens : list string) (i k : nat) : option (nat * cmp_op) :=
  match k with
  | O => None
  | S k' =>
      match op_at tokens i with
      | Some op => Some (i, op)
      | None => first_op tokens (S i) k'
      end
  end.

(** [left in right] and [left not in right]. *)
Definition py_in (lhs rhs : py.value) : bool :=
  match rhs with
  | py.PList l => existsb (py.eqb lhs) l
  | _ => py.substr_in (py.str lhs) (py.str rhs)
  end.

Inductive reduced :=
| Returned (b : bool)
| Raised (exc : string)
| Tokens (tokens : list string)
| Unfinished.

(** The loop that folds every comparison into ["True"] or ["False"],
    restarting at [i = 0] after each one.  Each round shortens the token
    list, and [fuel] bounds the rounds. *)
Fixpoint reduce_comparisons (fuel : nat) (tokens : list string)
    (context step : py.dict) : reduced :=
  match fuel with
  | O => Unfinished
  | S fuel' =>
      let len := List.length tokens in
      match first_op tokens 0 len with
      | None => Tokens tokens
      | Some (i, op) =>
          let operands (after : nat) :=
            lhs <- _parse_value (nth (i - 1) tokens "") context step ;;
            rhs <- _parse_value (nth (i + after) tokens "") context step ;;
            Ret (lhs, rhs) in
          let continue (width : nat) (result : bool) :=
            reduce_comparisons fuel'
              (firstn (i - 1) tokens ++ [str_of_bool result] ++ skipn (i + width) tokens)%list
              context step in
          match op with
          | OpEq | OpNe =>
              if Nat.eqb i 0 || Nat.eqb i (len - 1) then Returned false
              else match operands 1 with
                   | Raise e => Raised e
                   | Ret (lhs, rhs) =>
                       continue 2 (match op with
                                   | OpEq => py.eqb lhs rhs
                                   | _ => negb (py.eqb lhs rhs)
                                   end)
                   end
          | OpNotIn =>
              if Nat.eqb i 0 || Nat.leb (len - 2) i then Returned false
              else match operands 2 with
                   | Raise e => Raised e
                   | Ret (lhs, rhs) => continue 3 (negb (py_in lhs rhs))
                   end
          | OpIn =>
              if Nat.eqb i 0 || Nat.eqb i (len - 1) then Returned false
              else match operands 1 with
                   | Raise e => Raised e
                   | Ret (lhs, rhs) => continue 2 (py_in lhs rhs)
                   end
          end
      end
  end.

(** [tokens.index(x)]. *)
Fixpoint index_of (x : string) (tokens : list string) : option nat :=
  match tokens with
  | [] => None
  | t :: r => if String.eqb t x then Some O
              else match index_of x r with Some n => Some (S n) | None => None end
  end.

(** The operands around [tokens[idx]] for [and] and [or]. *)
Definition around (tokens : list string) (idx : nat) (context step : py.dict)
    : outcome (py.value * py.value) :=
  lt <- py_index tokens (Z.of_nat idx - 1) ;;
  lhs <- _parse_value lt context step ;;
  rt <- py_index tokens (Z.of_nat idx + 1) ;;
  rhs <- _parse_value rt context step ;;
  Ret (lhs, rhs).

(** What is lhs once the comparisons are folded: [and], [or], a single
    value. *)
Definition eval_connectives (tokens : list string) (context step : py.dict)
    : outcome bool :=
  match index_of "and" tokens with
  | Some idx =>
      lr <- around tokens idx context step ;;
      Ret (py.truthy (fst lr) && py.truthy (snd lr))
  | None =>
      match index_of "or" tokens with
      | Some idx =>
          lr <- around tokens idx context step ;;
          Ret (py.truthy (fst lr) || py.truthy (snd lr))
      | None =>
          match tokens with
          | [tok] => val <- _parse_value tok context step ;; Ret (py.truthy val)
          | _ => Ret false
          end
      end
  end.

Inductive evaluated :=
| Value (b : bool)
| Exception (exc : string)
| OutOfFuel.

(** [_eval_expr]: both recursive calls are on shorter token lists, and
    [fuel] bounds the depth. *)
Fixpoint eval_expr_fuel (fuel : nat) (tokens : list string) (context step : py.dict)
    : evaluated :=
  match fuel with
  | O => OutOfFuel
  | S fuel' =>
      match tokens with
      | [] => Value false
      | _ :: _ =>
          match scan_parens tokens 0 0 0 with
          | Group paren_start i =>
              let inner := slice (paren_start + 1) i tokens in
              match eval_expr_fuel fuel' inner context step with
              | Value inner_result =>
                  let new_tokens :=
                    (firstn paren_start tokens ++ [str_of_bool inner_result]
                       ++ skipn (i + 1) tokens)%list in
                  eval_expr_fuel fuel' new_tokens context step
              | other => other
              end
          | Level paren_level =>
              if negb (paren_level =? 0)%Z then Value false
              else
                match reduce_comparisons fuel tokens context step with
                | Returned b => Value b
                | Raised e => Exception e
                | Unfinished => OutOfFuel
                | Tokens tokens' =>
                    match eval_connectives tokens' context step with
                    | Ret b => Value b
                    | Raise e => Exception e
                    end
                end
          end
      end
  end.

(** The fuel that a token list needs is its length plus one (lemma
    [eval_expr_terminates] below), so [_eval_expr] is a total function. *)
Definition _eval_expr (tokens : list string) (context step : py.dict) : evaluated :=
  eval_expr_fuel (S (List.length tokens)) tokens context step.

(** *** [decide] *)

(** A precondition rule: [prec.get("when", "")], [prec.get("then", "")]
    and [prec.get("step")]. *)
Record precondition := {
  when : string;
  then_ : string;
  pstep : option string
}.

(** [decide].  [Some d] is the value returned ([d = None] for Python's
    [None]); the outer [None] says that the tokenizer was still running
    after [fuel] iterations on some rule. *)
Fixpoint decide (fuel : nat) (preconditions : list precondition)
    (step context : py.dict) : option (option string) :=
  match preconditions with
  | [] => Some None
  | prec :: rest =>
      let step_name := py.get_default step "name" (py.PStr "") in
      if truthy_str (pstep prec) &&
         negb (py.eqb (opt_str_value (pstep prec)) step_name)
      then decide fuel rest step context
      else
        match _tokenize fuel (when prec) with
        | None => None
        | Some tokens =>
            match _eval_expr tokens context step with
            | Value true => Some (Some (then_ prec))
            | Value false => decide fuel rest step context
            | Exception _ => decide fuel rest step context
            | OutOfFuel => None
            end
        end
  end.

End policy_engine.

(** ** orchestrator/app/utils.py *)

Module utils.

Section Hash.

(** [hashlib.sha256(data.encode()).hexdigest()]. *)
Variable sha256_hex : string -> string.

Definition make_idempotency_key (run_id step_name : string) (args : py.value) : string :=
  run_id ++ ":" ++ step_name ++ ":" ++ sha256_hex (json.dumps_sort_keys args).

End Hash.

End utils.

(** ** orchestrator/app/activities.py *)

Module activities.
Import models.

(** *** [policy_validate] *)

(** A policy document after [yaml.safe_load]. *)
Record Policy := {
  tool_allowlist : list (string * list string);
  preconditions : list policy_engine.precondition;
  max_tokens_per_run : option Z;
  max_cost_per_run_usd : option Q
}.

Record validation := {
  ok : bool;
  reasons : list string;
  require_approval : bool
}.

(** [tool in tools]. *)
Definition tool_in (tool : py.value) (tools : list string) : bool :=
  existsb (fun t => py.eqb tool (py.PStr t)) tools.

(** The [for role in user_roles] loop: [allowed]. *)
Fixpoint allowed_for (allowlist : list (string * list string)) (tool : py.value)
    (user_roles : list string) : bool :=
  match user_roles with
  | [] => false
  | role :: rest =>
      let tools := py.get_default allowlist role [] in
      if tool_in tool tools then true else allowed_for allowlist tool rest
  end.

Definition nonempty {A : Type} (l : list A) : bool :=
  match l with [] => false | _ => true end.

Section Validate.

(** The messages of [Draft202012Validator(schema).iter_errors(input)] for
    the schema registered for the tool; none when no schema is. *)
Variable schema_errors : py.value -> py.value -> list string.

(** [policy_validate].  [None]: [decide] did not return within [fuel]. *)
Definition policy_validate (fuel : nat) (step : py.dict) (policy : Policy)
    (user_roles : list string) (context : py.dict) : option validation :=
  let tool := py.get_default step "tool" (py.PStr "") in
  let allowlist := tool_allowlist policy in
  let allowed := allowed_for allowlist tool user_roles in
  let reasons : list string := [] in
  let reasons :=
    if nonempty allowlist && negb allowed
    then (reasons ++ ["tool not allowed for roles"])%list else reasons in
  let errors := schema_errors tool (py.get_default step "input" (py.PDict [])) in
  let reasons := if nonempty errors then (reasons ++ errors)%list else reasons in
  if nonempty (preconditions policy) && nonempty context then
    match policy_engine.decide fuel (preconditions policy) step context with
    | None => None
    | Some decision =>
        if opt_str_eqb decision (Some "block") then
          let reasons := (reasons ++ ["precondition blocked"])%list in
          Some {| ok := negb (nonempty reasons); reasons := reasons;
                  require_approval := false |}
        else if opt_str_eqb decision (Some "require_approval") then
          Some {| ok := true; reasons := []; require_approval := true |}
        else
          Some {| ok := negb (nonempty reasons); reasons := reasons;
                  require_approval := false |}
    end
  else
    Some {| ok := negb (nonempty reasons); reasons := reasons;
            require_approval := false |}.

End Validate.

(** *** Adapters, [invoke_adapter] and [compensate] *)

Record ToolCall := {
  call_name : string;
  call_input : py.value;
  dryRun : bool;
  idempotencyKey : string
}.

(** The namespaces of [ADAPTERS]; each has a mock. *)
Definition ADAPTERS : list string := ["github"; "jira"; "k8s"; "pagerduty"].

Definition pick_adapter (tool_name : string) : option string :=
  let namespace := hd "" (split_on "."%char tool_name) in
  if policy_engine.in_strs namespace ADAPTERS then Some namespace else None.

Section Adapters.

(** [adapter_mod.invoke(call)] of the adapter of a namespace. *)
Variable adapter_invoke : string -> ToolCall -> outcome py.value.

Definition error_status (result : py.value) : py.value :=
  match result with
  | py.PDict d =>
      match py.get d "audit" with
      | py.PDict a => py.get_default a "error_status" (py.PInt 0)
      | _ => py.PInt 0
      end
  | _ => py.PInt 0
  end.

Definition invoke_adapter (tool : string) (args : py.value) (dry_run : bool)
    (idempotency_key : string) : outcome py.value :=
  match pick_adapter tool with
  | None => Raise ("no adapter for " ++ tool)
  | Some adapter_mod =>
      let call := {| call_name := tool; call_input := args; dryRun := dry_run;
                     idempotencyKey := idempotency_key |} in
      result <- adapter_invoke adapter_mod call ;;
      if existsb (py.eqb (error_status result)) [py.PInt 500; py.PInt 502; py.PInt 503]
      then Raise "retryable"
      else Ret result
  end.

(** The call that [compensate] hands to the adapter. *)
Definition compensate_call (tool : string) (args : py.value) (dry_run : bool)
    (idempotency_key : string) : ToolCall :=
  {| call_name := tool; call_input := args; dryRun := dry_run;
     idempotencyKey := idempotency_key ++ "-comp" |}.

Definition compensate (tool : string) (args : py.value) (dry_run : bool)
    (idempotency_key : string) : outcome py.value :=
  match pick_adapter tool with
  | None => Raise ("no adapter for " ++ tool)
  | Some adapter_mod =>
      adapter_invoke adapter_mod (compensate_call tool args dry_run idempotency_key)
  end.

End Adapters.

(** *** [record_step] *)

(** The value under the key ["status"] of [fields]. *)
Inductive status_arg :=
| StatusNone
| StatusStr (value : string)
| StatusEnum (value : StepStatus).

(** [fields]: per key, [None] when the key is absent and [Some v] when it
    is present with value [v] ([v = None] for Python's [None]). *)
Record fields := {
  f_status : option status_arg;
  f_tool : option string;
  f_input : option (option py.value);
  f_output : option (option py.value);
  f_error : option (option py.value);
  f_idempotency_key : option (option string);
  f_started_at : option (option Z);
  f_ended_at : option (option Z)
}.

(** [setattr(step, key, value)] when the key is present. *)
Definition assign {A : Type} (field : option (option A)) (old : option A) : option A :=
  match field with Some v => v | None => old end.

(** [x or y]. *)
Definition or_else {A : Type} (x y : option A) : option A :=
  match x with Some _ => x | None => y end.

(** [fields.get("status") == s]: a [str]-valued enum equals its value. *)
Definition status_arg_is (a : option status_arg) (s : StepStatus) : bool :=
  match a with
  | Some (StatusStr v) => String.eqb v (status_value s)
  | Some (StatusEnum e) => status_eqb e s
  | _ => false
  end.

(** The [for key, value in fields.items()] loop on one row.  A status of
    [None] is stored as it is and the commit then fails on the NOT NULL
    column: [Raise]. *)
Definition apply_fields (now : Z) (f : fields) (step : Step) : outcome Step :=
  status' <-
    match f_status f with
    | None => Ret (status step)
    | Some StatusNone => Raise "IntegrityError"
    | Some (StatusEnum e) => Ret e
    | Some (StatusStr v) =>
        match StepStatus_of v with
        | Ret e => Ret e
        | Raise _ => Ret PENDING
        end
    end ;;
  let started := assign (f_started_at f) (started_at step) in
  let ended := assign (f_ended_at f) (ended_at step) in
  let started :=
    if status_arg_is (f_status f) RUNNING then or_else started (Some now) else started in
  let ended :=
    if status_arg_is (f_status f) SUCCEEDED || status_arg_is (f_status f) FAILED ||
       status_arg_is (f_status f) SKIPPED || status_arg_is (f_status f) COMPENSATED
    then or_else ended (Some now) else ended in
  Ret {| run_id := run_id step; name := name step;
         tool := match f_tool f with Some t => t | None => tool step end;
         status := status';
         input := assign (f_input f) (input step);
         output := assign (f_output f) (output step);
         error := assign (f_error f) (error step);
         idempotency_key := assign (f_idempotency_key f) (idempotency_key step);
         started_at := started; ended_at := ended |}.

Definition is_step (run step_name : string) (s : Step) : bool :=
  String.eqb (run_id s) run && String.eqb (name s) step_name.

Definition new_step (run step_name : string) (f : fields) : Step :=
  {| run_id := run; name := step_name;
     tool := match f_tool f with Some t => t | None => "" end;
     status := PENDING; input := None; output := None; error := None;
     idempotency_key := None; started_at := None; ended_at := None |}.

(** The update of the first row that matches, in place. *)
Fixpoint update_first (sel : Step -> bool) (s' : Step) (db : list Step) : list Step :=
  match db with
  | [] => []
  | s :: r => if sel s then s' :: r else s :: update_first sel s' r
  end.

(** [record_step] on the [steps] table. *)
Definition record_step (now : Z) (run step_name : string) (f : fields)
    (db : list Step) : outcome (list Step) :=
  match find (is_step run step_name) db with
  | Some step =>
      step' <- apply_fields now f step ;;
      Ret (update_first (is_step run step_name) step' db)
  | None =>
      step' <- apply_fields now f (new_step run step_name f) ;;
      Ret (db ++ [step'])%list
  end.

(** *** [compute_shadow] *)

(** Dict keys here are arbitrary hashable values, compared with [==]. *)
Fixpoint vlookup {A : Type} (k : py.value) (d : list (py.value * A)) : option A :=
  match d with
  | [] => None
  | (k', v) :: r => if py.eqb k k' then Some v else vlookup k r
  end.

(** [d[k] = v]: a bound key keeps its place. *)
Fixpoint vset {A : Type} (k : py.value) (v : A) (d : list (py.value * A))
    : list (py.value * A) :=
  match d with
  | [] => [(k, v)]
  | (k', v') :: r => if py.eqb k k' then (k', v) :: r else (k', v') :: vset k v r
  end.

Definition hashable (v : py.value) : bool :=
  match v with
  | py.PList _ | py.PDict _ => false
  | _ => true
  end.

(** [set(a) | set(b)] as a duplicate-free list; the order in which a set
    is iterated is not specified, this is one of them. *)
Fixpoint vunion (a b : list py.value) : list py.value :=
  match a with
  | [] => (fix dedup (l : list py.value) (seen : list py.value) : list py.value :=
             match l with
             | [] => []
             | x :: r => if existsb (py.eqb x) seen then dedup r seen
                         else x :: dedup r (x :: seen)
             end) b []
  | x :: r =>
      let rest := vunion r b in
      if existsb (py.eqb x) rest then rest else x :: rest
  end.

Record agent_entry := {
  a_name : string;
  a_tool : string;
  a_input : py.value;
  a_order_index : Z
}.

(** [s.input or {}]. *)
Definition input_or_empty (i : option py.value) : py.value :=
  match i with
  | Some v => if py.truthy v then v else py.PDict []
  | None => py.PDict []
  end.

(** [[... for idx, s in enumerate(steps) if s.status in {...}]]. *)
Fixpoint agent_steps_from (idx : nat) (steps : list Step) : list agent_entry :=
  match steps with
  | [] => []
  | s :: r =>
      let rest := agent_steps_from (S idx) r in
      match status s with
      | SUCCEEDED | RUNNING | PENDING =>
          {| a_name := name s; a_tool := tool s; a_input := input_or_empty (input s);
             a_order_index := Z.of_nat idx |} :: rest
      | _ => rest
      end
  end.

Definition agent_map_of (agent_steps : list agent_entry)
    : list (py.value * agent_entry) :=
  fold_left (fun m s => vset (py.PStr (a_name s)) s m) agent_steps [].

(** The loop that builds [expected_map]; an entry is the descriptor with
    its [order_index]. *)
Fixpoint expected_map_from (idx : nat) (expected_steps : list py.value)
    (m : list (py.value * (py.dict * Z))) : outcome (list (py.value * (py.dict * Z))) :=
  match expected_steps with
  | [] => Ret m
  | exp_name :: r =>
      match exp_name with
      | py.PStr s =>
          expected_map_from (S idx) r
            (vset (py.PStr s) ([("name", py.PStr s)], Z.of_nat idx) m)
      | py.PDict d =>
          let key := py.get_default d "name" (py.PStr "") in
          if hashable key
          then expected_map_from (S idx) r (vset key (d, Z.of_nat idx) m)
          else Raise "TypeError"
      | _ => expected_map_from (S idx) r m
      end
  end.

Record compare_row := {
  row_name : py.value;
  tool_match : bool;
  args_field_diff : list (string * (py.value * py.value));
  order_index_agent : Z;
  order_index_expected : Z
}.

Definition as_dict (v : py.value) : outcome py.dict :=
  match v with
  | py.PDict d => Ret d
  | _ => Raise "AttributeError"
  end.

(** [set(a.keys()) | set(b.keys())]. *)
Definition key_union (a b : py.dict) : list string :=
  nodup string_dec (py.keys a ++ py.keys b)%list.

(** The shallow diff of two inputs. *)
Definition diff_inputs (agent_input expected_input : py.dict)
    : list (string * (py.value * py.value)) :=
  flat_map (fun key =>
              if negb (py.eqb (py.get agent_input key) (py.get expected_input key))
              then [(key, (py.get agent_input key, py.get expected_input key))]
              else [])
           (key_union agent_input expected_input).

Record counters := {
  tool_matches : nat;
  args_matches : nat;
  order_matches : nat;
  step_compare : list compare_row
}.

(** The body of [for step_name in all_step_names]. *)
Definition compare_step (agent_map : list (py.value * agent_entry))
    (expected_map : list (py.value * (py.dict * Z)))
    (step_name : py.value) (c : counters) : outcome counters :=
  let agent_step := vlookup step_name agent_map in
  let expected_step := vlookup step_name expected_map in
  let order_index_agent :=
    match agent_step with Some a => a_order_index a | None => (-1)%Z end in
  let order_index_expected :=
    match expected_step with Some e => snd e | None => (-1)%Z end in
  match agent_step, expected_step with
  | Some a, Some e =>
      let expected_tool := py.get_default (fst e) "tool" (py.PStr "") in
      let tm := py.eqb (py.PStr (a_tool a)) expected_tool in
      agent_input <- as_dict (a_input a) ;;
      expected_input <- as_dict (py.get_default (fst e) "input" (py.PDict [])) ;;
      let diff := diff_inputs agent_input expected_input in
      Ret {| tool_matches := if tm then S (tool_matches c) else tool_matches c;
             args_matches := if nonempty diff then args_matches c else S (args_matches c);
             order_matches := if (order_index_agent =? order_index_expected)%Z
                              then S (order_matches c) else order_matches c;
             step_compare :=
               (step_compare c ++
                [ {| row_name := step_name; tool_match := tm; args_field_diff := diff;
                     order_index_agent := order_index_agent;
                     order_index_expected := order_index_expected |} ])%list |}
  | _, _ =>
      Ret {| tool_matches := tool_matches c; args_matches := args_matches c;
             order_matches := order_matches c;
             step_compare :=
               (step_compare c ++
                [ {| row_name := step_name; tool_match := false; args_field_diff := [];
                     order_index_agent := order_index_agent;
                     order_index_expected := order_index_expected |} ])%list |}
  end.

Fixpoint compare_all (agent_map : list (py.value * agent_entry))
    (expected_map : list (py.value * (py.dict * Z)))
    (names : list py.value) (c : counters) : outcome counters :=
  match names with
  | [] => Ret c
  | n :: r =>
      c' <- compare_step agent_map expected_map n c ;;
      compare_all agent_map expected_map r c'
  end.

(** The floats of the score are kept as exact rationals. *)
Definition ratio (matches total_steps : nat) : Q :=
  if Nat.ltb 0 total_steps
  then (inject_Z (Z.of_nat matches) / inject_Z (Z.of_nat total_steps))%Q
  else 0%Q.

Definition weighted (tool_score args_score order_score : Q) : Q :=
  ((5 # 10) * tool_score + (3 # 10) * args_score + (2 # 10) * order_score)%Q.

Definition is_violation (s : Step) : bool :=
  match status s with
  | SKIPPED =>
      match error s with
      | Some (py.PDict e) =>
          policy_engine.has_key "policy" e || policy_engine.has_key "budget" e
      | _ => false
      end
  | _ => false
  end.

Record shadow := {
  shadow_step_compare : list compare_row;
  match_score : Q;
  policy_violations : nat;
  shadow_tool_matches : nat;
  shadow_args_matches : nat;
  shadow_order_matches : nat;
  shadow_total_steps : nat
}.

(** [compute_shadow]: what it stores under [run.metrics["shadow"]] (with
    the counters it derives the score from), from the step rows of the
    run in [started_at] order and [ctx["run"]["expected"]["steps"]]. *)
Definition compute_shadow (steps : list Step) (expected_steps : list py.value)
    : outcome shadow :=
  let agent_steps := agent_steps_from 0 steps in
  let total_steps :=
    let m := Nat.max (List.length agent_steps) (List.length expected_steps) in
    if Nat.eqb m 0 then 1%nat else m in
  let agent_map := agent_map_of agent_steps in
  expected_map <- expected_map_from 0 expected_steps [] ;;
  let all_step_names := vunion (map fst agent_map) (map fst expected_map) in
  c <- compare_all agent_map expected_map all_step_names
         {| tool_matches := 0; args_matches := 0; order_matches := 0;
            step_compare := [] |} ;;
  let tool_score := ratio (tool_matches c) total_steps in
  let args_score := ratio (args_matches c) total_steps in
  let order_score := ratio (order_matches c) total_steps in
  Ret {| shadow_step_compare := step_compare c;
         match_score := weighted tool_score args_score order_score;
         policy_violations := List.length (filter is_violation steps);
         shadow_tool_matches := tool_matches c;
         shadow_args_matches := args_matches c;
         shadow_order_matches := order_matches c;
         shadow_total_steps := total_steps |}.

End activities.

(** ** gateway/app/policy_guard.py *)

Module policy_guard.
Import activities.

(** [check_allowlist]: the violations, none or the tool. *)
Fixpoint allowed_by (allowlist : list (string * list string)) (tool : string)
    (user_roles : list string) : bool :=
  match user_roles with
  | [] => false
  | role :: rest =>
      let tools := py.get_default allowlist role [] in
      if policy_engine.in_strs tool tools then true else allowed_by allowlist tool rest
  end.

Definition check_allowlist (user_roles : list string) (tool : string) (policy : Policy)
    : list string :=
  let allowlist := tool_allowlist policy in
  if allowed_by allowlist tool user_roles then []
  else if nonempty allowlist then [tool]
  else [].

(** [check_budgets]. *)
Definition check_budgets (run_cost_tokens : Z) (run_cost_usd : Q) (policy : Policy) : bool :=
  let max_tokens := max_tokens_per_run policy in
  let max_usd := max_cost_per_run_usd policy in
  if match max_tokens with Some m => (m <? run_cost_tokens)%Z | None => false end
  then false
  else if match max_usd with
          | Some m => negb (Qle_bool run_cost_usd m)
          | None => false
          end
  then false
  else true.

Section Guard.

(** [validate_tool_input]: the messages of the schema registered for the
    tool, none when no schema is. *)
Variable validate_tool_input : string -> py.dict -> list string.
(** [json.loads(os.getenv("K8S_NAMESPACE_ALLOWLIST", "[]"))], [[]] when it
    does not parse. *)
Variable K8S_NAMESPACE_ALLOWLIST : list py.value.

(** [_check_k8s_namespace]. *)
Definition _check_k8s_namespace (tool : string) (payload : py.dict) : outcome unit :=
  if negb (String.prefix "k8s." tool) then Ret tt
  else
    let namespace := py.get payload "namespace" in
    if negb (py.truthy namespace) then Ret tt
    else
      let allowlist := K8S_NAMESPACE_ALLOWLIST in
      if nonempty allowlist && negb (existsb (py.eqb namespace) allowlist)
      then Raise ("403 namespace '" ++ py.str namespace ++ "' not in allowlist: "
                  ++ py.str (py.PList allowlist))
      else Ret tt.

(** [guard_tool_call]. *)
Definition guard_tool_call (tool : string) (payload : py.dict) (user_roles : list string)
    (policy : Policy) : outcome unit :=
  let violations := check_allowlist user_roles tool policy in
  if nonempty violations
  then Raise ("403 tool not allowed for roles " ++ py.str (py.PList (map py.PStr user_roles)))
  else
    let schema_errors := validate_tool_input tool payload in
    if nonempty schema_errors
    then Raise ("422 " ++ py.str (py.PDict [("errors", py.PList (map py.PStr schema_errors))]))
    else
      _ <- _check_k8s_namespace tool payload ;;
      if negb (check_budgets 0 0 policy)
      then Raise "403 budget exceeded"
      else Ret tt.

End Guard.

End policy_guard.

(** ** orchestrator/app/workflows.py *)

Module workflows.
Import models activities.

Record usage := {
  u_tokens_in : Z;
  u_tokens_out : Z;
  u_latency_ms : Z;
  u_cost_usd : Z * nat       (* a decimal float: m / 10^e *)
}.

Definition Q_of_decimal (d : Z * nat) : Q :=
  (inject_Z (fst d) / inject_Z (10 ^ Z.of_nat (snd d)))%Q.

Definition usage_value (u : usage) : py.value :=
  py.PDict [ ("tokens_in", py.PInt (u_tokens_in u));
             ("tokens_out", py.PInt (u_tokens_out u));
             ("latency_ms", py.PInt (u_latency_ms u));
             ("cost_usd", py.PFloat (fst (u_cost_usd u)) (snd (u_cost_usd u))) ].

Record totals := {
  tokens_in : Z;
  tokens_out : Z;
  latency_ms : Z;
  cost_usd : Q
}.

Definition totals0 : totals :=
  {| tokens_in := 0; tokens_out := 0; latency_ms := 0; cost_usd := 0 |}.

Definition add_usage (t : totals) (u : usage) : totals :=
  {| tokens_in := tokens_in t + u_tokens_in u;
     tokens_out := tokens_out t + u_tokens_out u;
     latency_ms := latency_ms t + u_latency_ms u;
     cost_usd := (cost_usd t + Q_of_decimal (u_cost_usd u))%Q |}.

(** What [plan_and_review] left in [_brain_cache[run_id]]: the planned
    steps and the usage (absent or empty: [None]). *)
Record brain_result := {
  planned : list py.dict;
  brain_usage : option usage
}.

(** The context that [load_context] returns. *)
Record ctx := {
  ctx_run_id : string;
  ctx_steps : list py.dict;
  ctx_policy : Policy;
  ctx_user_roles : list string;
  ctx_needs_approval : list (string * string);   (* step name -> approval id *)
  ctx_context : py.dict
}.

Record plan := {
  plan_tool : py.value;
  plan_args : py.value;
  plan_idempotencyKey : string;
  plan_decision : option string;
  plan_reasons : py.value;
  plan_usage : option usage
}.

Inductive activity :=
| RecordStep (step_name : string) (f : fields)
| InvokeAdapter (tool : string) (args : py.value) (dry_run : bool) (idempotency_key : string)
| Compensate (tool : string) (args : py.value) (dry_run : bool) (idempotency_key : string)
| UpdateRunTotals (t : totals)
| ComputeShadow.

Inductive run_result :=
| Completed              (* {"ok": True, "mode": mode} *)
| Failed (exc : string)  (* the exception leaves the workflow *).

Section Engine.

Variable schema_errors : py.value -> py.value -> list string.
Variable sha256_hex : string -> string.
Variable adapter_invoke : string -> ToolCall -> outcome py.value.
(** The result of the [wait_for_approval] activity for an approval id. *)
Variable wait_for_approval : option string -> bool.
Variable brain : brain_result.
(** [datetime.utcnow()] at the n-th activity of the run. *)
Variable utcnow : nat -> Z.
(** The bound on the tokenizer's loop (see [policy_engine._tokenize]). *)
Variable fuel : nat.

(** Names and tools are strings; [f"{name}"] of another value is its
    [str]. *)
Definition name_of (step : py.dict) : string :=
  py.str (py.get_default step "name" (py.PStr "")).

(** [plan_step], with the cache filled. *)
Definition plan_step (step : py.dict) (c : ctx) : plan :=
  let run_id := ctx_run_id c in
  let step_name := py.get_default step "name" (py.PStr "") in
  let planned_step :=
    find (fun p => py.eqb (py.get p "name") step_name) (planned brain) in
  let fallback_tool := py.get_default step "tool" (py.PStr "") in
  let fallback_args := py.get_default step "input" (py.PDict []) in
  let key args := utils.make_idempotency_key sha256_hex run_id (py.str step_name) args in
  match planned_step with
  | Some ((_ :: _) as p) =>
      let tool := py.get_default p "tool" fallback_tool in
      let args := py.get_default p "args" fallback_args in
      let decision := py.get_default p "decision" (py.PStr "allow") in
      if py.eqb decision (py.PStr "block") then
        {| plan_tool := tool; plan_args := args; plan_idempotencyKey := key args;
           plan_decision := Some "block";
           plan_reasons := py.get_default p "reasons" (py.PList []);
           plan_usage := None |}
      else
        {| plan_tool := tool; plan_args := args; plan_idempotencyKey := key args;
           plan_decision := None; plan_reasons := py.PList [];
           plan_usage := brain_usage brain |}
  | _ =>
      {| plan_tool := fallback_tool; plan_args := fallback_args;
         plan_idempotencyKey := key fallback_args;
         plan_decision := None; plan_reasons := py.PList [];
         plan_usage := brain_usage brain |}
  end.

Definition skipped (error : py.value) : fields :=
  {| f_status := Some (StatusStr "skipped"); f_tool := None; f_input := None;
     f_output := None; f_error := Some (Some error); f_idempotency_key := None;
     f_started_at := None; f_ended_at := None |}.

Definition budget_error (what : string) : py.value :=
  py.PDict [("budget", py.PStr (what ++ " exceeded"))].

Definition pending (step : py.dict) : fields :=
  {| f_status := Some (StatusStr "pending");
     f_tool := Some (py.str (py.get_default step "tool" (py.PStr "")));
     f_input := Some (py.lookup "input" step);
     f_output := None; f_error := None; f_idempotency_key := None;
     f_started_at := None; f_ended_at := None |}.

Definition with_usage (res : py.value) (u : usage) : py.value :=
  match res with
  | py.PDict d =>
      py.PDict (if policy_engine.has_key "usage" d
                then map (fun kv => if String.eqb (fst kv) "usage"
                                    then (fst kv, usage_value u) else kv) d
                else (d ++ [("usage", usage_value u)])%list)
  | _ => res
  end.

(** The engine state: the activities executed so far and the totals. *)
Record engine := {
  trace : list activity;
  run_totals : totals
}.

Definition emit (a : activity) (e : engine) : engine :=
  {| trace := (trace e ++ [a])%list; run_totals := run_totals e |}.

Definition now (e : engine) : Z := utcnow (List.length (trace e)).

(** What one iteration of [for step in steps] does: go on to the next
    step, or leave the loop with an exception. *)
Inductive iteration :=
| Continue (e : engine)
| Abort (e : engine) (exc : string).

(** The [try: ... except Exception] block of one step. *)
Definition execute (dry_run : bool) (step : py.dict) (p : plan) (e : engine) : iteration :=
  let name := name_of step in
  let tool := py.str (plan_tool p) in
  let e := emit (InvokeAdapter tool (plan_args p) dry_run (plan_idempotencyKey p)) e in
  match invoke_adapter adapter_invoke tool (plan_args p) dry_run (plan_idempotencyKey p) with
  | Ret res =>
      let '(output, t) :=
        match plan_usage p with
        | Some u => (with_usage res u, add_usage (run_totals e) u)
        | None => (res, run_totals e)
        end in
      let e := {| trace := trace e; run_totals := t |} in
      let e := emit (UpdateRunTotals t) e in
      Continue
        (emit (RecordStep name
                 {| f_status := Some (StatusStr "succeeded"); f_tool := None;
                    f_input := None; f_output := Some (Some output); f_error := None;
                    f_idempotency_key := None; f_started_at := None;
                    f_ended_at := Some (Some (now e)) |}) e)
  | Raise exc =>
      let e :=
        emit (RecordStep name
                {| f_status := Some (StatusStr "failed"); f_tool := None;
                   f_input := None; f_output := None;
                   f_error := Some (Some (py.PDict [("msg", py.PStr exc)]));
                   f_idempotency_key := None; f_started_at := None;
                   f_ended_at := Some (Some (now e)) |}) e in
      match py.lookup "compensate" step with
      | Some (py.PDict ((_ :: _) as comp)) =>
          let ctool := py.str (py.get_default comp "tool" (py.PStr "")) in
          let cargs := py.get_default comp "input" (py.PDict []) in
          let e := emit (Compensate ctool cargs dry_run (plan_idempotencyKey p)) e in
          match compensate adapter_invoke ctool cargs dry_run (plan_idempotencyKey p) with
          | Ret cres =>
              Abort
                (emit (RecordStep name
                         {| f_status := Some (StatusStr "compensated"); f_tool := None;
                            f_input := None;
                            f_output := Some (Some (py.PDict [("compensation", cres)]));
                            f_error := None; f_idempotency_key := None;
                            f_started_at := None;
                            f_ended_at := Some (Some (now e)) |}) e)
                exc
          | Raise comp_exc =>
              Abort
                (emit (RecordStep name
                         {| f_status := None; f_tool := None; f_input := None;
                            f_output := None;
                            f_error := Some (Some (py.PDict
                                         [("compensation_failed", py.PStr comp_exc)]));
                            f_idempotency_key := None; f_started_at := None;
                            f_ended_at := Some (Some (now e)) |}) e)
                exc
          end
      | _ => Abort e exc
      end
  end.

(** The body of the loop for one step.  [None]: the policy evaluation did
    not return. *)
Definition run_step (dry_run : bool) (c : ctx) (step : py.dict) (e : engine)
    : option iteration :=
  let policy := ctx_policy c in
  let max_tokens := max_tokens_per_run policy in
  let max_cost := max_cost_per_run_usd policy in
  let name := name_of step in
  let e := emit (RecordStep name (pending step)) e in
  let t := run_totals e in
  if match max_tokens with
     | Some m => (m <=? tokens_in t + tokens_out t)%Z
     | None => false
     end
  then Some (Continue (emit (RecordStep name (skipped (budget_error "max_tokens_per_run"))) e))
  else if match max_cost with
          | Some m => Qle_bool m (cost_usd t)
          | None => false
          end
  then Some (Continue (emit (RecordStep name (skipped (budget_error "max_cost_per_run_usd"))) e))
  else
    match policy_validate schema_errors fuel step policy (ctx_user_roles c) (ctx_context c) with
    | None => None
    | Some val =>
        if negb (ok val)
        then Some (Continue
                     (emit (RecordStep name
                              (skipped (py.PDict [("policy", py.PList (map py.PStr (reasons val)))])))
                           e))
        else
          let needs := policy_engine.has_key name (ctx_needs_approval c) in
          if (py.truthy (py.get step "requires_approval") || needs) &&
             negb (wait_for_approval (py.lookup name (ctx_needs_approval c)))
          then Some (Continue
                       (emit (RecordStep name
                                (skipped (py.PDict [("approval", py.PStr "timeout")]))) e))
          else
            let p := plan_step step c in
            if opt_str_eqb (plan_decision p) (Some "block")
            then Some (Continue
                         (emit (RecordStep name
                                  (skipped (py.PDict [("brain", plan_reasons p)]))) e))
            else
              let e :=
                emit (RecordStep name
                        {| f_status := Some (StatusStr "running"); f_tool := None;
                           f_input := None; f_output := None; f_error := None;
                           f_idempotency_key := Some (Some (plan_idempotencyKey p));
                           f_started_at := Some (Some (now e)); f_ended_at := None |}) e in
              Some (execute dry_run step p e)
    end.

(** [for step in steps]. *)
Fixpoint run_steps (dry_run : bool) (c : ctx) (steps : list py.dict) (e : engine)
    : option iteration :=
  match steps with
  | [] => Some (Continue e)
  | step :: rest =>
      match run_step dry_run c step e with
      | Some (Continue e') => run_steps dry_run c rest e'
      | other => other
      end
  end.

(** [RunbookWorkflow.run] once [load_context] has returned [c]. *)
Definition run (c : ctx) (mode : string) : option (engine * run_result) :=
  let dry_run := negb (String.eqb mode "execute") in
  match run_steps dry_run c (ctx_steps c) {| trace := []; run_totals := totals0 |} with
  | None => None
  | Some (Abort e exc) => Some (e, Failed exc)
  | Some (Continue e) =>
      let e := if String.eqb mode "shadow" then emit ComputeShadow e else e in
      Some (e, Completed)
  end.

End Engine.

End workflows.

(* ===================================================================== *)
(** * Part II: the vocabulary of the properties                           *)
(* ===================================================================== *)

(** The predicates below say in the words of the specification what the
    theorems of Part IV prove about the functions of Part I. *)

(** ** Audit chains *)

Module audit_chain.
Import audit.

(** The chain invariant in the words of the specification:
    [hash = HMAC-SHA256(secret, prev_hash || canonical_json(record))],
    a null [prev_hash] contributing nothing. *)
Definition chain_hash (hmac_sha256 : string -> string -> string) (secret : string)
    (prev : option string) (log : AuditLog) : string :=
  hmac_sha256 secret
    (match prev with Some p => p | None => "" end ++ json.dumps_compact (record_of_log log)).

(** Every entry hashes over the hash of the entry before it ([prev] for
    the first). *)
Fixpoint hashes_ok (hmac_sha256 : string -> string -> string) (secret : string)
    (prev : option string) (logs : list AuditLog) : Prop :=
  match logs with
  | [] => True
  | log :: rest =>
      hash log = chain_hash hmac_sha256 secret prev log /\
      hashes_ok hmac_sha256 secret (Some (hash log)) rest
  end.

(** Every entry's [prev_hash] is the hash of the entry before it. *)
Fixpoint links_ok (prev : option string) (logs : list AuditLog) : Prop :=
  match logs with
  | [] => True
  | log :: rest => prev_hash log = prev /\ links_ok (Some (hash log)) rest
  end.

(** The hash of the last entry, [prev] when there is none. *)
Fixpoint last_hash (prev : option string) (logs : list AuditLog) : option string :=
  match logs with
  | [] => prev
  | log :: rest => last_hash (Some (hash log)) rest
  end.

(** The chain of a tenant. *)
Definition chain (tenant : string) (db : table) : list AuditLog :=
  filter (of_tenant tenant) db.

(** Tables that only [write_audit] has written to. *)
Inductive written (hmac_sha256 : string -> string -> string) (secret : string)
    : table -> Prop :=
| written_empty : written hmac_sha256 secret []
| written_append db new_id actor_type actor_id tenant_id action resource_type
                 resource_id payload :
    written hmac_sha256 secret db ->
    written hmac_sha256 secret
      (write_audit hmac_sha256 secret new_id actor_type actor_id tenant_id
                   action resource_type resource_id payload db).

(** A stored row with another payload. *)
Definition with_payload (log : AuditLog) (p : option py.value) : AuditLog :=
  {| id := id log; actor_type := actor_type log; actor_id := actor_id log;
     tenant_id := tenant_id log; action := action log;
     resource_type := resource_type log; resource_id := resource_id log;
     payload := p; prev_hash := prev_hash log; hash := hash log |}.

End audit_chain.

(** ** Role bindings *)

Module authz.
Import rbac.

(** The bindings the resolution reads for one subject: those of the
    project when the request names one, and those of the tenant. *)
Definition bound (tenant : string) (project : option string) (db : list RoleBinding)
    (s : subject) (b : RoleBinding) : Prop :=
  In b db /\ tenant_id b = tenant /\
  (subject_type b, subject_id b) = s /\
  (project_id b = None \/ (truthy_str project = true /\ project_id b = project)).

(** The subject, under one of its identifiers, holds role [r]. *)
Definition holds (tenant : string) (project : option string) (db : list RoleBinding)
    (subjects : list subject) (r : string) : Prop :=
  exists s b, In s subjects /\ bound tenant project db s b /\ role b = r.

(** The invariant of the two loops of [authorize]: [allowed] says whether
    a checked role has the permission; the checked roles are roles of
    bindings in [seen]; and while [allowed] is false every binding gone
    through has its role among the checked ones. *)
Definition inv (perm : string -> bool) (seen : RoleBinding -> Prop)
    (st : loop_state) : Prop :=
  fst st = existsb perm (snd st) /\
  (forall r, In r (snd st) -> exists b, seen b /\ role b = r) /\
  (fst st = false -> forall b, seen b -> In (role b) (snd st)).


(** Some role the subject holds has the permission. *)
Definition granted (action resource tenant : string) (project : option string)
    (db : list RoleBinding) (subjects : list subject) : Prop :=
  exists r, holds tenant project db subjects r /\ _check_permission r action resource = true.

(** The binding is one of the tenant, for no project or for the project
    of the request. *)
Definition in_scope (tenant : string) (project : option string) (b : RoleBinding) : bool :=
  String.eqb (tenant_id b) tenant &&
  match project_id b with
  | None => true
  | Some p => truthy_str project && opt_str_eqb (Some p) project
  end.

End authz.

(** ** Precondition rules *)

Module rules.
Import policy_engine.

(** A character that opens none of the tokenizer's cases leaves the loop
    where it is: the position does not advance and an empty token is
    appended, for ever. *)
Definition unhandled (c : ascii) (s : chars) : Prop :=
  isspace c = false /\
  in_strs (str_of (firstn 2 (c :: s))) ["=="; "!="; "<="; ">="; "in"; "not"] = false /\
  in_strs (str_of [c]) ["="; "<"; ">"; "("; ")"; "&"; "|"] = false /\
  is_quote c = false /\
  is_ident_char c = false.

(** The rule names no step, or the current one. *)
Definition applicable (prec : precondition) (step : py.dict) : bool :=
  negb (truthy_str (pstep prec) &&
        negb (py.eqb (opt_str_value (pstep prec))
                     (py.get_default step "name" (py.PStr "")))).

(** The rule applies to the step and its [when] evaluates truthy. *)
Definition fires (fuel : nat) (step context : py.dict) (prec : precondition) : Prop :=
  applicable prec step = true /\
  exists tokens, _tokenize fuel (when prec) = Some tokens /\
                 _eval_expr tokens context step = Value true.

(** The rule is passed over: it is for another step, or its [when]
    evaluates falsy, or the evaluation raises. *)
Definition passed (fuel : nat) (step context : py.dict) (prec : precondition) : Prop :=
  applicable prec step = false \/
  exists tokens, _tokenize fuel (when prec) = Some tokens /\
                 _eval_expr tokens context step <> Value true.


(** A character that opens one of the tokenizer's cases by itself. *)
Definition handled (c : ascii) : bool :=
  isspace c || in_strs (str_of [c]) ["="; "<"; ">"; "("; ")"; "&"; "|"] ||
  is_quote c || is_ident_char c.

(** Every character of the expression opens a case of the tokenizer: it is
    handled by itself, or it is the [!] of a [!=]. *)
Fixpoint tokenizable (s : chars) : bool :=
  match s with
  | [] => true
  | c :: r =>
      (handled c ||
       (Ascii.eqb c "!"%char &&
        match r with c2 :: _ => Ascii.eqb c2 "="%char | [] => false end)) &&
      tokenizable r
  end.

(** The rule applies to the step and the tokenizer does not come to the
    end of its [when] within the bound. *)
Definition stuck (fuel : nat) (step : py.dict) (prec : precondition) : Prop :=
  applicable prec step = true /\ _tokenize fuel (when prec) = None.

(** What [decide] answers for a list of rules: nothing when every rule is
    passed over, the [then] of the first rule that fires, and no answer
    when the tokenizer is caught in its loop before a rule fires. *)
Inductive decided (fuel : nat) (step context : py.dict)
    (preconditions : list precondition) : option (option string) -> Prop :=
| decided_none :
    Forall (passed fuel step context) preconditions ->
    decided fuel step context preconditions (Some None)
| decided_first pre prec post :
    preconditions = (pre ++ prec :: post)%list ->
    Forall (passed fuel step context) pre ->
    fires fuel step context prec ->
    decided fuel step context preconditions (Some (Some (then_ prec)))
| decided_stuck pre prec post :
    preconditions = (pre ++ prec :: post)%list ->
    Forall (passed fuel step context) pre ->
    stuck fuel step prec ->
    decided fuel step context preconditions None.

Arguments decided_none {fuel step context}.
Arguments decided_first {fuel step context}.
Arguments decided_stuck {fuel step context}.

(** A token that is a value: not a parenthesis, an operator or a
    connective. *)
Definition operand (tok : string) : Prop :=
  ~ In tok ["("; ")"; "=="; "!="; "in"; "not"; "and"; "or"].

(** A token that the comparison loop passes over. *)
Definition plain (tok : string) : Prop := ~ In tok ["=="; "!="; "in"; "not"].

Inductive comparison := Equal | Differs.

Inductive connective := And | Or.

Definition comparison_token (o : comparison) : string :=
  match o with Equal => "==" | Differs => "!=" end.

Definition connective_token (k : connective) : string :=
  match k with And => "and" | Or => "or" end.

Definition compare (o : comparison) (x y : py.value) : bool :=
  match o with Equal => py.eqb x y | Differs => negb (py.eqb x y) end.

Definition connect (k : connective) (p q : bool) : bool :=
  match k with And => p && q | Or => p || q end.

End rules.

(** ** Policy validation *)

Module gate.
Import activities.

Definition not_allowed : string := "tool not allowed for roles".

(** The allowlist gate: it is passed unless the allowlist is non-empty
    and no role of the user allows the tool. *)
Definition allowlist_gate (allowlist : list (string * list string)) (tool : py.value)
    (user_roles : list string) : bool :=
  negb (match allowlist with [] => false | _ => true end
        && negb (allowed_for allowlist tool user_roles)).

(** Some role of the user has the tool on its list. *)
Definition role_allows (allowlist : list (string * list string)) (tool : py.value)
    (user_roles : list string) : Prop :=
  exists r tools t,
    In r user_roles /\ py.lookup r allowlist = Some tools /\ In t tools /\
    tool = py.PStr t.

(** [{ok: true, reasons: [], require_approval: true}]. *)
Definition approval_result : validation :=
  {| ok := true; reasons := []; require_approval := true |}.


(** The policy with its preconditions taken out. *)
Definition without_preconditions (policy : Policy) : Policy :=
  {| tool_allowlist := tool_allowlist policy; preconditions := [];
     max_tokens_per_run := max_tokens_per_run policy;
     max_cost_per_run_usd := max_cost_per_run_usd policy |}.

End gate.

(** ** Step states *)

Module step_state.
Import models activities workflows.

(** The status of an update leaves a terminal row terminal: the update
    carries no status, or a terminal member of the enum, or the name of
    one. *)
Definition keeps_terminal (a : option status_arg) : bool :=
  match a with
  | None => true
  | Some StatusNone => false
  | Some (StatusEnum e) => _terminal e
  | Some (StatusStr v) =>
      policy_engine.in_strs v ["succeeded"; "failed"; "skipped"; "compensated"]
  end.

(** The [steps] table after the [record_step] activities of a trace. *)
Fixpoint replay (run : string) (t : list activity) (db : list Step)
    : outcome (list Step) :=
  match t with
  | [] => Ret db
  | RecordStep step_name f :: rest =>
      db' <- record_step 0 run step_name f db ;; replay run rest db'
  | _ :: rest => replay run rest db
  end.

(** The statuses that a trace records, with the step names. *)
Definition statuses (t : list activity) : list (string * option status_arg) :=
  flat_map (fun a => match a with
                     | RecordStep n f => [(n, f_status f)]
                     | _ => []
                     end) t.


(** A record of the engine for the step [name]: it names a status by its
    string, or none. *)
Definition engine_record (name : string) (a : activity) : Prop :=
  match a with
  | RecordStep n f =>
      n = name /\ (f_status f = None \/ exists v, f_status f = Some (StatusStr v))
  | _ => True
  end.

(** The status of the row of a step after the records of a trace, from
    the status [st] it had ([None]: there was no row). *)
Fixpoint final_status (t : list activity) (st : option StepStatus) : option StepStatus :=
  match t with
  | [] => st
  | RecordStep _ f :: rest =>
      final_status rest
        (Some match f_status f with
              | Some (StatusStr v) =>
                  match StepStatus_of v with Ret e => e | Raise _ => PENDING end
              | Some (StatusEnum e) => e
              | _ => match st with Some s => s | None => PENDING end
              end)
  | _ :: rest => final_status rest st
  end.

(** The records are those of the engine for [name], and they leave the
    row in a terminal status whatever it was. *)
Definition terminal_after (name : string) (new : list activity) : Prop :=
  Forall (engine_record name) new /\
  forall st, exists s, final_status new st = Some s /\ _terminal s = true.

End step_state.

(** ** Budgets and idempotency keys in the engine *)

Module budget.
Import activities workflows.

(** The accumulated tokens have reached [max_tokens_per_run]. *)
Definition tokens_exhausted (c : ctx) (e : engine) : Prop :=
  exists m, max_tokens_per_run (ctx_policy c) = Some m /\
            (m <= tokens_in (run_totals e) + tokens_out (run_totals e))%Z.

(** The accumulated cost has reached [max_cost_per_run_usd]. *)
Definition cost_exhausted (c : ctx) (e : engine) : Prop :=
  exists m, max_cost_per_run_usd (ctx_policy c) = Some m /\
            (m <= cost_usd (run_totals e))%Q.

(** The step is recorded pending and then skipped with
    [{"budget": "<what> exceeded"}]; the totals are as before. *)
Definition skip_for_budget (what : string) (step : py.dict) (e : engine) : engine :=
  {| trace :=
       (trace e ++
        [ RecordStep (name_of step) (pending step);
          RecordStep (name_of step)
            {| f_status := Some (StatusStr "skipped"); f_tool := None;
               f_input := None; f_output := None;
               f_error := Some (Some (py.PDict [("budget", py.PStr (what ++ " exceeded"))]));
               f_idempotency_key := None; f_started_at := None;
               f_ended_at := None |} ])%list;
     run_totals := run_totals e |}.

(** The key that an adapter receives with a call. *)
Definition key_received (a : activity) : list string :=
  match a with
  | InvokeAdapter _ _ _ k => [k]
  | Compensate tool args dry_run k => [idempotencyKey (compensate_call tool args dry_run k)]
  | _ => []
  end.

Definition result_engine (i : iteration) : engine :=
  match i with Continue e => e | Abort e _ => e end.


(** The [dryRun] flags of the adapter calls of a trace. *)
Definition dry_run_flags (t : list activity) : list bool :=
  flat_map (fun a => match a with
                     | InvokeAdapter _ _ d _ | Compensate _ _ d _ => [d]
                     | _ => []
                     end) t.

(** The calls that reach an adapter. *)
Definition adapter_calls (t : list activity) : list activity :=
  filter (fun a => match a with
                   | InvokeAdapter _ _ _ _ | Compensate _ _ _ _ => true
                   | _ => false
                   end) t.

Definition invocations (t : list activity) : list activity :=
  filter (fun a => match a with InvokeAdapter _ _ _ _ => true | _ => false end) t.

(** The step asks for an approval, or the run holds one for it. *)
Definition needs_approval (c : ctx) (step : py.dict) : bool :=
  py.truthy (py.get step "requires_approval") ||
  policy_engine.has_key (name_of step) (ctx_needs_approval c).

(** Every gate before the adapter lets the step through: the budgets, the
    policy, the approval and the brain. *)
Definition admitted (schema_errors : py.value -> py.value -> list string)
    (sha256_hex : string -> string) (wait_for_approval : option string -> bool)
    (brain : brain_result) (fuel : nat) (c : ctx) (step : py.dict) (e : engine) : Prop :=
  ~ tokens_exhausted c e /\ ~ cost_exhausted c e /\
  (exists v, policy_validate schema_errors fuel step (ctx_policy c) (ctx_user_roles c)
                             (ctx_context c) = Some v /\ ok v = true) /\
  (needs_approval c step = true ->
   wait_for_approval (py.lookup (name_of step) (ctx_needs_approval c)) = true) /\
  plan_decision (plan_step sha256_hex brain step c) <> Some "block".

(** The statuses that a loop records when it skips every step. *)
Definition all_skipped (steps : list py.dict) : list (string * option status_arg) :=
  flat_map (fun step => [ (name_of step, Some (StatusStr "pending"));
                          (name_of step, Some (StatusStr "skipped")) ]) steps.

End budget.

(** ** The shadow score *)

Module score.
Import models activities.

(** The three per-name tests of the specification, for a name bound in
    both maps. *)
Definition tool_matches_at (agent_map : list (py.value * agent_entry))
    (expected_map : list (py.value * (py.dict * Z))) (n : py.value) : bool :=
  match vlookup n agent_map, vlookup n expected_map with
  | Some a, Some e =>
      py.eqb (py.PStr (a_tool a)) (py.get_default (fst e) "tool" (py.PStr ""))
  | _, _ => false
  end.

Definition args_match_at (agent_map : list (py.value * agent_entry))
    (expected_map : list (py.value * (py.dict * Z))) (n : py.value) : bool :=
  match vlookup n agent_map, vlookup n expected_map with
  | Some a, Some e =>
      match a_input a, py.get_default (fst e) "input" (py.PDict []) with
      | py.PDict ai, py.PDict ei =>
          forallb (fun k => py.eqb (py.get ai k) (py.get ei k)) (key_union ai ei)
      | _, _ => false
      end
  | _, _ => false
  end.

Definition order_matches_at (agent_map : list (py.value * agent_entry))
    (expected_map : list (py.value * (py.dict * Z))) (n : py.value) : bool :=
  match vlookup n agent_map, vlookup n expected_map with
  | Some a, Some e => (a_order_index a =? snd e)%Z
  | _, _ => false
  end.

Definition count (p : py.value -> bool) (names : list py.value) : nat :=
  List.length (filter p names).

(** The stored input of a step is a dict (or null, or falsy). *)
Definition dict_input (i : option py.value) : Prop :=
  match i with
  | None => True
  | Some (py.PDict _) => True
  | Some v => py.truthy v = false
  end.

Definition has_dict_input (d : py.dict) : Prop :=
  exists i, py.get_default d "input" (py.PDict []) = py.PDict i.

(** An expected step is a name, or a descriptor with a hashable name and
    a dict for its input. *)
Definition descriptor_ok (x : py.value) : Prop :=
  match x with
  | py.PDict d =>
      hashable (py.get_default d "name" (py.PStr "")) = true /\ has_dict_input d
  | _ => True
  end.


(** The strings among a list of names. *)
Definition str_names (l : list py.value) : list string :=
  flat_map (fun v => match v with py.PStr s => [s] | _ => [] end) l.

End score.

(** ** Canonical encodings *)

Module canonical.
Import py.

(** The same JSON document up to the order of dict items: what two
    insertion orders of one dict have in common.  Unlike [py.eqb] (Python's [==]) this
    does not identify [True] with [1]: the encoder prints them apart. *)
Fixpoint same (a b : py.value) {struct a} : bool :=
  match a, b with
  | PNone, PNone => true
  | PBool x, PBool y => Bool.eqb x y
  | PInt x, PInt y => Z.eqb x y
  | PFloat m e, PFloat m' e' => Z.eqb m m' && Nat.eqb e e'
  | PStr s, PStr t => String.eqb s t
  | PList l, PList l' =>
      (fix go (l : list value) (l' : list value) {struct l} : bool :=
         match l, l' with
         | [], [] => true
         | x :: r, y :: r' => same x y && go r r'
         | _, _ => false
         end) l l'
  | PDict d, PDict d' =>
      Nat.eqb (List.length d) (List.length d') &&
      (fix go (d : list (string * value)) : bool :=
         match d with
         | [] => true
         | kv :: r =>
             match lookup (fst kv) d' with
             | Some v' => same (snd kv) v' && go r
             | None => false
             end
         end) d
  | _, _ => false
  end.

(** The order of the items of a sorted dict. *)
Definition key_lt {A : Type} (a b : string * A) : Prop :=
  String_as_OT.lt (fst a) (fst b).

Section ValueInduction.

Variable P : value -> Prop.
Hypothesis HNone : P PNone.
Hypothesis HBool : forall b, P (PBool b).
Hypothesis HInt : forall z, P (PInt z).
Hypothesis HFloat : forall m e, P (PFloat m e).
Hypothesis HStr : forall s, P (PStr s).
Hypothesis HList : forall l, Forall P l -> P (PList l).
Hypothesis HDict : forall d, Forall (fun kv => P (snd kv)) d -> P (PDict d).

(** Induction over values that reaches the items of lists and dicts. *)
Fixpoint value_induction (v : value) : P v :=
  match v with
  | PNone => HNone
  | PBool b => HBool b
  | PInt z => HInt z
  | PFloat m e => HFloat m e
  | PStr s => HStr s
  | PList l =>
      HList l ((fix items (l : list value) : Forall P l :=
                  match l with
                  | [] => Forall_nil P
                  | x :: r => Forall_cons x (value_induction x) (items r)
                  end) l)
  | PDict d =>
      HDict d ((fix items (d : list (string * value)) : Forall (fun kv => P (snd kv)) d :=
                  match d with
                  | [] => Forall_nil _
                  | kv :: r => Forall_cons kv (value_induction (snd kv)) (items r)
                  end) d)
  end.

End ValueInduction.

End canonical.

(** ** The guard of a tool call *)

Module guard.
Import activities.

(** The namespace of a call passes the allowlist of namespaces: the tool
    is not a [k8s.] one, or the payload names no namespace, or the list is
    empty, or the namespace is on it. *)
Definition namespace_allowed (allowlist : list py.value) (tool : string) (payload : py.dict)
    : Prop :=
  String.prefix "k8s." tool = true ->
  py.truthy (py.get payload "namespace") = true ->
  allowlist = [] \/
  exists v, In v allowlist /\ py.eqb (py.get payload "namespace") v = true.

(** What has been spent is within the budgets of the policy: it exceeds
    neither maximum. *)
Definition within_budgets (tokens : Z) (usd : Q) (policy : Policy) : Prop :=
  (forall m, max_tokens_per_run policy = Some m -> (tokens <= m)%Z) /\
  (forall m, max_cost_per_run_usd policy = Some m -> (usd <= m)%Q).

End guard.

(** ** Approval requests *)

Module approval_requests.
Import approvals.

(** The check that [approve_approval] makes of the token of the request
    against a row that is not approved yet: the signed check when the row
    has a signature and an expiry, the comparison with the stored token
    when it has a token, none else. *)
Definition token_accepted (now : Z) (a : Approval) (payload_token : option string) : bool :=
  if truthy_str (sig a) && match sig_expires_at a with Some _ => true | None => false end
  then match payload_token with
       | Some tok =>
           negb (String.eqb tok "") &&
           security.verify_approval now tok (sig a) (sig_expires_at a)
       | None => false
       end
  else negb (truthy_str (token a)) || opt_str_eqb (token a) payload_token.

(** The rows that a request does not select. *)
Definition others {A : Type} (sel : A -> bool) (a : A) : bool := negb (sel a).

(** The two tables of [approve_approval] among those of [deny_approval]. *)
Definition gateway_state (db : database) : state :=
  {| approvals_table := approvals_rows db; audit_table := audit_rows db |}.

(** The audit entry of a decision on an approval. *)
Definition decision_entry (action user_email tenant approval_id : string) (a : Approval)
    (log : audit.AuditLog) : Prop :=
  audit.actor_type log = "user" /\ audit.actor_id log = user_email /\
  audit.tenant_id log = Some tenant /\ audit.action log = action /\
  audit.resource_type log = "approval" /\ audit.resource_id log = Some approval_id /\
  audit.payload log = Some (py.PDict [("run_id", py.PStr (run_id a));
                                      ("step_name", py.PStr (step_name a))]).

End approval_requests.

(** ** The controls of a run *)

Module run_control.
Import models runs.

(** The step is one of the run and it is not in a terminal state. *)
Definition open_step (id : string) (s : Step) : bool :=
  of_run id s && negb (_terminal (status s)).

(** The first approval of the step has not been given. *)
Definition awaits_approval (approvals_rows : list approvals.Approval) (id : string)
    (s : Step) : bool :=
  match find (for_step id (name s)) approvals_rows with
  | Some a => negb (approvals.approved a)
  | None => false
  end.

(** The step is one that [resume_run] resumes: a pending step of the run
    that awaits no approval. *)
Definition resumable (approvals_rows : list approvals.Approval) (id : string) (s : Step)
    : bool :=
  of_run id s && status_eqb (status s) PENDING &&
  negb (awaits_approval approvals_rows id s).

(** Two rows of the same step with the same work: they differ in the
    status and the two timestamps at most. *)
Definition same_work (s s' : Step) : Prop :=
  run_id s' = run_id s /\ name s' = name s /\ tool s' = tool s /\
  input s' = input s /\ output s' = output s /\ error s' = error s /\
  idempotency_key s' = idempotency_key s.

(** A cancelled step: skipped, ended at a reading of the clock, all else
    as it was. *)
Definition cancelled (utcnow : nat -> Z) (s s' : Step) : Prop :=
  status s' = SKIPPED /\ (exists n, ended_at s' = Some (utcnow n)) /\
  started_at s' = started_at s /\ same_work s s'.

(** A resumed step: succeeded, with a start and an end, those it had when
    it had them. *)
Definition completed (s s' : Step) : Prop :=
  status s' = SUCCEEDED /\ started_at s' <> None /\ ended_at s' <> None /\
  (forall t, started_at s = Some t -> started_at s' = Some t) /\
  (forall t, ended_at s = Some t -> ended_at s' = Some t) /\
  same_work s s'.

End run_control.

(** ** Approval tokens *)

Module signing.

(** The string holds no dot. *)
Definition dot_free (s : string) : Prop := ~ In "."%char (list_ascii_of_string s).

End signing.

(** ** Requests: who asks, and for which tenant and project *)

Module identity.

(** The request carries no credential that [_get_subject_identifiers]
    reads: no user, no group, and no API key id on a request
    authenticated by API key. *)
Definition no_credentials (st : request.State) : Prop :=
  truthy_str (request.user_email st) = false /\
  request.user_groups st = [] /\
  (request.authn st = Some "apikey" -> truthy_str (request.api_key_id st) = false).

(** The project row is the one of tenant [tenant] that the header names. *)
Definition names_project (req : request.Request) (tenant : string) (row : tenancy.Project.t)
    : Prop :=
  tenancy.Project.tenant_id row = tenant /\
  request.x_project req = Some (tenancy.Project.name row).

(** The tables after a resolution: at most one tenant and one project
    more, at the end. *)
Definition grown (db db' : tenancy.tables) : Prop :=
  exists new_tenants new_projects,
    tenancy.tenants db' = (tenancy.tenants db ++ new_tenants)%list /\
    tenancy.projects db' = (tenancy.projects db ++ new_projects)%list /\
    List.length new_tenants <= 1 /\ List.length new_projects <= 1.

End identity.

(* ===================================================================== *)
(** * Part III: example data                                              *)
(* ===================================================================== *)

Module demo.

(** Stand-ins for HMAC-SHA256 and SHA-256 to run the definitions on
    examples: a concatenation, and the length of the data. *)
Definition demo_hmac (key data : string) : string := key ++ "|" ++ data.

Definition demo_sha (data : string) : string :=
  py.str_of_Z (Z.of_nat (String.length data)).

Definition no_schema (tool input : py.value) : list string := [].

Definition demo_adapter (namespace : string) (call : activities.ToolCall)
    : outcome py.value := Ret (py.PDict [("output", py.PStr "ok")]).

(** An adapter that fails on [k8s.drain_node]. *)
Definition failing_adapter (namespace : string) (call : activities.ToolCall)
    : outcome py.value :=
  if String.eqb (activities.call_name call) "k8s.drain_node"
  then Raise "boom" else Ret (py.PDict []).

Definition demo_clock (n : nat) : Z := Z.of_nat n.

(** *** Audit *)

Definition demo_audit_table : audit.table :=
  audit.write_audit demo_hmac "k" "id-2" "user" "ana@example.com" (Some "acme")
    "test.action2" "test" (Some "2") None
    (audit.write_audit demo_hmac "k" "id-1" "user" "ana@example.com" (Some "acme")
       "test.action1" "test" (Some "1") None []).

(** *** Approvals *)

Definition demo_sig : string :=
  "5f2a9c0e77b1d4a86c3e5f2a9c0e77b1d4a86c3e5f2a9c0e77b1d4a86c3e0a1b".

Definition demo_approval : approvals.Approval :=
  {| approvals.id := "ap-1"; approvals.run_id := "run-1";
     approvals.tenant_id := "acme"; approvals.project_id := None;
     approvals.step_name := "drain-node"; approvals.approved := false;
     approvals.token := None;
     approvals.sig := Some demo_sig;
     approvals.sig_expires_at := Some 2000000%Z |}.

Definition demo_gateway : approvals.state :=
  {| approvals.approvals_table := [demo_approval]; approvals.audit_table := [] |}.

(** *** Role bindings *)

Definition demo_bindings : list rbac.RoleBinding :=
  [ {| rbac.tenant_id := "acme"; rbac.project_id := None;
       rbac.subject_type := "user"; rbac.subject_id := "sre@example.com";
       rbac.role := "SRE" |};
    {| rbac.tenant_id := "acme"; rbac.project_id := None;
       rbac.subject_type := "user"; rbac.subject_id := "oncall@example.com";
       rbac.role := "OnCall" |} ].

(** *** Policies and rules *)

Definition demo_policy : activities.Policy :=
  {| activities.tool_allowlist := [("SRE", ["pagerduty.ack"])];
     activities.preconditions := [];
     activities.max_tokens_per_run := None;
     activities.max_cost_per_run_usd := None |}.

Definition ack_step : py.dict :=
  [("name", py.PStr "ack"); ("tool", py.PStr "pagerduty.ack")].

Definition block_always : policy_engine.precondition :=
  {| policy_engine.when := "true"; policy_engine.then_ := "block";
     policy_engine.pstep := None |}.

Definition approve_in_prod : policy_engine.precondition :=
  {| policy_engine.when := "context.env == 'prod'";
     policy_engine.then_ := "require_approval";
     policy_engine.pstep := Some "drain-node" |}.

Definition block_in_prod : policy_engine.precondition :=
  {| policy_engine.when := "context.env == 'prod'";
     policy_engine.then_ := "block";
     policy_engine.pstep := Some "drain-node" |}.

Definition approve_admin_in_prod : policy_engine.precondition :=
  {| policy_engine.when := "context.env == 'prod' and context.caller == 'admin'";
     policy_engine.then_ := "require_approval";
     policy_engine.pstep := None |}.

Definition drain_node : py.dict :=
  [("name", py.PStr "drain-node"); ("tool", py.PStr "k8s.drain_node")].

Definition rollback : py.dict :=
  [("name", py.PStr "rollback"); ("tool", py.PStr "github.rollback_release")].

Definition minus_rule : policy_engine.precondition :=
  {| policy_engine.when := "context.retries - 1 == 0"; policy_engine.then_ := "block";
     policy_engine.pstep := None |}.

Definition drain_step : py.dict :=
  [("name", py.PStr "drain-node"); ("tool", py.PStr "k8s.drain_node");
   ("input", py.PDict [("node", py.PStr "n1")])].

Definition prod_context : py.dict := [("env", py.PStr "prod")].

(** A policy whose first rule always blocks and whose second asks for
    approval in production. *)
Definition block_then_approve : activities.Policy :=
  {| activities.tool_allowlist := [];
     activities.preconditions := [block_always; approve_in_prod];
     activities.max_tokens_per_run := None;
     activities.max_cost_per_run_usd := None |}.

(** A policy that asks for approval in production and whose allowlist
    has no entry for the role [Viewer]. *)
Definition approve_policy : activities.Policy :=
  {| activities.tool_allowlist := [("SRE", ["pagerduty.ack"])];
     activities.preconditions := [approve_in_prod];
     activities.max_tokens_per_run := None;
     activities.max_cost_per_run_usd := None |}.

Definition strict_schema (tool input : py.value) : list string :=
  ["'grace' is a required property"].

(** *** Steps *)

Definition succeeded_step : models.Step :=
  {| models.run_id := "run-1"; models.name := "ack"; models.tool := "pagerduty.ack";
     models.status := models.SUCCEEDED; models.input := None; models.output := None;
     models.error := None; models.idempotency_key := None;
     models.started_at := Some 10%Z; models.ended_at := Some 20%Z |}.

Definition status_only (v : string) : activities.fields :=
  {| activities.f_status := Some (activities.StatusStr v);
     activities.f_tool := None; activities.f_input := None;
     activities.f_output := None; activities.f_error := None;
     activities.f_idempotency_key := None; activities.f_started_at := None;
     activities.f_ended_at := None |}.

(** *** Runs *)

Definition step_s1 : py.dict :=
  [("name", py.PStr "s1"); ("tool", py.PStr "pagerduty.ack");
   ("input", py.PDict [("id", py.PStr "X")])].

Definition step_s2 : py.dict :=
  [("name", py.PStr "s2"); ("tool", py.PStr "k8s.drain_node");
   ("input", py.PDict [("node", py.PStr "n")])].

(** A step that declares a compensation. *)
Definition drain_with_compensation : py.dict :=
  [("name", py.PStr "drain"); ("tool", py.PStr "k8s.drain_node");
   ("input", py.PDict [("node", py.PStr "n")]);
   ("compensate", py.PDict [("tool", py.PStr "k8s.uncordon_node");
                            ("input", py.PDict [("node", py.PStr "n")])])].

Definition open_policy : activities.Policy :=
  {| activities.tool_allowlist := [];
     activities.preconditions := [];
     activities.max_tokens_per_run := None;
     activities.max_cost_per_run_usd := None |}.

Definition policy_50_tokens : activities.Policy :=
  {| activities.tool_allowlist := [];
     activities.preconditions := [];
     activities.max_tokens_per_run := Some 50%Z;
     activities.max_cost_per_run_usd := None |}.

Definition policy_cost_cap : activities.Policy :=
  {| activities.tool_allowlist := [];
     activities.preconditions := [];
     activities.max_tokens_per_run := None;
     activities.max_cost_per_run_usd := Some (1 # 100)%Q |}.

Definition ctx_of (steps : list py.dict) (policy : activities.Policy) : workflows.ctx :=
  {| workflows.ctx_run_id := "run-1";
     workflows.ctx_steps := steps;
     workflows.ctx_policy := policy;
     workflows.ctx_user_roles := ["Admin"];
     workflows.ctx_needs_approval := [];
     workflows.ctx_context := [] |}.

(** Scenario "budget exhausted": [max_tokens_per_run = 50] and a brain
    whose usage is 60 tokens. *)
Definition demo_ctx : workflows.ctx := ctx_of [step_s1; step_s2] policy_50_tokens.

Definition demo_brain : workflows.brain_result :=
  {| workflows.planned := [];
     workflows.brain_usage :=
       Some {| workflows.u_tokens_in := 40; workflows.u_tokens_out := 20;
               workflows.u_latency_ms := 5; workflows.u_cost_usd := (1%Z, 2%nat) |} |}.

Definition no_brain : workflows.brain_result :=
  {| workflows.planned := []; workflows.brain_usage := None |}.

Definition demo_run (c : workflows.ctx) (brain : workflows.brain_result) (mode : string) :=
  workflows.run no_schema demo_sha demo_adapter (fun _ => true) brain demo_clock 100
    c mode.

(** An engine that has used 60 tokens. *)
Definition spent_engine : workflows.engine :=
  {| workflows.trace := [];
     workflows.run_totals :=
       {| workflows.tokens_in := 40; workflows.tokens_out := 20;
          workflows.latency_ms := 5; workflows.cost_usd := 1 # 100 |} |}.

Definition fresh_engine : workflows.engine :=
  {| workflows.trace := []; workflows.run_totals := workflows.totals0 |}.

(** *** Arguments *)

Definition args_one_order : py.value :=
  py.PDict [("node", py.PStr "n1"); ("grace", py.PInt 30);
            ("opts", py.PDict [("force", py.PBool true); ("dry", py.PNone)])].

Definition args_other_order : py.value :=
  py.PDict [("opts", py.PDict [("dry", py.PNone); ("force", py.PBool true)]);
            ("grace", py.PInt 30); ("node", py.PStr "n1")].

(** *** Shadow runs *)

Definition shadow_step (name tool : string) (input : py.value) (t : Z) : models.Step :=
  {| models.run_id := "run-1"; models.name := name; models.tool := tool;
     models.status := models.SUCCEEDED; models.input := Some input;
     models.output := None; models.error := None; models.idempotency_key := None;
     models.started_at := Some t; models.ended_at := Some (t + 1)%Z |}.

Definition shadow_expected : list py.value :=
  [ py.PDict [("name", py.PStr "s1"); ("tool", py.PStr "pagerduty.ack");
              ("input", py.PDict [("id", py.PStr "X")])];
    py.PDict [("name", py.PStr "s2"); ("tool", py.PStr "k8s.drain_node");
              ("input", py.PDict [("node", py.PStr "n")])] ].

(** Two steps; the tools agree on [s1] only, the inputs agree on [s1]
    only, both are in the expected position. *)
Definition shadow_steps : list models.Step :=
  [ shadow_step "s1" "pagerduty.ack" (py.PDict [("id", py.PStr "X")]) 1;
    shadow_step "s2" "k8s.cordon_node" (py.PDict [("node", py.PStr "m")]) 3 ].

(** The actual steps of the specification's scenario 8: the second step
    has another tool and the expected input. *)
Definition scenario8_steps : list models.Step :=
  [ shadow_step "s1" "pagerduty.ack" (py.PDict [("id", py.PStr "X")]) 1;
    shadow_step "s2" "k8s.cordon_node" (py.PDict [("node", py.PStr "n")]) 3 ].

Definition empty_shadow : activities.shadow :=
  {| activities.shadow_step_compare := []; activities.match_score := 0;
     activities.policy_violations := 0; activities.shadow_tool_matches := 0;
     activities.shadow_args_matches := 0; activities.shadow_order_matches := 0;
     activities.shadow_total_steps := 0 |}.

Definition shadow_of (steps : list models.Step) (expected : list py.value)
    : activities.shadow :=
  match activities.compute_shadow steps expected with
  | Ret sh => sh
  | Raise _ => empty_shadow
  end.

(** *** Requests, tenants and denials *)

(** A stand-in for the digest of the signature: one fixed digest. *)
Definition demo_digest (key data : string) : string := demo_sig.

Definition demo_isoformat (t : Z) : string := py.str_of_Z t.

Definition viewer_bindings : list rbac.RoleBinding :=
  [ {| rbac.tenant_id := "acme"; rbac.project_id := None;
       rbac.subject_type := "user"; rbac.subject_id := "vi@example.com";
       rbac.role := "Viewer" |} ].

Definition demo_run_row : models.Run.t :=
  {| models.Run.id := "run-1"; models.Run.runbook_id := "rb-1";
     models.Run.tenant_id := "acme"; models.Run.project_id := None;
     models.Run.status := models.RunStatus.RUNNING; models.Run.metrics := [] |}.

Definition pending_drain : models.Step :=
  {| models.run_id := "run-1"; models.name := "drain-node"; models.tool := "k8s.drain_node";
     models.status := models.PENDING; models.input := None; models.output := None;
     models.error := None; models.idempotency_key := None;
     models.started_at := None; models.ended_at := None |}.

Definition demo_database : approvals.database :=
  {| approvals.approvals_rows := [demo_approval];
     approvals.runs_rows := [demo_run_row];
     approvals.steps_rows := [pending_drain];
     approvals.audit_rows := [] |}.

(** A request with a session user, no tenant attached yet, and the header
    [X-Project: payments]. *)
Definition demo_request : request.Request :=
  {| request.state :=
       {| request.tenant_id := None; request.project_id := None;
          request.user_email := Some "ana@example.com"; request.user_groups := [];
          request.authn := Some "session"; request.api_key_id := None |};
     request.x_project := Some "payments" |}.

Definition no_tables : tenancy.tables :=
  {| tenancy.tenants := []; tenancy.projects := [] |}.

(** A running run with a succeeded step, a running step, a pending step
    that waits for the approval [ap-1] and a pending step with none. *)
Definition demo_runs : runs.database :=
  {| runs.runs_table := [demo_run_row];
     runs.steps_table :=
       [ succeeded_step;
         {| models.run_id := "run-1"; models.name := "page"; models.tool := "pagerduty.page";
            models.status := models.RUNNING; models.input := None; models.output := None;
            models.error := None; models.idempotency_key := None;
            models.started_at := Some 30%Z; models.ended_at := None |};
         pending_drain;
         {| models.run_id := "run-1"; models.name := "notify"; models.tool := "slack.post";
            models.status := models.PENDING; models.input := None; models.output := None;
            models.error := None; models.idempotency_key := None;
            models.started_at := None; models.ended_at := None |} ];
     runs.approvals_table := [demo_approval];
     runs.audit_table := [] |}.

End demo.
(* ===================================================================== *)
(** * Part IV: the properties                                             *)
(* ===================================================================== *)

Import audit_chain authz rules gate step_state budget score canonical demo.

(** ** The audit chain *)

Section AuditChain.
Import audit.

Variable hmac_sha256 : string -> string -> string.
Variable secret : string.

Local Abbreviation chain_hash := (audit_chain.chain_hash hmac_sha256 secret).
Local Abbreviation hashes_ok := (audit_chain.hashes_ok hmac_sha256 secret).
Local Abbreviation written := (audit_chain.written hmac_sha256 secret).

Lemma hmac_hash_chain_hash prev log :
  security.hmac_hash hmac_sha256 secret prev (record_of_log log) = chain_hash prev log.
Proof.
  unfold security.hmac_hash, audit_chain.chain_hash.
  destruct prev as [p|]; simpl; [|reflexivity].
  destruct (String.eqb_spec p ""); simpl; [subst|]; reflexivity.
Qed.

Lemma latest_last_hash logs : forall d,
  match List.last (map Some logs) d with
  | Some prev => Some (hash prev)
  | None => None
  end = last_hash (option_map hash d) logs.
Proof.
  induction logs as [|l logs IH]; intros d.
  - destruct d; reflexivity.
  - destruct logs as [|l' logs']; [reflexivity|].
    change (last (map Some (l :: l' :: logs')) d)
      with (last (map Some (l' :: logs')) d).
    rewrite IH. reflexivity.
Qed.

Lemma hashes_ok_app prev logs log :
  hashes_ok prev logs ->
  hash log = chain_hash (last_hash prev logs) log ->
  hashes_ok prev (logs ++ [log]).
Proof.
  revert prev. induction logs as [|l logs IH]; intros prev Hok Hlog; simpl in *.
  - split; [exact Hlog | exact I].
  - destruct Hok as [Hl Hrest]. split; [exact Hl|].
    apply IH; [exact Hrest | exact Hlog].
Qed.

Lemma links_ok_app prev logs log :
  links_ok prev logs ->
  prev_hash log = last_hash prev logs ->
  links_ok prev (logs ++ [log]).
Proof.
  revert prev. induction logs as [|l logs IH]; intros prev Hok Hlog; simpl in *.
  - split; [exact Hlog | exact I].
  - destruct Hok as [Hl Hrest]. split; [exact Hl|].
    apply IH; [exact Hrest | exact Hlog].
Qed.

Lemma truthy_str_Some t : t <> "" -> truthy_str (Some t) = true.
Proof.
  intros H. simpl. destruct (String.eqb_spec t ""); [contradiction|reflexivity].
Qed.

Lemma of_tenant_other t tenant_id' log :
  tenant_id log = tenant_id' -> tenant_id' <> Some t -> of_tenant t log = false.
Proof.
  intros Ht Hne. unfold of_tenant. rewrite Ht.
  destruct tenant_id' as [t'|]; simpl; [|reflexivity].
  destruct (String.eqb_spec t' t); [subst; contradiction|reflexivity].
Qed.

Lemma of_tenant_same t log : tenant_id log = Some t -> of_tenant t log = true.
Proof.
  intros H. unfold of_tenant. rewrite H. simpl. apply String.eqb_refl.
Qed.

(** What one append does to the chain of a tenant. *)
Lemma write_audit_chain db t new_id actor_type actor_id tenant_id action
      resource_type resource_id payload :
  t <> "" ->
  let db' := write_audit hmac_sha256 secret new_id actor_type actor_id tenant_id
                         action resource_type resource_id payload db in
  (tenant_id <> Some t -> chain t db' = chain t db) /\
  (tenant_id = Some t ->
   exists log, chain t db' = (chain t db ++ [log])%list /\
               prev_hash log = last_hash None (chain t db) /\
               hash log = chain_hash (prev_hash log) log).
Proof.
  intros Ht db'. subst db'. unfold write_audit, chain.
  rewrite filter_app. simpl. split.
  - intros Hne.
    rewrite (of_tenant_other t tenant_id); [apply app_nil_r|reflexivity|exact Hne].
  - intros ->. rewrite (truthy_str_Some t Ht).
    rewrite of_tenant_same by reflexivity.
    eexists. split; [reflexivity|]. simpl. split.
    + unfold latest. apply (latest_last_hash (filter (of_tenant t) db) None).
    + rewrite <- hmac_hash_chain_hash. reflexivity.
Qed.

(** The invariant of the chain: every table that appends have built has,
    for every tenant, a chain whose hashes and links are right. *)
Lemma written_chain_ok db t :
  written db -> t <> "" ->
  hashes_ok None (chain t db) /\ links_ok None (chain t db).
Proof.
  intros Hw Ht. induction Hw as [|db new_id at_ ai ti ac rt ri pl Hw [IHh IHl]].
  - simpl. split; exact I.
  - destruct (write_audit_chain db t new_id at_ ai ti ac rt ri pl Ht) as [Hother Hsame].
    destruct ti as [t'|].
    + destruct (string_dec t' t) as [->|Hne].
      * destruct (Hsame eq_refl) as [log [Heq [Hprev Hhash]]].
        rewrite Heq. split.
        -- apply hashes_ok_app; [exact IHh|]. rewrite <- Hprev. exact Hhash.
        -- apply links_ok_app; [exact IHl | exact Hprev].
      * rewrite Hother; [split; assumption|]. intros H; inversion H; contradiction.
    + rewrite Hother; [split; assumption | discriminate].
Qed.

(** [verify_from] accepts exactly the chains whose hashes are right ... *)
Lemma verify_from_ok logs : forall idx prev total,
  hashes_ok prev logs ->
  verify_from hmac_sha256 secret idx prev logs total = VerifyOk total.
Proof.
  induction logs as [|log rest IH]; intros idx prev total Hok; simpl in *.
  - reflexivity.
  - destruct Hok as [Hh Hrest].
    rewrite hmac_hash_chain_hash, <- Hh, String.eqb_refl. simpl.
    apply IH. exact Hrest.
Qed.

(** ... and stops at the first entry whose hash is not. *)
Lemma verify_from_broken pre : forall idx prev log post total,
  hashes_ok prev pre ->
  hash log <> chain_hash (last_hash prev pre) log ->
  verify_from hmac_sha256 secret idx prev (pre ++ log :: post) total =
  VerifyBroken (idx + List.length pre) (id log)
               (chain_hash (last_hash prev pre) log) (hash log).
Proof.
  induction pre as [|l pre IH]; intros idx prev log post total Hok Hbad; simpl in *.
  - rewrite hmac_hash_chain_hash.
    destruct (String.eqb_spec (hash log) (chain_hash prev log)); [contradiction|].
    simpl. rewrite Nat.add_0_r. reflexivity.
  - destruct Hok as [Hh Hrest].
    rewrite hmac_hash_chain_hash, <- Hh, String.eqb_refl. simpl.
    rewrite (IH (S idx) (Some (hash l)) log post total Hrest Hbad).
    f_equal. lia.
Qed.

Lemma hashes_ok_prefix pre : forall prev post,
  hashes_ok prev (pre ++ post) -> hashes_ok prev pre /\ hashes_ok (last_hash prev pre) post.
Proof.
  induction pre as [|l pre IH]; intros prev post H; simpl in *.
  - split; [exact I | exact H].
  - destruct H as [Hl Hrest]. destruct (IH _ _ Hrest) as [Hpre Hpost].
    repeat split; assumption.
Qed.


End AuditChain.


(** The case of gateway/tests/test_security.py: the first row has no
    [prev_hash], the second points to the first, every row has a hash. *)
Example test_audit_chain_verification :
  map audit.prev_hash demo_audit_table
  = [None; option_map audit.hash (hd_error demo_audit_table)] /\
  forallb (fun log => negb (String.eqb (audit.hash log) "")) demo_audit_table = true.
Proof. split; vm_compute; reflexivity. Qed.

(** The second row of the example table with a changed payload is
    reported at index 1. *)
Example audit_tamper_detected :
  forall log1 log2,
    demo_audit_table = [log1; log2] ->
    audit.verify_audit_chain demo_hmac "k" (Some "acme")
      [log1; with_payload log2 (Some (py.PDict [("x", py.PInt 1)]))]
    = audit.VerifyBroken 1 "id-2"
        (chain_hash demo_hmac "k" (Some (audit.hash log1))
           (with_payload log2 (Some (py.PDict [("x", py.PInt 1)]))))
        (audit.hash log2).
Proof.
  intros log1 log2 H. vm_compute in H. injection H as <- <-. vm_compute. reflexivity.
Qed.

(** ** Approvals *)

Section Approve.
Import approvals.

Variable hmac_sha256 : string -> string -> string.
Variable secret : string.

Let approve := approve_approval hmac_sha256 secret.

(** The answer of [verify_approval] does not depend on which signature
    is stored, as long as one is. *)
Lemma verify_approval_ignores_sig now token sig1 sig2 expires_at :
  sig1 <> "" -> sig2 <> "" ->
  security.verify_approval now token (Some sig1) expires_at
  = security.verify_approval now token (Some sig2) expires_at.
Proof.
  intros H1 H2. unfold security.verify_approval.
  destruct expires_at as [exp|]; [|reflexivity].
  destruct (exp <? now)%Z; [reflexivity|].
  destruct (negb (Nat.eqb (List.length (split_on "."%char token)) 2)); [reflexivity|].
  destruct sig1; [contradiction|]. destruct sig2; [contradiction|]. reflexivity.
Qed.

(** An approved row is left as it is. *)
Lemma approve_already_approved now audit_id email tenant project approval_id token st a :
  find (selected approval_id tenant project) (approvals_table st) = Some a ->
  approved a = true ->
  approve now audit_id email tenant project approval_id token st
  = (Ok200 AlreadyApproved, st).
Proof.
  intros Hf Ha. unfold approve, approve_approval. rewrite Hf, Ha. reflexivity.
Qed.

(** A row whose signature has expired is refused and left as it is. *)
Lemma approve_expired now audit_id email tenant project approval_id token st a s exp :
  find (selected approval_id tenant project) (approvals_table st) = Some a ->
  approved a = false ->
  sig a = Some s -> s <> "" ->
  sig_expires_at a = Some exp ->
  (exp < now)%Z ->
  exists status detail,
    approve now audit_id email tenant project approval_id token st
    = (HTTPException status detail, st).
Proof.
  intros Hf Ha Hs Hne He Hlt. unfold approve, approve_approval.
  rewrite Hf, Ha, Hs, He. simpl.
  destruct (String.eqb_spec s ""); [contradiction|]. simpl.
  destruct token as [tok|]; simpl.
  - destruct (String.eqb tok ""); simpl; [eauto|].
    unfold security.verify_approval.
    destruct (Z.ltb_spec exp now); [|lia]. simpl. eauto.
  - eauto.
Qed.

End Approve.

(** C2 (the code departs from the claim). [sign_approval] hands out the
    token [nonce + "." + sig[:16]].  Before the expiry, a token whose
    second part is not the first 16 characters of the stored [sig] is
    accepted all the same: [verify_approval] looks only at the number of
    dots of the token, and the row becomes approved. *)
Theorem C2_mismatched_token_is_accepted :
  String.substring 0 16 demo_sig <> "0000000000000000" /\
  security.verify_approval 1000000%Z "forged.0000000000000000"
    (approvals.sig demo_approval) (approvals.sig_expires_at demo_approval) = true /\
  let '(resp, st') :=
    approvals.approve_approval demo_hmac "k" 1000000%Z "audit-1" "eve@example.com"
      "acme" None "ap-1" (Some "forged.0000000000000000") demo_gateway in
  resp = approvals.Ok200 (approvals.Approved "ap-1") /\
  map approvals.approved (approvals.approvals_table st') = [true].
Proof.
  split; [discriminate|]. split; [reflexivity|]. vm_compute. split; reflexivity.
Qed.

(** The expiry check does hold: one millisecond past [sig_expires_at] the
    same request, even with the token that was handed out, is refused. *)
Example approve_one_ms_late :
  approvals.approve_approval demo_hmac "k" (2000000 + 1000)%Z "audit-1" "ana@example.com"
    "acme" None "ap-1" (Some "nonce.5f2a9c0e77b1d4a8") demo_gateway
  = (approvals.HTTPException 403 "invalid or expired token", demo_gateway).
Proof. vm_compute. reflexivity. Qed.

(** ** Authorization *)

Section Authorize.
Import rbac.

Variable action resource : string.
Variable tenant : string.
Variable project : option string.
Variable db : list RoleBinding.

Let perm (r : string) : bool := _check_permission r action resource.

Local Abbreviation bound := (authz.bound tenant project db).
Local Abbreviation holds := (authz.holds tenant project db).
Local Abbreviation inv := (authz.inv perm).

Lemma mem_In x l : mem x l = true <-> In x l.
Proof.
  unfold mem. rewrite existsb_exists. split.
  - intros [y [Hy E]]. apply String.eqb_eq in E. subst. exact Hy.
  - intros H. exists x. split; [exact H | apply String.eqb_refl].
Qed.

Lemma project_bindings_In p s b :
  In b (project_bindings tenant p s db) <->
  In b db /\ tenant_id b = tenant /\ project_id b = Some p /\
  (subject_type b, subject_id b) = s.
Proof.
  unfold project_bindings. rewrite filter_In, !andb_true_iff, !String.eqb_eq.
  destruct s as [st si]. simpl.
  destruct (project_id b) as [q|]; simpl.
  - rewrite String.eqb_eq. split.
    + intros [H [[[H1 H2] H3] H4]]. subst. auto.
    + intros [H [H1 [H2 H3]]]. inversion H2. inversion H3. subst. auto.
  - split.
    + intros [_ [[[_ H] _] _]]. discriminate.
    + intros [_ [_ [H _]]]. discriminate.
Qed.

Lemma tenant_bindings_In s b :
  In b (tenant_bindings tenant s db) <->
  In b db /\ tenant_id b = tenant /\ project_id b = None /\
  (subject_type b, subject_id b) = s.
Proof.
  unfold tenant_bindings. rewrite filter_In, !andb_true_iff, !String.eqb_eq.
  destruct s as [st si]. simpl.
  destruct (project_id b) as [q|]; simpl.
  - split.
    + intros [_ [[[_ H] _] _]]. discriminate.
    + intros [_ [_ [H _]]]. discriminate.
  - split.
    + intros [H [[[H1 _] H3] H4]]. subst. auto.
    + intros [H [H1 [_ H3]]]. inversion H3. subst. auto.
Qed.

Lemma check_bindings_inv bindings : forall seen st,
  inv seen st -> fst st = false ->
  inv (fun b => seen b \/ In b bindings) (check_bindings action resource bindings st).
Proof.
  induction bindings as [|b rest IH]; intros seen [allowed rc] Hinv Hf; simpl in *.
  - destruct Hinv as [H1 [H2 H3]]. repeat split; simpl.
    + exact H1.
    + intros r Hr. destruct (H2 r Hr) as [b [Hb E]]. exists b. auto.
    + intros Ha b [Hb|[]]. apply H3; assumption.
  - subst allowed. destruct Hinv as [H1 [H2 H3]]. simpl in *.
    assert (Hext : forall P : RoleBinding -> Prop,
               (forall x, P x <-> (seen x \/ b = x \/ In x rest)) ->
               forall st, inv P st -> inv (fun x => seen x \/ b = x \/ In x rest) st).
    { intros P HP st [A [B C]]. repeat split.
      - exact A.
      - intros r Hr. destruct (B r Hr) as [x [Hx E]]. exists x. split; [apply HP; exact Hx|exact E].
      - intros Hfa x Hx. apply C; [exact Hfa | apply HP; exact Hx]. }
    destruct (mem (role b) rc) eqn:Hmem; simpl.
    + apply (Hext (fun x => (seen x \/ x = b) \/ In x rest)).
      { intros x. intuition (subst; auto). }
      apply IH; [|reflexivity]. repeat split; simpl.
      * exact H1.
      * intros r Hr. destruct (H2 r Hr) as [x [Hx E]]. exists x. auto.
      * intros _ x [Hx| ->]; [apply H3; auto|]. apply mem_In. exact Hmem.
    + fold (perm (role b)). destruct (perm (role b)) eqn:Hp.
      * repeat split; simpl.
        -- rewrite Hp. reflexivity.
        -- intros r [<-|Hr]; [exists b; auto|].
           destruct (H2 r Hr) as [x [Hx E]]. exists x. auto.
        -- discriminate.
      * apply (Hext (fun x => (seen x \/ x = b) \/ In x rest)).
        { intros x. intuition (subst; auto). }
        apply IH; [|reflexivity]. repeat split; simpl.
        -- rewrite Hp. simpl. exact H1.
        -- intros r [<-|Hr]; [exists b; auto|].
           destruct (H2 r Hr) as [x [Hx E]]. exists x. auto.
        -- intros _ x [Hx| ->]; [right; apply H3; auto | left; reflexivity].
Qed.

Lemma inv_ext (P Q : RoleBinding -> Prop) st :
  (forall x, P x <-> Q x) -> inv P st -> inv Q st.
Proof.
  intros HPQ [A [B C]]. repeat split.
  - exact A.
  - intros r Hr. destruct (B r Hr) as [x [Hx E]]. exists x. split; [apply HPQ; exact Hx|exact E].
  - intros Hfa x Hx. apply C; [exact Hfa | apply HPQ; exact Hx].
Qed.

Lemma inv_allowed (P Q : RoleBinding -> Prop) st :
  (forall x, P x -> Q x) -> fst st = true -> inv P st -> inv Q st.
Proof.
  intros HPQ Ht [A [B C]]. repeat split.
  - exact A.
  - intros r Hr. destruct (B r Hr) as [x [Hx E]]. exists x. split; [apply HPQ; exact Hx|exact E].
  - rewrite Ht. discriminate.
Qed.

Lemma check_subjects_inv subjects : forall seen st,
  inv seen st -> fst st = false ->
  inv (fun b => seen b \/ exists s, In s subjects /\ bound s b)
      (check_subjects action resource tenant project db subjects st).
Proof.
  induction subjects as [|s rest IH]; intros seen st Hinv Hf.
  - simpl. apply (inv_ext seen); [|exact Hinv].
    intros x. split; [auto|]. intros [H|[s [[] _]]]. exact H.
  - cbn [check_subjects].
    set (st1 := if truthy_str project then _ else st).
    assert (H1 : inv (fun b => seen b \/
                        (truthy_str project = true /\
                         exists p, project = Some p /\ In b (project_bindings tenant p s db)))
                     st1).
    { subst st1. destruct (truthy_str project) eqn:Htp.
      - destruct project as [p|]; [|discriminate].
        apply (inv_ext (fun b => seen b \/ In b (project_bindings tenant p s db))).
        + intros x. split; [intros [H|H]; eauto|].
          intros [H|[_ [p' [E H]]]]; [auto|]. inversion E; subst. auto.
        + apply check_bindings_inv; assumption.
      - apply (inv_ext seen); [|exact Hinv].
        intros x. split; [auto|]. intros [H|[H _]]; [exact H|discriminate]. }
    set (seen1 := fun b => seen b \/ _) in H1.
    set (st2 := if negb (fst st1) then _ else st1).
    assert (H2 : inv (fun b => seen b \/ (fst st1 = false /\ In b (tenant_bindings tenant s db))
                               \/ (truthy_str project = true /\
                                   exists p, project = Some p /\
                                             In b (project_bindings tenant p s db)))
                     st2).
    { subst st2. destruct (fst st1) eqn:Hst1; simpl.
      - apply (inv_allowed seen1); [|exact Hst1|exact H1].
        subst seen1. simpl. intros x [H|H]; auto.
      - apply (inv_ext (fun b => seen1 b \/ In b (tenant_bindings tenant s db))).
        + subst seen1. simpl. intros x. intuition.
        + apply check_bindings_inv; assumption. }
    assert (Hsub : forall x,
               (seen x \/ (fst st1 = false /\ In x (tenant_bindings tenant s db))
                \/ (truthy_str project = true /\
                    exists p, project = Some p /\ In x (project_bindings tenant p s db)))
               -> seen x \/ exists s', In s' (s :: rest) /\ bound s' x).
    { intros x [H|[[_ H]|[Htp [p [E H]]]]]; [auto| |].
      - right. exists s. split; [left; reflexivity|].
        apply tenant_bindings_In in H. destruct H as [A [B [C D]]].
        repeat split; auto.
      - right. exists s. split; [left; reflexivity|].
        apply project_bindings_In in H. destruct H as [A [B [C D]]].
        repeat split; auto. right. split; [exact Htp|]. rewrite C, E. reflexivity. }
    destruct (fst st2) eqn:Hst2.
    + apply (inv_allowed _ _ st2 Hsub Hst2 H2).
    + assert (Hst1 : fst st1 = false).
      { subst st2. destruct (fst st1) eqn:E; simpl in *; [|reflexivity].
        rewrite E in Hst2. discriminate. }
      eapply inv_ext; [|apply (IH _ st2 H2 Hst2)].
      intros x. split.
      * intros [H|[s' [Hs' Hb]]]; [apply Hsub; exact H|].
        right. exists s'. split; [right; exact Hs'|exact Hb].
      * intros [H|[s' [[<-|Hs'] Hb]]]; [auto| |].
        -- left. destruct Hb as [A [B [C [D|[Htp D]]]]].
           ++ right. left. split; [exact Hst1|]. apply tenant_bindings_In. auto.
           ++ right. right. split; [exact Htp|].
              destruct project as [p|]; [|discriminate].
              exists p. split; [reflexivity|]. apply project_bindings_In. auto.
        -- right. exists s'. auto.
Qed.

(** The loops grant exactly when a held role has the permission. *)
Lemma check_subjects_spec subjects :
  let st := check_subjects action resource tenant project db subjects (false, []) in
  (fst st = true <-> exists r, holds subjects r /\ perm r = true) /\
  (forall r, In r (snd st) -> holds subjects r).
Proof.
  intros st.
  assert (H0 : inv (fun _ => False) (false, [])).
  { repeat split; simpl; [intros r []|intros _ b []]. }
  pose proof (check_subjects_inv subjects _ _ H0 eq_refl) as [A [B C]].
  fold st in A, B, C. split; [split|].
  - intros Ht. rewrite A in Ht. apply existsb_exists in Ht.
    destruct Ht as [r [Hr Hp]]. exists r. split; [|exact Hp].
    destruct (B r Hr) as [b [[[]|[s [Hs Hb]]] E]]. exists s, b. auto.
  - intros [r [[s [b [Hs [Hb E]]]] Hp]].
    destruct (fst st) eqn:Hst; [reflexivity|].
    assert (Hin : In (role b) (snd st)) by (apply C; [reflexivity|right; eauto]).
    rewrite A in Hst.
    assert (existsb perm (snd st) = true).
    { apply existsb_exists. exists (role b). split; [exact Hin | rewrite E; exact Hp]. }
    congruence.
  - intros r Hr. destruct (B r Hr) as [b [[[]|[s [Hs Hb]]] E]]. exists s, b. auto.
Qed.

End Authorize.

(** Which roles the matrix lets approve. *)
Lemma approve_permission r :
  rbac._check_permission r "approve" "approval" = true <-> r = "Admin" \/ r = "OnCall".
Proof.
  unfold rbac._check_permission.
  destruct (String.eqb_spec r "Admin") as [->|H1]; [intuition|].
  unfold py.get_default, rbac.PERMISSIONS. cbn [py.lookup].
  destruct (String.eqb_spec r "Admin") as [|_]; [contradiction|].
  destruct (String.eqb_spec r "SRE") as [->|H2]; [simpl; intuition discriminate|].
  destruct (String.eqb_spec r "OnCall") as [->|H3]; [simpl; intuition|].
  destruct (String.eqb_spec r "Viewer") as [->|H4]; simpl; intuition discriminate.
Qed.

(** C3. [authorize("approve", "approval")] lets a request through exactly
    when it is authenticated and the subject holds role Admin, or role
    OnCall, or both SRE and OnCall; a subject that holds no role but SRE
    is refused with 403. *)
Theorem C3_approve_approval_iff (tenant : string) (project : option string)
    (subjects : list rbac.subject) (db : list rbac.RoleBinding) :
  (rbac.authorize "approve" "approval" tenant project subjects db = Ret tt <->
   subjects <> [] /\
   (holds tenant project db subjects "Admin" \/
    holds tenant project db subjects "OnCall" \/
    (holds tenant project db subjects "SRE" /\
     holds tenant project db subjects "OnCall"))) /\
  (subjects <> [] ->
   (forall r, holds tenant project db subjects r -> r = "SRE") ->
   rbac.authorize "approve" "approval" tenant project subjects db
   = Raise "403 permission denied: approve on approval").
Proof.
  assert (Hmain :
    rbac.authorize "approve" "approval" tenant project subjects db = Ret tt <->
    subjects <> [] /\
    (holds tenant project db subjects "Admin" \/
     holds tenant project db subjects "OnCall")).
  { unfold rbac.authorize.
    destruct subjects as [|s0 rest] eqn:Hsub.
    { split; [discriminate|]. intros [H _]. contradiction. }
    rewrite <- Hsub.
    pose proof (check_subjects_spec "approve" "approval" tenant project db subjects)
      as [Hallowed Hrc].
    destruct (rbac.check_subjects "approve" "approval" tenant project db subjects (false, []))
      as [allowed rc] eqn:Hcs.
    simpl in Hallowed, Hrc. simpl.
    assert (Hgrant : allowed = true <->
                     holds tenant project db subjects "Admin" \/
                     holds tenant project db subjects "OnCall").
    { rewrite Hallowed. split.
      - intros [r [Hr Hp]]. apply approve_permission in Hp.
        destruct Hp as [-> | ->]; auto.
      - intros [H|H]; eexists; (split; [exact H|]); reflexivity. }
    assert (Hspecial : rbac.mem "SRE" rc && rbac.mem "OnCall" rc = true -> allowed = true).
    { intros H. apply andb_true_iff in H. destruct H as [_ H].
      apply Hgrant. right. apply Hrc. apply (mem_In "OnCall" rc). exact H. }
    destruct (rbac.mem "SRE" rc && rbac.mem "OnCall" rc) eqn:Hsp.
    - rewrite (Hspecial eq_refl) in Hgrant. simpl. split.
      + intros _. split; [rewrite Hsub; discriminate | apply Hgrant; reflexivity].
      + reflexivity.
    - destruct allowed; simpl.
      + split; [|reflexivity]. intros _.
        split; [rewrite Hsub; discriminate | apply Hgrant; reflexivity].
      + split; [discriminate|]. intros [_ H]. apply Hgrant in H. discriminate. }
  split.
  - rewrite Hmain. intuition.
  - intros Hne Honly.
    assert (Hno : rbac.authorize "approve" "approval" tenant project subjects db <> Ret tt).
    { intros Hauth. apply Hmain in Hauth.
      destruct Hauth as [_ [H|H]]; apply Honly in H; discriminate. }
    revert Hno. unfold rbac.authorize.
    destruct subjects; [contradiction|].
    destruct (rbac.check_subjects _ _ _ _ _ _ _) as [allowed rc]. simpl.
    destruct (rbac.mem "SRE" rc && rbac.mem "OnCall" rc); simpl;
      [intros H; contradiction H; reflexivity|].
    destruct allowed; simpl; [intros H; contradiction H; reflexivity|].
    reflexivity.
Qed.

Lemma C3_approve_approval_iff_witness :
  [("user", "sre@example.com")] <> [] /\
  rbac.authorize "approve" "approval" "acme" None [("user", "sre@example.com")]
    demo_bindings
  = Raise "403 permission denied: approve on approval".
Proof.
  assert (Hne : [("user", "sre@example.com")] <> ([] : list rbac.subject)) by discriminate.
  split; [exact Hne|].
  apply (proj2 (C3_approve_approval_iff "acme" None [("user", "sre@example.com")]
                  demo_bindings) Hne).
  intros r [s [b [Hs [[Hb [_ [Hsub _]]] Hr]]]].
  destruct Hs as [<-|[]].
  destruct Hb as [<-|[<-|[]]]; simpl in *; [symmetry; exact Hr | discriminate].
Defined.

(** ** The precondition language *)

Section Preconditions.
Import policy_engine.

(** *** Termination of [_eval_expr] *)

Lemma scan_parens_bounds tokens : forall i lvl ps ps' i',
  scan_parens tokens i lvl ps = Group ps' i' ->
  ((1 <= lvl)%Z -> ps < i) ->
  ps' < i' /\ i <= i' < i + List.length tokens.
Proof.
  induction tokens as [|tok rest IH]; intros i lvl ps ps' i' H Hps; simpl in *.
  - discriminate.
  - destruct (String.eqb tok "(").
    + apply IH in H.
      * destruct H as [A B]. split; [exact A | lia].
      * intros Hl. destruct (Z.eqb_spec lvl 0); [lia|].
        assert (ps < i) by (apply Hps; lia). lia.
    + destruct (String.eqb tok ")").
      * destruct (Z.eqb_spec (lvl - 1) 0) as [E|E].
        -- inversion H; subst. split; [apply Hps; lia | lia].
        -- apply IH in H.
           ++ destruct H as [A B]. split; [exact A | lia].
           ++ intros Hl. assert (ps < i) by (apply Hps; lia). lia.
      * apply IH in H.
        -- destruct H as [A B]. split; [exact A | lia].
        -- intros Hl. assert (ps < i) by (apply Hps; lia). lia.
Qed.

Lemma first_op_bounds tokens : forall k i j op,
  first_op tokens i k = Some (j, op) -> i <= j < i + k.
Proof.
  induction k as [|k IH]; intros i j op H; simpl in H.
  - discriminate.
  - destruct (op_at tokens i).
    + inversion H; subst. lia.
    + apply IH in H. lia.
Qed.

Lemma op_at_not_last tokens i :
  (op_at tokens i = Some OpNotIn \/ op_at tokens i = Some OpIn) ->
  i < List.length tokens - 1.
Proof.
  unfold op_at.
  destruct (String.eqb (nth i tokens "") "=="); [intros [H|H]; discriminate|].
  destruct (String.eqb (nth i tokens "") "!="); [intros [H|H]; discriminate|].
  destruct (Nat.ltb_spec i (List.length tokens - 1)) as [Hlt|Hge]; simpl.
  - intros _. exact Hlt.
  - intros [H|H]; discriminate.
Qed.

Lemma reduce_comparisons_terminates context step : forall fuel tokens,
  List.length tokens < fuel ->
  reduce_comparisons fuel tokens context step <> Unfinished.
Proof.
  induction fuel as [|fuel IH]; intros tokens Hlen; [lia|].
  cbn [reduce_comparisons].
  destruct (first_op tokens 0 (List.length tokens)) as [[i op]|] eqn:Hop; [|discriminate].
  pose proof (first_op_bounds _ _ _ _ _ Hop) as Hi.
  assert (Hshort : forall width result,
             1 <= i -> i + width <= List.length tokens -> 2 <= width ->
             reduce_comparisons fuel
               (firstn (i - 1) tokens ++ [str_of_bool result] ++ skipn (i + width) tokens)%list
               context step <> Unfinished).
  { intros width result H1 H2 H3. apply IH.
    rewrite !length_app, length_firstn, length_skipn. simpl. lia. }
  assert (Hat : op_at tokens i = Some op).
  { clear - Hop. revert Hop. generalize 0 at 1. generalize (List.length tokens).
    induction n as [|n IHn]; intros i0 H; simpl in H; [discriminate|].
    destruct (op_at tokens i0) eqn:E.
    - inversion H; subst. exact E.
    - apply IHn in H. exact H. }
  destruct op.
  - destruct (Nat.eqb_spec i 0); simpl; [discriminate|].
    destruct (Nat.eqb_spec i (List.length tokens - 1)); simpl; [discriminate|].
    destruct (_parse_value (nth (i - 1) tokens "") context step); simpl; [|discriminate].
    destruct (_parse_value (nth (i + 1) tokens "") context step); simpl; [|discriminate].
    apply Hshort; lia.
  - destruct (Nat.eqb_spec i 0); simpl; [discriminate|].
    destruct (Nat.eqb_spec i (List.length tokens - 1)); simpl; [discriminate|].
    destruct (_parse_value (nth (i - 1) tokens "") context step); simpl; [|discriminate].
    destruct (_parse_value (nth (i + 1) tokens "") context step); simpl; [|discriminate].
    apply Hshort; lia.
  - destruct (Nat.eqb_spec i 0); simpl; [discriminate|].
    destruct (Nat.leb_spec (List.length tokens - 2) i); simpl; [discriminate|].
    destruct (_parse_value (nth (i - 1) tokens "") context step); simpl; [|discriminate].
    destruct (_parse_value (nth (i + 2) tokens "") context step); simpl; [|discriminate].
    apply Hshort; lia.
  - pose proof (op_at_not_last tokens i (or_intror Hat)) as Hnl.
    destruct (Nat.eqb_spec i 0); simpl; [discriminate|].
    destruct (Nat.eqb_spec i (List.length tokens - 1)); simpl; [discriminate|].
    destruct (_parse_value (nth (i - 1) tokens "") context step); simpl; [|discriminate].
    destruct (_parse_value (nth (i + 1) tokens "") context step); simpl; [|discriminate].
    apply Hshort; lia.
Qed.

Lemma eval_expr_fuel_terminates context step : forall fuel tokens,
  List.length tokens < fuel ->
  eval_expr_fuel fuel tokens context step <> OutOfFuel.
Proof.
  induction fuel as [|fuel IH]; intros tokens Hlen; [lia|].
  cbn [eval_expr_fuel].
  destruct tokens as [|tok rest] eqn:Htok; [discriminate|]. rewrite <- Htok in *.
  destruct (scan_parens tokens 0 0 0) as [ps i|lvl] eqn:Hscan.
  - apply scan_parens_bounds in Hscan; [|lia].
    destruct Hscan as [Hps Hi].
    assert (Hinner : List.length (slice (ps + 1) i tokens) < fuel).
    { unfold slice. rewrite length_firstn, length_skipn. lia. }
    pose proof (IH _ Hinner) as Hin.
    destruct (eval_expr_fuel fuel (slice (ps + 1) i tokens) context step) as [b| |];
      [|discriminate|contradiction].
    apply IH. rewrite !length_app, length_firstn, length_skipn. simpl. lia.
  - destruct (negb (lvl =? 0)%Z); [discriminate|].
    pose proof (reduce_comparisons_terminates context step (S fuel) tokens Hlen) as Hr.
    destruct (reduce_comparisons (S fuel) tokens context step) as [b|e|tokens'|];
      [discriminate|discriminate| |contradiction].
    destruct (eval_connectives tokens' context step); discriminate.
Qed.

(** [_eval_expr] returns: a truth value or an exception. *)
Lemma eval_expr_terminates tokens context step :
  _eval_expr tokens context step <> OutOfFuel.
Proof.
  apply eval_expr_fuel_terminates. lia.
Qed.

(** *** The tokenizer *)

(** More fuel does not change a result. *)
Lemma tokenize_loop_mono fuel : forall fuel' s tokens r,
  tokenize_loop fuel s tokens = Some r -> fuel <= fuel' ->
  tokenize_loop fuel' s tokens = Some r.
Proof.
  induction fuel as [|fuel IH]; intros fuel' s tokens r H Hle.
  - destruct s; simpl in H; [|discriminate]. destruct fuel'; exact H.
  - destruct s as [|c s']; [destruct fuel'; exact H|].
    destruct fuel' as [|fuel']; [lia|].
    cbn [tokenize_loop] in *.
    destruct (tokenize_step (c :: s') tokens) as [s'' tokens''].
    apply IH; [exact H | lia].
Qed.

Lemma tokenize_step_stuck c s tokens :
  unhandled c s ->
  tokenize_step (c :: s) tokens = (c :: s, (tokens ++ [""])%list).
Proof.
  intros [H1 [H2 [H3 [H4 H5]]]]. unfold tokenize_step.
  rewrite H1, H2, H3, H4. cbn [scan_ident]. rewrite H5. reflexivity.
Qed.

Lemma tokenize_loop_stuck c s : unhandled c s ->
  forall fuel tokens, tokenize_loop fuel (c :: s) tokens = None.
Proof.
  intros Hc. induction fuel as [|fuel IH]; intros tokens; [reflexivity|].
  cbn [tokenize_loop]. rewrite (tokenize_step_stuck c s tokens Hc). apply IH.
Qed.

(** *** [decide] picks the first rule that fires *)

Lemma decide_passed fuel step context prec rest :
  passed fuel step context prec ->
  decide fuel (prec :: rest) step context = decide fuel rest step context.
Proof.
  unfold passed, applicable. intros [H|[tokens [Ht He]]]; cbn [decide].
  - apply negb_false_iff in H. rewrite H. reflexivity.
  - destruct (truthy_str (pstep prec) && _); [reflexivity|].
    rewrite Ht.
    pose proof (eval_expr_terminates tokens context step) as Hterm.
    destruct (_eval_expr tokens context step) as [[|]| |]; try reflexivity; contradiction.
Qed.

Lemma decide_first fuel step context pre : forall prec post,
  Forall (passed fuel step context) pre ->
  fires fuel step context prec ->
  decide fuel (pre ++ prec :: post) step context = Some (Some (then_ prec)).
Proof.
  induction pre as [|p pre IH]; intros prec post Hpre Hfire.
  - destruct Hfire as [Ha [tokens [Ht He]]]. cbn [app decide].
    unfold applicable in Ha. apply negb_true_iff in Ha. rewrite Ha, Ht, He. reflexivity.
  - inversion Hpre; subst. rewrite <- app_comm_cons.
    rewrite decide_passed by assumption. apply IH; assumption.
Qed.

Lemma decide_none fuel step context preconditions :
  Forall (passed fuel step context) preconditions ->
  decide fuel preconditions step context = Some None.
Proof.
  induction 1 as [|p rest Hp _ IH]; [reflexivity|].
  rewrite decide_passed by assumption. exact IH.
Qed.

(** The cases of gateway/tests/test_policy_engine.py. *)
Example test_precondition_allow :
  decide 100 [approve_in_prod] drain_node
    [("env", py.PStr "prod"); ("caller", py.PStr "admin@example.com")]
  = Some (Some "require_approval").
Proof. vm_compute. reflexivity. Qed.

Example test_precondition_block :
  decide 100 [block_in_prod] drain_node [("env", py.PStr "prod")]
  = Some (Some "block").
Proof. vm_compute. reflexivity. Qed.

Example test_precondition_no_match :
  decide 100 [block_in_prod] drain_node [("env", py.PStr "dev")] = Some None.
Proof. vm_compute. reflexivity. Qed.

Example test_precondition_step_filter :
  decide 100 [block_in_prod] rollback [("env", py.PStr "prod")] = Some None.
Proof. vm_compute. reflexivity. Qed.

Example test_precondition_complex_expr :
  decide 100 [approve_admin_in_prod] [("name", py.PStr "drain-node")]
    [("env", py.PStr "prod"); ("caller", py.PStr "admin")]
  = Some (Some "require_approval").
Proof. vm_compute. reflexivity. Qed.

(** A rule whose [when] raises is passed over, and the next one decides. *)
Example failing_rule_is_skipped :
  decide 100 [ {| when := "context.n == 1.2.3"; then_ := "block"; pstep := None |};
               {| when := "true and"; then_ := "block"; pstep := None |};
               approve_in_prod ] drain_node [("env", py.PStr "prod")]
  = Some (Some "require_approval").
Proof. vm_compute. reflexivity. Qed.

(** C8 (the code departs from the claim). A rule whose [when] holds a
    character the tokenizer has no case for, here the minus sign of
    [context.retries - 1 == 0], is not skipped: the tokenizer's loop never
    gets past that character, so for no bound on its iterations does
    [decide] return, whatever the step and the context. *)
Theorem C8_decide_does_not_return (fuel : nat) (step context : py.dict) :
  when minus_rule = "context.retries - 1 == 0" /\
  _tokenize fuel (when minus_rule) = None /\
  decide fuel [minus_rule] step context = None.
Proof.
  assert (H : _tokenize fuel "context.retries - 1 == 0" = None).
  { unfold _tokenize.
    destruct fuel as [|[|fuel]]; [reflexivity|reflexivity|].
    cbn [list_ascii_of_string tokenize_loop].
    set (s := tokenize_step _ _). vm_compute in s. subst s. cbv iota beta.
    set (s := tokenize_step _ _). vm_compute in s. subst s. cbv iota beta.
    apply tokenize_loop_stuck. repeat split. }
  split; [reflexivity|]. split; [exact H|].
  unfold minus_rule. cbn [decide pstep truthy_str andb when]. rewrite H. reflexivity.
Qed.

End Preconditions.

(** ** Policy validation *)

Lemma eqb_PStr v t : py.eqb v (py.PStr t) = true <-> v = py.PStr t.
Proof.
  destruct v; simpl; try (split; discriminate).
  rewrite String.eqb_eq. split; [intros ->; reflexivity | intros H; inversion H; reflexivity].
Qed.

Section PolicyValidate.
Import activities.

Variable schema_errors : py.value -> py.value -> list string.

Lemma tool_in_spec tool tools :
  tool_in tool tools = true <-> exists t, In t tools /\ tool = py.PStr t.
Proof.
  unfold tool_in. rewrite existsb_exists. split.
  - intros [t [Ht E]]. apply eqb_PStr in E. eauto.
  - intros [t [Ht E]]. exists t. split; [exact Ht | apply eqb_PStr; exact E].
Qed.

Lemma allowed_for_spec allowlist tool user_roles :
  allowed_for allowlist tool user_roles = true <-> role_allows allowlist tool user_roles.
Proof.
  unfold role_allows. induction user_roles as [|r rest IH]; simpl.
  - split; [discriminate|]. intros [r [tools [t [[] _]]]].
  - destruct (tool_in tool (py.get_default allowlist r [])) eqn:Hin.
    + split; [|reflexivity]. intros _.
      apply tool_in_spec in Hin. destruct Hin as [t [Ht E]].
      unfold py.get_default in Ht.
      destruct (py.lookup r allowlist) as [tools|] eqn:Hl; [|destruct Ht].
      exists r, tools, t. auto.
    + rewrite IH. split.
      * intros [r' [tools [t [Hr H]]]]. exists r', tools, t. auto.
      * intros [r' [tools [t [[<-|Hr] [Hl [Ht E]]]]]].
        -- assert (tool_in tool (py.get_default allowlist r []) = true).
           { apply tool_in_spec. unfold py.get_default. rewrite Hl. eauto. }
           congruence.
        -- exists r', tools, t. auto.
Qed.

(** The reasons collected before the preconditions are looked at. *)
Lemma policy_validate_reasons fuel step policy user_roles context v :
  policy_validate schema_errors fuel step policy user_roles context = Some v ->
  let tool := py.get_default step "tool" (py.PStr "") in
  allowlist_gate (tool_allowlist policy) tool user_roles = false ->
  (ok v = false /\ In not_allowed (reasons v)) \/
  (ok v = true /\ reasons v = [] /\ require_approval v = true).
Proof.
  intros Hv tool Hgate. unfold policy_validate in Hv. fold tool in Hv.
  unfold allowlist_gate in Hgate. apply negb_false_iff in Hgate.
  change (match tool_allowlist policy with [] => false | _ :: _ => true end)
    with (nonempty (tool_allowlist policy)) in Hgate.
  rewrite Hgate in Hv.
  set (errors := schema_errors tool _) in Hv.
  set (rs := if nonempty errors then _ else _) in Hv.
  assert (Hin : In not_allowed rs).
  { subst rs. destruct (nonempty errors); [apply in_or_app; left|]; left; reflexivity. }
  assert (Hne : forall l, In not_allowed l -> negb (nonempty l) = false).
  { intros [|x l] H; [destruct H | reflexivity]. }
  destruct (nonempty (preconditions policy) && nonempty context).
  - destruct (policy_engine.decide fuel (preconditions policy) step context)
      as [decision|]; [|discriminate].
    destruct (opt_str_eqb decision (Some "block")).
    + inversion Hv; subst; simpl. left. split.
      * apply Hne. apply in_or_app. left. exact Hin.
      * apply in_or_app. left. exact Hin.
    + destruct (opt_str_eqb decision (Some "require_approval")).
      * inversion Hv; subst; simpl. right. auto.
      * inversion Hv; subst; simpl. left. split; [apply Hne|]; exact Hin.
  - inversion Hv; subst; simpl. left. split; [apply Hne|]; exact Hin.
Qed.

(** [policy_validate] returns whenever [decide] is not called or
    returns. *)
Lemma policy_validate_returns fuel step policy user_roles context :
  (preconditions policy = [] \/ context = [] \/
   exists d, policy_engine.decide fuel (preconditions policy) step context = Some d) ->
  exists v, policy_validate schema_errors fuel step policy user_roles context = Some v.
Proof.
  unfold policy_validate. intros [H|[H|[d H]]].
  - rewrite H. simpl. eauto.
  - rewrite H. rewrite andb_false_r. eauto.
  - rewrite H. destruct (nonempty (preconditions policy) && nonempty context); [|eauto].
    destruct (opt_str_eqb d (Some "block")); [eauto|].
    destruct (opt_str_eqb d (Some "require_approval")); eauto.
Qed.


End PolicyValidate.


(** *** A precondition that asks for approval *)


Section ApprovalShortcut.
Import activities.

Variable schema_errors : py.value -> py.value -> list string.


End ApprovalShortcut.


(** ** Step records *)

Section RecordStep.
Import models activities.

Lemma StepStatus_of_terminal v :
  _terminal (match StepStatus_of v with Ret e => e | Raise _ => PENDING end)
  = policy_engine.in_strs v ["succeeded"; "failed"; "skipped"; "compensated"].
Proof.
  unfold StepStatus_of, policy_engine.in_strs. simpl.
  rewrite !(String.eqb_sym v).
  destruct (String.eqb_spec "pending" v) as [<-|]; [reflexivity|].
  destruct (String.eqb_spec "running" v) as [<-|]; [reflexivity|].
  destruct (String.eqb_spec "succeeded" v) as [<-|]; [reflexivity|].
  destruct (String.eqb_spec "failed" v) as [<-|]; [reflexivity|].
  destruct (String.eqb_spec "skipped" v) as [<-|]; [reflexivity|].
  destruct (String.eqb_spec "compensated" v) as [<-|]; reflexivity.
Qed.

Lemma apply_fields_status now f step step' :
  apply_fields now f step = Ret step' ->
  status step' =
  match f_status f with
  | None => status step
  | Some (StatusEnum e) => e
  | Some (StatusStr v) => match StepStatus_of v with Ret e => e | Raise _ => PENDING end
  | Some StatusNone => status step
  end /\ run_id step' = run_id step /\ name step' = name step.
Proof.
  unfold apply_fields. destruct (f_status f) as [[|v|e]|]; simpl.
  - discriminate.
  - destruct (StepStatus_of v); simpl; intros H; inversion H; auto.
  - intros H; inversion H; auto.
  - intros H; inversion H; auto.
Qed.

Lemma find_update_first sel s' db s :
  find sel db = Some s -> sel s' = true ->
  find sel (update_first sel s' db) = Some s'.
Proof.
  induction db as [|x db IH]; simpl; [discriminate|].
  destruct (sel x) eqn:Hx; intros H Hs'; simpl.
  - rewrite Hs'. reflexivity.
  - rewrite Hx. apply IH; assumption.
Qed.

(** C7 (amended). [record_step] has no guard on transitions: it stores
    the status it is given.  A row in a terminal state is terminal after
    an update exactly when the update carries no status or a terminal
    one; an update with [pending], [running] or an unknown status name
    makes it non-terminal.  (An update whose status is [None] fails at
    the commit and leaves the table as it was.) *)
Theorem C7_record_step_terminal (now : Z) (run step_name : string) (f : fields)
    (db : list Step) (s : Step) :
  find (is_step run step_name) db = Some s ->
  _terminal (status s) = true ->
  (f_status f <> Some StatusNone ->
   exists db' s',
     record_step now run step_name f db = Ret db' /\
     find (is_step run step_name) db' = Some s' /\
     _terminal (status s') = keeps_terminal (f_status f)) /\
  (f_status f = Some StatusNone ->
   record_step now run step_name f db = Raise "IntegrityError").
Proof.
  intros Hfind Hterm. unfold record_step. rewrite Hfind. split.
  - intros Hnn.
    destruct (apply_fields now f s) as [s'|exc] eqn:Happ.
    + exists (update_first (is_step run step_name) s' db), s'.
      destruct (apply_fields_status _ _ _ _ Happ) as [Hst [Hrun Hname]].
      split; [reflexivity|]. split.
      * apply (find_update_first _ _ _ s Hfind).
        apply find_some in Hfind. destruct Hfind as [_ Hsel].
        unfold is_step in *. rewrite Hrun, Hname. exact Hsel.
      * rewrite Hst. unfold keeps_terminal.
        destruct (f_status f) as [[|v|e]|] eqn:E.
        -- contradiction Hnn; reflexivity.
        -- apply StepStatus_of_terminal.
        -- reflexivity.
        -- exact Hterm.
    + exfalso. unfold apply_fields in Happ.
      destruct (f_status f) as [[|v|e]|]; simpl in Happ;
        [contradiction Hnn; reflexivity| |discriminate|discriminate].
      destruct (StepStatus_of v); discriminate.
  - intros E. unfold apply_fields. rewrite E. reflexivity.
Qed.

End RecordStep.

(** C7, as it is stated, fails: an update with status [pending] takes a
    succeeded step back to [pending]. *)
Lemma C7_counterexample :
  models._terminal (models.status succeeded_step) = true /\
  exists s',
    activities.record_step 30%Z "run-1" "ack" (status_only "pending") [succeeded_step]
    = Ret [s'] /\
    models.status s' = models.PENDING /\
    models._terminal (models.status s') = false.
Proof.
  split; [reflexivity|]. eexists. split; [reflexivity|]. split; reflexivity.
Qed.

Lemma C7_record_step_terminal_witness :
  exists db' s',
    activities.record_step 30%Z "run-1" "ack" (status_only "compensated") [succeeded_step]
    = Ret db' /\
    find (activities.is_step "run-1" "ack") db' = Some s' /\
    models._terminal (models.status s') = true.
Proof.
  apply (C7_record_step_terminal 30%Z "run-1" "ack" (status_only "compensated")
           [succeeded_step] succeeded_step eq_refl eq_refl).
  discriminate.
Defined.

(** The engine itself records [pending] at the start of every declared
    step: in a runbook that declares the name [s1] twice, the row of [s1]
    is [succeeded] after the first five activities and [pending] again
    after the sixth. *)
Example engine_records_pending_again :
  exists e,
    demo_run (ctx_of [step_s1; step_s1] open_policy) no_brain "execute"
    = Some (e, workflows.Completed) /\
    (rows <- replay "run-1" (firstn 5 (workflows.trace e)) [] ;;
     Ret (map models.status rows)) = Ret [models.SUCCEEDED] /\
    (rows <- replay "run-1" (firstn 6 (workflows.trace e)) [] ;;
     Ret (map models.status rows)) = Ret [models.PENDING].
Proof.
  eexists. split; [vm_compute; reflexivity|]. split; vm_compute; reflexivity.
Qed.

(** ** The execution engine *)

Section EngineFacts.
Import models activities workflows.

Variable schema_errors : py.value -> py.value -> list string.
Variable sha256_hex : string -> string.
Variable adapter_invoke : string -> ToolCall -> outcome py.value.
Variable wait_for_approval : option string -> bool.
Variable brain : brain_result.
Variable utcnow : nat -> Z.
Variable fuel : nat.

Let run_step' :=
  run_step schema_errors sha256_hex adapter_invoke wait_for_approval brain utcnow fuel.
Let run_steps' :=
  run_steps schema_errors sha256_hex adapter_invoke wait_for_approval brain utcnow fuel.

Lemma emit_emit a b e :
  emit b (emit a e) = {| trace := (trace e ++ [a; b])%list; run_totals := run_totals e |}.
Proof.
  unfold emit. simpl. rewrite <- app_assoc. reflexivity.
Qed.

Lemma run_step_tokens dry_run c step e :
  tokens_exhausted c e ->
  run_step' dry_run c step e = Some (Continue (skip_for_budget "max_tokens_per_run" step e)).
Proof.
  intros [m [Hm Hle]]. unfold run_step', run_step. rewrite Hm. simpl run_totals.
  destruct (Z.leb_spec m (tokens_in (run_totals e) + tokens_out (run_totals e))); [|lia].
  rewrite emit_emit. reflexivity.
Qed.

Lemma run_step_cost dry_run c step e :
  cost_exhausted c e ->
  exists what,
    (what = "max_tokens_per_run" \/ what = "max_cost_per_run_usd") /\
    (~ tokens_exhausted c e -> what = "max_cost_per_run_usd") /\
    run_step' dry_run c step e = Some (Continue (skip_for_budget what step e)).
Proof.
  intros [m [Hm Hle]]. unfold run_step', run_step. rewrite Hm. simpl run_totals.
  destruct (max_tokens_per_run (ctx_policy c)) as [mt|] eqn:Hmt.
  - destruct (Z.leb_spec mt (tokens_in (run_totals e) + tokens_out (run_totals e))).
    + exists "max_tokens_per_run". split; [auto|]. split.
      * intros Hn. exfalso. apply Hn. exists mt. auto.
      * rewrite emit_emit. reflexivity.
    + exists "max_cost_per_run_usd". split; [auto|]. split; [reflexivity|].
      apply Qle_bool_iff in Hle. rewrite Hle, emit_emit. reflexivity.
  - exists "max_cost_per_run_usd". split; [auto|]. split; [reflexivity|].
    apply Qle_bool_iff in Hle. rewrite Hle, emit_emit. reflexivity.
Qed.

(** Once the token budget is used up it stays so: every remaining step is
    skipped and the loop ends without an exception. *)
Lemma run_steps_all_skipped dry_run c steps : forall e,
  tokens_exhausted c e ->
  run_steps' dry_run c steps e
  = Some (Continue (fold_left (fun e step => skip_for_budget "max_tokens_per_run" step e)
                              steps e)).
Proof.
  induction steps as [|step rest IH]; intros e He; [reflexivity|].
  unfold run_steps' in *. cbn [run_steps fold_left].
  fold run_step'. rewrite (run_step_tokens dry_run c step e He).
  apply IH. exact He.
Qed.

(** C4. In the loop over the declared steps, a step reached when
    [max_tokens_per_run] is set and [tokens_in + tokens_out] has reached
    it is recorded [pending] and then [skipped] with the error
    [{"budget": "max_tokens_per_run exceeded"}], and the loop goes on with
    the next declared step; the same with [max_cost_per_run_usd] and the
    accumulated cost (the token gate is looked at first, so when both
    are reached the error names the tokens). *)
Theorem C4_budget_gate (dry_run : bool) (c : ctx) (step : py.dict)
    (rest : list py.dict) (e : engine) :
  (tokens_exhausted c e ->
   run_steps' dry_run c (step :: rest) e
   = run_steps' dry_run c rest (skip_for_budget "max_tokens_per_run" step e)) /\
  (cost_exhausted c e ->
   exists what,
     (what = "max_tokens_per_run" \/ what = "max_cost_per_run_usd") /\
     (~ tokens_exhausted c e -> what = "max_cost_per_run_usd") /\
     run_steps' dry_run c (step :: rest) e
     = run_steps' dry_run c rest (skip_for_budget what step e)).
Proof.
  split.
  - intros H. unfold run_steps'. cbn [run_steps]. fold run_step'.
    rewrite (run_step_tokens dry_run c step e H). reflexivity.
  - intros H. destruct (run_step_cost dry_run c step e H) as [what [H1 [H2 H3]]].
    exists what. split; [exact H1|]. split; [exact H2|].
    unfold run_steps'. cbn [run_steps]. fold run_step'. rewrite H3. reflexivity.
Qed.

(** *** Idempotency keys in the engine *)

Lemma plan_step_key step c :
  plan_idempotencyKey (plan_step sha256_hex brain step c)
  = utils.make_idempotency_key sha256_hex (ctx_run_id c) (name_of step)
      (plan_args (plan_step sha256_hex brain step c)).
Proof.
  unfold plan_step, name_of.
  destruct (find _ (planned brain)) as [[|kv p]|]; try reflexivity.
  destruct (py.eqb _ (py.PStr "block")); reflexivity.
Qed.

Lemma execute_keys dry_run step p e :
  exists new,
    trace (result_engine (execute adapter_invoke utcnow dry_run step p e))
    = (trace e ++ new)%list /\
    (flat_map key_received new = [plan_idempotencyKey p] \/
     flat_map key_received new
     = [plan_idempotencyKey p; plan_idempotencyKey p ++ "-comp"]).
Proof.
  unfold execute.
  destruct (invoke_adapter adapter_invoke (py.str (plan_tool p)) (plan_args p) dry_run
              (plan_idempotencyKey p)) as [res|exc].
  - destruct (plan_usage p) as [u|]; simpl;
      (eexists; split; [rewrite <- !app_assoc; reflexivity | left; reflexivity]).
  - destruct (py.lookup "compensate" step) as [[| | | | | |[|kv comp]]|];
      try (simpl; eexists; split; [rewrite <- ?app_assoc; reflexivity | left; reflexivity]).
    destruct (compensate adapter_invoke _ _ dry_run (plan_idempotencyKey p));
      simpl; (eexists; split; [rewrite <- !app_assoc; reflexivity | right; reflexivity]).
Qed.

End EngineFacts.

(** Scenario "budget exhausted": [max_tokens_per_run = 50], the first
    step uses 60 tokens, the second is skipped for the budget and the run
    completes. *)
Example budget_exhausted_scenario :
  exists e,
    demo_run demo_ctx demo_brain "execute" = Some (e, workflows.Completed) /\
    statuses (workflows.trace e)
    = [ ("s1", Some (activities.StatusStr "pending"));
        ("s1", Some (activities.StatusStr "running"));
        ("s1", Some (activities.StatusStr "succeeded"));
        ("s2", Some (activities.StatusStr "pending"));
        ("s2", Some (activities.StatusStr "skipped")) ] /\
    List.last (workflows.trace e) workflows.ComputeShadow
    = workflows.RecordStep "s2"
        (workflows.skipped (py.PDict [("budget", py.PStr "max_tokens_per_run exceeded")])).
Proof.
  eexists. split; [vm_compute; reflexivity|]. split; vm_compute; reflexivity.
Qed.

Lemma C4_budget_gate_witness :
  (tokens_exhausted demo_ctx spent_engine /\
   workflows.run_steps no_schema demo_sha demo_adapter (fun _ => true) demo_brain
     demo_clock 100 false demo_ctx [step_s2] spent_engine
   = Some (workflows.Continue
             (skip_for_budget "max_tokens_per_run" step_s2 spent_engine))) /\
  (cost_exhausted (ctx_of [step_s2] policy_cost_cap) spent_engine /\
   workflows.run_steps no_schema demo_sha demo_adapter (fun _ => true) demo_brain
     demo_clock 100 false (ctx_of [step_s2] policy_cost_cap) [step_s2] spent_engine
   = Some (workflows.Continue
             (skip_for_budget "max_cost_per_run_usd" step_s2 spent_engine))).
Proof.
  assert (Ht : tokens_exhausted demo_ctx spent_engine).
  { exists 50%Z. split; [reflexivity | simpl; lia]. }
  assert (Hc : cost_exhausted (ctx_of [step_s2] policy_cost_cap) spent_engine).
  { exists (1 # 100)%Q. split; [reflexivity | simpl; apply Qle_refl]. }
  split; (split; [assumption|]).
  - rewrite (proj1 (C4_budget_gate no_schema demo_sha demo_adapter (fun _ => true)
                      demo_brain demo_clock 100 false demo_ctx step_s2 []
                      spent_engine) Ht).
    reflexivity.
  - destruct (proj2 (C4_budget_gate no_schema demo_sha demo_adapter (fun _ => true)
                       demo_brain demo_clock 100 false
                       (ctx_of [step_s2] policy_cost_cap) step_s2 [] spent_engine) Hc)
      as [what [_ [Hwhat Heq]]].
    rewrite Heq, Hwhat; [reflexivity|].
    intros [m [Hm _]]. discriminate Hm.
Defined.

(** ** The shadow evaluator *)

Section Shadow.
Import models activities.

Variable agent_map : list (py.value * agent_entry).
Variable expected_map : list (py.value * (py.dict * Z)).

Local Abbreviation tool_matches_at := (score.tool_matches_at agent_map expected_map).
Local Abbreviation args_match_at := (score.args_match_at agent_map expected_map).
Local Abbreviation order_matches_at := (score.order_matches_at agent_map expected_map).

Lemma diff_inputs_empty ai ei :
  nonempty (diff_inputs ai ei)
  = negb (forallb (fun k => py.eqb (py.get ai k) (py.get ei k)) (key_union ai ei)).
Proof.
  unfold diff_inputs. induction (key_union ai ei) as [|k ks IH]; [reflexivity|].
  simpl. destruct (py.eqb (py.get ai k) (py.get ei k)); simpl; [exact IH | reflexivity].
Qed.

Lemma compare_step_counts n c c' :
  compare_step agent_map expected_map n c = Ret c' ->
  tool_matches c' = tool_matches c + (if tool_matches_at n then 1 else 0) /\
  args_matches c' = args_matches c + (if args_match_at n then 1 else 0) /\
  order_matches c' = order_matches c + (if order_matches_at n then 1 else 0).
Proof.
  unfold compare_step, score.tool_matches_at, score.args_match_at, score.order_matches_at.
  destruct (vlookup n agent_map) as [a|]; [|intros H; inversion H; simpl; lia].
  destruct (vlookup n expected_map) as [e|]; [|intros H; inversion H; simpl; lia].
  unfold as_dict.
  destruct (a_input a) as [| | | | | |ai]; try discriminate.
  destruct (py.get_default (fst e) "input" (py.PDict [])) as [| | | | | |ei];
    try discriminate.
  simpl. intros H; inversion H; subst; clear H. simpl.
  rewrite diff_inputs_empty.
  match goal with |- context [negb ?x] => destruct x end; simpl;
    repeat match goal with
           | |- context [if ?b then _ else _] => destruct b
           end; simpl; lia.
Qed.

Lemma compare_all_counts names : forall c c',
  compare_all agent_map expected_map names c = Ret c' ->
  tool_matches c' = tool_matches c + count tool_matches_at names /\
  args_matches c' = args_matches c + count args_match_at names /\
  order_matches c' = order_matches c + count order_matches_at names.
Proof.
  unfold count. induction names as [|n rest IH]; intros c c' H; simpl in H.
  - inversion H; subst. simpl. lia.
  - destruct (compare_step agent_map expected_map n c) as [c1|] eqn:H1; [|discriminate].
    simpl in H. apply IH in H. apply compare_step_counts in H1.
    simpl. destruct (tool_matches_at n), (args_match_at n), (order_matches_at n);
      simpl; lia.
Qed.

End Shadow.

(** *** [compute_shadow] returns on well-typed inputs *)

Section ShadowReturns.
Import models activities.

Lemma vset_Forall {B : Type} (Q : B -> Prop) k v (m : list (py.value * B)) :
  Forall (fun kv => Q (snd kv)) m -> Q v ->
  Forall (fun kv => Q (snd kv)) (vset k v m).
Proof.
  induction m as [|[k' v'] m IH]; intros Hm Hv; simpl.
  - constructor; [exact Hv | constructor].
  - inversion Hm; subst. destruct (py.eqb k k').
    + constructor; assumption.
    + constructor; [assumption | apply IH; assumption].
Qed.

Lemma vlookup_Forall {B : Type} (Q : B -> Prop) n (m : list (py.value * B)) x :
  Forall (fun kv => Q (snd kv)) m -> vlookup n m = Some x -> Q x.
Proof.
  induction m as [|[k v] m IH]; intros Hm H; simpl in H; [discriminate|].
  inversion Hm; subst. destruct (py.eqb n k).
  - inversion H; subst. assumption.
  - apply IH; assumption.
Qed.

Lemma agent_steps_inputs steps : forall idx,
  Forall (fun s => dict_input (input s)) steps ->
  Forall (fun a => exists i, a_input a = py.PDict i) (agent_steps_from idx steps).
Proof.
  induction steps as [|s r IH]; intros idx H; simpl; [constructor|].
  inversion H as [|? ? Hs Hr]; subst.
  assert (Ha : exists i, input_or_empty (input s) = py.PDict i).
  { unfold input_or_empty, dict_input in *.
    destruct (input s) as [v|]; [|eauto].
    destruct v as [| | | | | |d0]; simpl in *; try rewrite Hs; eauto.
    destruct d0; simpl; eauto. }
  destruct (status s); try (apply IH; exact Hr);
    (constructor; [exact Ha | apply IH; exact Hr]).
Qed.

Lemma agent_map_inputs l : forall m,
  Forall (fun a => exists i, a_input a = py.PDict i) l ->
  Forall (fun kv : py.value * agent_entry => exists i, a_input (snd kv) = py.PDict i) m ->
  Forall (fun kv : py.value * agent_entry => exists i, a_input (snd kv) = py.PDict i)
         (fold_left (fun m s => vset (py.PStr (a_name s)) s m) l m).
Proof.
  induction l as [|a l IH]; intros m Hl Hm; simpl; [exact Hm|].
  inversion Hl; subst. apply IH; [assumption|].
  apply (vset_Forall (fun a => exists i, a_input a = py.PDict i)); assumption.
Qed.

Lemma expected_map_returns expected : forall idx m,
  Forall descriptor_ok expected ->
  Forall (fun kv : py.value * (py.dict * Z) => has_dict_input (fst (snd kv))) m ->
  exists em,
    expected_map_from idx expected m = Ret em /\
    Forall (fun kv : py.value * (py.dict * Z) => has_dict_input (fst (snd kv))) em.
Proof.
  induction expected as [|x r IH]; intros idx m Hx Hm; simpl.
  - eauto.
  - inversion Hx as [|? ? Hd Hr]; subst.
    destruct x; try (apply IH; assumption).
    + apply IH; [assumption|].
      apply (vset_Forall (fun e : py.dict * Z => has_dict_input (fst e))); [assumption|].
      exists []. reflexivity.
    + destruct Hd as [Hh Hi]. rewrite Hh. apply IH; [assumption|].
      apply (vset_Forall (fun e : py.dict * Z => has_dict_input (fst e))); assumption.
Qed.

Lemma compare_all_returns am em names : forall c,
  Forall (fun kv : py.value * agent_entry => exists i, a_input (snd kv) = py.PDict i) am ->
  Forall (fun kv : py.value * (py.dict * Z) => has_dict_input (fst (snd kv))) em ->
  exists c', compare_all am em names c = Ret c'.
Proof.
  induction names as [|n r IH]; intros c Ham Hem; simpl; [eauto|].
  assert (H : exists c1, compare_step am em n c = Ret c1).
  { unfold compare_step.
    destruct (vlookup n am) as [a|] eqn:Ha; [|eauto].
    destruct (vlookup n em) as [e|] eqn:He; [|eauto].
    destruct (vlookup_Forall (fun a => exists i, a_input a = py.PDict i) _ _ _ Ham Ha)
      as [ai Hai].
    destruct (vlookup_Forall (fun e : py.dict * Z => has_dict_input (fst e)) _ _ _ Hem He)
      as [ei Hei].
    rewrite Hai, Hei. simpl. eauto. }
  destruct H as [c1 H]. rewrite H. simpl. apply IH; assumption.
Qed.

(** With dict inputs and hashable names the comparison raises nothing. *)
Lemma compute_shadow_returns steps expected_steps :
  Forall (fun s => dict_input (input s)) steps ->
  Forall descriptor_ok expected_steps ->
  exists sh, compute_shadow steps expected_steps = Ret sh.
Proof.
  intros Hs He. unfold compute_shadow.
  destruct (expected_map_returns expected_steps 0 [] He (Forall_nil _)) as [em [Hem Hq]].
  rewrite Hem. simpl.
  match goal with
  | |- context [compare_all ?am em ?names ?c] =>
      destruct (compare_all_returns am em names c) as [c' Hc]
  end.
  - apply agent_map_inputs; [apply agent_steps_inputs; exact Hs | constructor].
  - exact Hq.
  - rewrite Hc. simpl. eauto.
Qed.

End ShadowReturns.



(** On the very inputs of the specification's scenario 8 the inputs of
    both steps agree, so the counts are 1, 2, 2 of 2 and the score is
    0.75. *)
Example shadow_scenario_8 :
  (activities.shadow_tool_matches (shadow_of scenario8_steps shadow_expected),
   activities.shadow_args_matches (shadow_of scenario8_steps shadow_expected),
   activities.shadow_order_matches (shadow_of scenario8_steps shadow_expected),
   activities.shadow_total_steps (shadow_of scenario8_steps shadow_expected))
  = (1, 2, 2, 2)%nat /\
  (activities.match_score (shadow_of scenario8_steps shadow_expected) == 3 # 4)%Q.
Proof.
  split; vm_compute; reflexivity.
Qed.

(** ** Idempotency keys *)

Section SortedItems.
Import json.

Context {A : Type}.

Lemma key_ltb_lt a b : key_ltb a b = true <-> String_as_OT.lt a b.
Proof.
  unfold key_ltb, String_as_OT.lt.
  destruct (String_as_OT.compare a b); split; congruence.
Qed.

Lemma key_ltb_false a b : key_ltb a b = false -> a <> b -> String_as_OT.lt b a.
Proof.
  unfold key_ltb. intros H Hne.
  destruct (String_as_OT.compare_spec a b) as [E|L|G]; [contradiction|discriminate|exact G].
Qed.

Lemma key_lt_trans (a b c : string * A) : key_lt a b -> key_lt b c -> key_lt a c.
Proof.
  unfold key_lt. apply String_as_OT.lt_strorder.
Qed.

Lemma key_lt_irrefl (a : string * A) : ~ key_lt a a.
Proof.
  unfold key_lt. apply String_as_OT.lt_strorder.
Qed.

Lemma insert_item_perm (kv : string * A) l : Permutation (kv :: l) (insert_item kv l).
Proof.
  induction l as [|x l IH]; simpl; [reflexivity|].
  destruct (key_ltb (fst kv) (fst x)); [reflexivity|].
  rewrite perm_swap. apply perm_skip. exact IH.
Qed.

Lemma sort_items_perm (l : list (string * A)) : Permutation l (sort_items l).
Proof.
  induction l as [|x l IH]; simpl; [reflexivity|].
  rewrite <- insert_item_perm. apply perm_skip. exact IH.
Qed.

Lemma insert_item_sorted (kv : string * A) l :
  StronglySorted key_lt l -> ~ In (fst kv) (map fst l) ->
  StronglySorted key_lt (insert_item kv l).
Proof.
  induction l as [|x l IH]; intros Hs Hnin; simpl.
  - constructor; constructor.
  - inversion Hs as [|? ? Hl Hx]; subst.
    destruct (key_ltb (fst kv) (fst x)) eqn:E.
    + constructor; [exact Hs|]. constructor.
      * apply key_ltb_lt. exact E.
      * apply key_ltb_lt in E. eapply Forall_impl; [|exact Hx].
        intros y Hy. eapply key_lt_trans; [exact E | exact Hy].
    + constructor.
      * apply IH; [exact Hl|]. intros H. apply Hnin. right. exact H.
      * assert (Hlt : key_lt x kv).
        { apply key_ltb_false; [exact E|]. intros H. apply Hnin. left. symmetry. exact H. }
        apply (Permutation_Forall (insert_item_perm kv l)).
        constructor; assumption.
Qed.

Lemma sort_items_sorted (l : list (string * A)) :
  NoDup (map fst l) -> StronglySorted key_lt (sort_items l).
Proof.
  induction l as [|x l IH]; intros Hnd; simpl; [constructor|].
  inversion Hnd; subst. apply insert_item_sorted; [apply IH; assumption|].
  intros H. apply (Permutation_in _ (Permutation_sym (Permutation_map fst (sort_items_perm l)))) in H.
  contradiction.
Qed.

(** Two lists sorted on distinct keys with the same items are the same
    list. *)
Lemma sorted_perm_eq (l1 : list (string * A)) : forall l2,
  StronglySorted key_lt l1 -> StronglySorted key_lt l2 ->
  Permutation l1 l2 -> l1 = l2.
Proof.
  induction l1 as [|a r1 IH]; intros l2 H1 H2 Hp.
  - apply Permutation_nil in Hp. symmetry. exact Hp.
  - destruct l2 as [|b r2]; [apply Permutation_sym, Permutation_nil in Hp; discriminate|].
    inversion H1 as [|? ? Hr1 Ha]; inversion H2 as [|? ? Hr2 Hb]; subst.
    assert (E : a = b).
    { assert (Hain : In a (b :: r2)) by (apply (Permutation_in _ Hp); left; reflexivity).
      assert (Hbin : In b (a :: r1))
        by (apply (Permutation_in _ (Permutation_sym Hp)); left; reflexivity).
      destruct Hain as [Hab|Hain]; [symmetry; exact Hab|].
      destruct Hbin as [Hba|Hbin]; [exact Hba|].
      rewrite Forall_forall in Ha, Hb.
      exfalso. apply (key_lt_irrefl a).
      eapply key_lt_trans; [apply Ha; exact Hbin | apply Hb; exact Hain]. }
    subst b. f_equal. apply IH; [assumption|assumption|].
    apply Permutation_cons_inv in Hp. exact Hp.
Qed.

(** Sorting forgets the order in which the items came. *)
Lemma sort_items_canonical (l1 l2 : list (string * A)) :
  NoDup (map fst l1) -> Permutation l1 l2 -> sort_items l1 = sort_items l2.
Proof.
  intros Hnd Hp.
  assert (Hnd2 : NoDup (map fst l2)).
  { apply (Permutation_NoDup (Permutation_map fst Hp)). exact Hnd. }
  apply sorted_perm_eq; [apply sort_items_sorted; exact Hnd
                        |apply sort_items_sorted; exact Hnd2|].
  rewrite <- (sort_items_perm l1), <- (sort_items_perm l2). exact Hp.
Qed.

End SortedItems.

Section CanonicalEncoding.
Import py json.

Lemma wf_list l : wf (PList l) <-> Forall wf l.
Proof.
  induction l as [|x l IH]; simpl.
  - split; [constructor | exact (fun _ => I)].
  - simpl in IH. rewrite IH. split.
    + intros [H1 H2]. constructor; assumption.
    + intros H. inversion H; auto.
Qed.

Lemma wf_dict d : wf (PDict d) <-> NoDup (map fst d) /\ Forall (fun kv => wf (snd kv)) d.
Proof.
  simpl. apply and_iff_compat_l.
  induction d as [|x d IH].
  - split; [constructor | exact (fun _ => I)].
  - rewrite IH. split.
    + intros [H1 H2]. constructor; assumption.
    + intros H. inversion H; auto.
Qed.

Lemma lookup_In {B : Type} k (d : list (string * B)) v :
  lookup k d = Some v -> In (k, v) d.
Proof.
  induction d as [|[k' v'] d IH]; simpl; [discriminate|].
  destruct (String.eqb_spec k k') as [->|Hne].
  - intros H; inversion H. left. reflexivity.
  - intros H. right. apply IH. exact H.
Qed.

Lemma same_list_spec l : forall l',
  (fix go (l l' : list value) {struct l} : bool :=
     match l, l' with
     | [], [] => true
     | x :: r, y :: r' => same x y && go r r'
     | _, _ => false
     end) l l' = true ->
  Forall2 (fun x y => same x y = true) l l'.
Proof.
  induction l as [|x r IH]; intros [|y r'] H; try discriminate.
  - constructor.
  - apply andb_true_iff in H. destruct H as [H1 H2]. constructor; auto.
Qed.

Lemma same_dict_spec d' d :
  (fix go (d : list (string * value)) : bool :=
     match d with
     | [] => true
     | kv :: r =>
         match lookup (fst kv) d' with
         | Some v' => same (snd kv) v' && go r
         | None => false
         end
     end) d = true ->
  Forall (fun kv => exists v', lookup (fst kv) d' = Some v' /\ same (snd kv) v' = true) d.
Proof.
  induction d as [|kv r IH]; intros H; [constructor|].
  destruct (lookup (fst kv) d') as [v'|] eqn:Hl; [|discriminate].
  apply andb_true_iff in H. destruct H as [H1 H2].
  constructor; [exists v'; auto | apply IH; exact H2].
Qed.

(** The sorted-key encoding does not see the order of dict items:
    well-formed values that are the same document up to that order have
    the same encoding. *)
Lemma dumps_sorted_same item_sep key_sep a : forall b,
  wf a -> wf b -> same a b = true ->
  dumps_sorted item_sep key_sep a = dumps_sorted item_sep key_sep b.
Proof.
  induction a as [|x|x|m e|s|l IH|d IH] using value_induction;
    intros b Ha Hb Hs; destruct b; try discriminate; cbn [same] in Hs.
  - reflexivity.
  - apply Bool.eqb_prop in Hs. subst. reflexivity.
  - apply Z.eqb_eq in Hs. subst. reflexivity.
  - apply andb_true_iff in Hs. destruct Hs as [H1 H2].
    apply Z.eqb_eq in H1. apply Nat.eqb_eq in H2. subst. reflexivity.
  - apply String.eqb_eq in Hs. subst. reflexivity.
  - apply same_list_spec in Hs. apply wf_list in Ha. apply wf_list in Hb.
    cbn [dumps_sorted]. do 2 f_equal. f_equal.
    revert IH Ha Hb. induction Hs as [|x y r r' Hxy Hr IHr]; intros IH Ha Hb; [reflexivity|].
    inversion IH; inversion Ha; inversion Hb; subst. simpl. f_equal; auto.
  - rename d0 into d'.
    apply andb_true_iff in Hs. destruct Hs as [Hlen Hs].
    apply Nat.eqb_eq in Hlen. apply same_dict_spec in Hs.
    apply wf_dict in Ha. apply wf_dict in Hb.
    destruct Ha as [Hnd Hwf]. destruct Hb as [Hnd' Hwf'].
    cbn [dumps_sorted]. do 2 f_equal. f_equal. f_equal.
    set (enc := fun kv : string * value => (fst kv, dumps_sorted item_sep key_sep (snd kv))).
    assert (Hkeys : forall l, map fst (map enc l) = map fst l).
    { intros l. rewrite map_map. reflexivity. }
    apply sort_items_canonical; [rewrite Hkeys; exact Hnd|].
    apply NoDup_Permutation_bis.
    + apply (NoDup_map_inv fst). rewrite Hkeys. exact Hnd.
    + rewrite !length_map, Hlen. apply Nat.le_refl.
    + intros ks Hin. apply in_map_iff in Hin. destruct Hin as [kv [<- Hin]].
      rewrite Forall_forall in IH, Hs, Hwf, Hwf'.
      destruct (Hs kv Hin) as [v' [Hl Hsame]].
      apply lookup_In in Hl.
      apply in_map_iff. exists (fst kv, v'). split; [|exact Hl].
      unfold enc. simpl. f_equal. symmetry.
      apply (IH kv Hin v'); [apply (Hwf kv Hin) | apply (Hwf' _ Hl) | exact Hsame].
Qed.

End CanonicalEncoding.

Section IdempotencyKey.
Import activities workflows.

Variable sha256_hex : string -> string.
Variable adapter_invoke : string -> ToolCall -> outcome py.value.
Variable brain : brain_result.
Variable utcnow : nat -> Z.


End IdempotencyKey.


(** Scenario "compensation": the adapter fails on the step's call, the
    step declares a compensation, and the compensation call carries the
    step's key with the suffix. *)
Example compensation_key_scenario :
  let p := workflows.plan_step demo_sha no_brain drain_with_compensation demo_ctx in
  exists e,
    workflows.execute failing_adapter demo_clock false drain_with_compensation p
      fresh_engine
    = workflows.Abort e "boom" /\
    flat_map key_received (workflows.trace e)
    = [ "run-1:drain:13"; "run-1:drain:13-comp" ] /\
    statuses (workflows.trace e)
    = [ ("drain", Some (activities.StatusStr "failed"));
        ("drain", Some (activities.StatusStr "compensated")) ].
Proof.
  cbv zeta. eexists. split; [vm_compute; reflexivity|]. split; vm_compute; reflexivity.
Qed.

(** ** Verification of the audit chain, and appends *)

Section AuditVerify.
Import audit.

Variable hmac_sha256 : string -> string -> string.
Variable secret : string.

Local Abbreviation chain_hash := (audit_chain.chain_hash hmac_sha256 secret).
Local Abbreviation hashes_ok := (audit_chain.hashes_ok hmac_sha256 secret).
Local Abbreviation verify := (verify_audit_chain hmac_sha256 secret).

Lemma verify_from_sound logs : forall idx prev total n,
  verify_from hmac_sha256 secret idx prev logs total = VerifyOk n ->
  hashes_ok prev logs /\ n = total.
Proof.
  induction logs as [|log rest IH]; intros idx prev total n H; simpl in *.
  - inversion H. split; [exact I | reflexivity].
  - rewrite hmac_hash_chain_hash in H.
    destruct (String.eqb_spec (hash log) (chain_hash prev log)) as [E|E]; simpl in H;
      [|discriminate].
    destruct (IH _ _ _ _ H) as [Hok Hn]. repeat split; assumption.
Qed.

Lemma verify_tenant t db : t <> "" ->
  verify (Some t) db
  = verify_from hmac_sha256 secret 0 None (chain t db) (List.length (chain t db)).
Proof.
  intros Ht. unfold verify_audit_chain. rewrite (truthy_str_Some t Ht). reflexivity.
Qed.

(** X1. [verify_audit_chain] answers ok exactly on the sound chains: for
    a tenant, when every entry of the tenant, in order, has the hash of
    its record chained on the hash of the tenant's entry before it, and
    then the count is the number of the tenant's entries; without a
    tenant, the same of the whole table. *)
Theorem verify_ok_iff_hashes (t : string) (db : table) (n : nat) :
  t <> "" ->
  (verify (Some t) db = VerifyOk n <->
   hashes_ok None (chain t db) /\ n = List.length (chain t db)) /\
  (verify None db = VerifyOk n <-> hashes_ok None db /\ n = List.length db).
Proof.
  intros Ht. split.
  - rewrite (verify_tenant t db Ht). split.
    + apply verify_from_sound.
    + intros [Hok ->]. apply verify_from_ok. exact Hok.
  - unfold verify_audit_chain. simpl. split.
    + apply verify_from_sound.
    + intros [Hok ->]. apply verify_from_ok. exact Hok.
Qed.

(** An entry written for another tenant, or for none, leaves the chain
    of a tenant and the verdict of its verification as they were. *)
Lemma write_audit_other_tenant (t : string) (db : table) new_id actor_type actor_id
    tenant_id action resource_type resource_id payload :
  t <> "" -> tenant_id <> Some t ->
  let db' := write_audit hmac_sha256 secret new_id actor_type actor_id tenant_id
                         action resource_type resource_id payload db in
  chain t db' = chain t db /\ verify (Some t) db' = verify (Some t) db.
Proof.
  intros Ht Hne db'.
  destruct (write_audit_chain hmac_sha256 secret db t new_id actor_type actor_id tenant_id
              action resource_type resource_id payload Ht) as [Hother _].
  assert (E : chain t db' = chain t db) by (apply Hother; exact Hne).
  split; [exact E|]. rewrite !(verify_tenant t _ Ht). rewrite E. reflexivity.
Qed.

(** When the chain of a tenant verifies with [n] entries, after an entry
    for the tenant has been appended it verifies with [n + 1]. *)
Lemma write_audit_keeps_verified (t : string) (db : table) (n : nat) new_id actor_type
    actor_id action resource_type resource_id payload :
  t <> "" ->
  verify (Some t) db = VerifyOk n ->
  verify (Some t)
    (write_audit hmac_sha256 secret new_id actor_type actor_id (Some t)
                 action resource_type resource_id payload db)
  = VerifyOk (S n).
Proof.
  intros Ht Hv.
  rewrite (verify_tenant t db Ht) in Hv. apply verify_from_sound in Hv.
  destruct Hv as [Hok ->].
  destruct (write_audit_chain hmac_sha256 secret db t new_id actor_type actor_id (Some t)
              action resource_type resource_id payload Ht) as [_ Hsame].
  destruct (Hsame eq_refl) as [log [Heq [Hprev Hhash]]].
  rewrite (verify_tenant t _ Ht), Heq, length_app. simpl.
  rewrite Nat.add_1_r.
  replace (S (List.length (chain t db))) with (List.length (chain t db ++ [log])%list)
    by (rewrite length_app; simpl; lia).
  rewrite verify_from_ok.
  - rewrite length_app. simpl. rewrite Nat.add_1_r. reflexivity.
  - apply hashes_ok_app; [exact Hok|]. rewrite <- Hprev. exact Hhash.
Qed.

(** X2. What a write does to the verification of a tenant's chain.  An
    entry written for another tenant, or for none, leaves the chain of
    the tenant and the verdict of its verification as they were: tenants
    do not share a chain.  An entry written for the tenant keeps the chain
    verifiable: when it verified with [n] entries it verifies with
    [n + 1]. *)
Theorem write_audit_and_verify (t : string) (db : table) new_id actor_type actor_id
    tenant_id action resource_type resource_id payload :
  t <> "" ->
  let db' := write_audit hmac_sha256 secret new_id actor_type actor_id tenant_id
                         action resource_type resource_id payload db in
  (tenant_id <> Some t ->
   chain t db' = chain t db /\ verify (Some t) db' = verify (Some t) db) /\
  (tenant_id = Some t ->
   forall n, verify (Some t) db = VerifyOk n -> verify (Some t) db' = VerifyOk (S n)).
Proof.
  intros Ht db'. split.
  - intros Hne. apply write_audit_other_tenant; assumption.
  - intros -> n Hv. apply write_audit_keeps_verified; assumption.
Qed.

End AuditVerify.

Lemma verify_ok_iff_hashes_witness :
  "acme" <> "" /\
  audit_chain.hashes_ok demo_hmac "k" None (audit_chain.chain "acme" demo_audit_table).
Proof.
  assert (Hne : "acme" <> "") by discriminate.
  split; [exact Hne|].
  destruct (verify_ok_iff_hashes demo_hmac "k" "acme" demo_audit_table 2 Hne)
    as [[H _] _].
  apply H. vm_compute. reflexivity.
Defined.

Lemma write_audit_and_verify_witness :
  "acme" <> "" /\
  audit.verify_audit_chain demo_hmac "k" (Some "acme")
    (audit.write_audit demo_hmac "k" "id-3" "user" "bo@example.com" (Some "globex")
       "test.action" "test" None None demo_audit_table)
  = audit.VerifyOk 2 /\
  audit.verify_audit_chain demo_hmac "k" (Some "acme")
    (audit.write_audit demo_hmac "k" "id-3" "user" "ana@example.com" (Some "acme")
       "test.action3" "test" (Some "3") None demo_audit_table)
  = audit.VerifyOk 3.
Proof.
  assert (Hne : "acme" <> "") by discriminate.
  split; [exact Hne|]. split.
  - destruct (write_audit_and_verify demo_hmac "k" "acme" demo_audit_table "id-3" "user"
                "bo@example.com" (Some "globex") "test.action" "test" None None Hne)
      as [H _].
    destruct H as [_ H]; [discriminate|]. rewrite H. vm_compute. reflexivity.
  - destruct (write_audit_and_verify demo_hmac "k" "acme" demo_audit_table "id-3" "user"
                "ana@example.com" (Some "acme") "test.action3" "test" (Some "3") None Hne)
      as [_ H].
    apply (H eq_refl 2). vm_compute. reflexivity.
Defined.

(** ** Authorization for any action and resource *)

Section AuthorizeGeneral.
Import rbac.

Variable action resource : string.
Variable tenant : string.
Variable project : option string.

Local Abbreviation holds := (authz.holds tenant project).
Local Abbreviation granted := (authz.granted action resource tenant project).

Lemma authorize_cases subjects db :
  (subjects = [] /\
   authorize action resource tenant project subjects db
   = Raise "401 authentication required") \/
  (subjects <> [] /\ granted db subjects /\
   authorize action resource tenant project subjects db = Ret tt) \/
  (subjects <> [] /\ ~ granted db subjects /\
   authorize action resource tenant project subjects db
   = Raise ("403 permission denied: " ++ action ++ " on " ++ resource)).
Proof.
  unfold authorize.
  destruct subjects as [|s0 rest] eqn:Hsub; [left; auto|]. right.
  rewrite <- Hsub.
  assert (Hne : subjects <> []) by (rewrite Hsub; discriminate).
  pose proof (check_subjects_spec action resource tenant project db subjects)
    as [Hallowed Hrc].
  destruct (check_subjects action resource tenant project db subjects (false, []))
    as [allowed rc] eqn:Hcs.
  simpl in Hallowed, Hrc. fold (granted db subjects) in Hallowed.
  assert (Hspecial :
            String.eqb action "approve" && String.eqb resource "approval" = true ->
            mem "SRE" rc && mem "OnCall" rc = true -> allowed = true).
  { intros Ha H. apply andb_true_iff in Ha. destruct Ha as [Ha Hr].
    apply String.eqb_eq in Ha. apply String.eqb_eq in Hr.
    apply andb_true_iff in H. destruct H as [_ H].
    apply Hallowed. exists "OnCall". split.
    - apply Hrc. apply (mem_In "OnCall" rc). exact H.
    - rewrite Ha, Hr. reflexivity. }
  destruct (String.eqb action "approve" && String.eqb resource "approval") eqn:Hap.
  - destruct (mem "SRE" rc && mem "OnCall" rc) eqn:Hsp.
    + simpl. left. split; [exact Hne|]. split; [|reflexivity].
      apply Hallowed. apply Hspecial; reflexivity.
    + destruct allowed; simpl.
      * left. split; [exact Hne|]. split; [apply Hallowed|]; reflexivity.
      * right. split; [exact Hne|]. split; [|reflexivity].
        intros H. apply Hallowed in H. discriminate.
  - destruct allowed; simpl.
    + left. split; [exact Hne|]. split; [apply Hallowed|]; reflexivity.
    + right. split; [exact Hne|]. split; [|reflexivity].
      intros H. apply Hallowed in H. discriminate.
Qed.

Lemma authorize_grant_iff subjects db :
  authorize action resource tenant project subjects db = Ret tt <->
  subjects <> [] /\ granted db subjects.
Proof.
  destruct (authorize_cases subjects db) as [[H1 H2]|[[H1 [H2 H3]]|[H1 [H2 H3]]]];
    rewrite ?H2, ?H3.
  - split; [discriminate|]. intros [H _]. contradiction.
  - split; auto.
  - split; [discriminate|]. intros [_ H]. contradiction.
Qed.

(** Two binding tables that give the subject the same roles get the same
    answer. *)
Lemma authorize_ext subjects db db' :
  (granted db subjects <-> granted db' subjects) ->
  authorize action resource tenant project subjects db
  = authorize action resource tenant project subjects db'.
Proof.
  intros H.
  destruct (authorize_cases subjects db) as [[H1 H2]|[[H1 [H2 H3]]|[H1 [H2 H3]]]];
  destruct (authorize_cases subjects db') as [[K1 K2]|[[K1 [K2 K3]]|[K1 [K2 K3]]]];
    try contradiction; try congruence; tauto.
Qed.

End AuthorizeGeneral.

(** X3. The three answers of [authorize], for any action and resource.
    401 exactly when the request has no subject.  Let through exactly when
    it has one and some role bound to one of its subjects, in the tenant
    and for the project of the request or for none, has the permission.
    403 exactly when it has one and no such role has. *)
Theorem authorize_three_ways (action resource tenant : string) (project : option string)
    (subjects : list rbac.subject) (db : list rbac.RoleBinding) :
  let answer := rbac.authorize action resource tenant project subjects db in
  let grant := exists r, authz.holds tenant project db subjects r /\
                         rbac._check_permission r action resource = true in
  (answer = Raise "401 authentication required" <-> subjects = []) /\
  (answer = Ret tt <-> subjects <> [] /\ grant) /\
  (answer = Raise ("403 permission denied: " ++ action ++ " on " ++ resource) <->
   subjects <> [] /\ ~ grant).
Proof.
  cbv zeta.
  assert (D1 : Raise "401 authentication required"
               <> (Raise ("403 permission denied: " ++ action ++ " on " ++ resource)
                   : outcome unit)) by (simpl; discriminate).
  destruct (authorize_cases action resource tenant project subjects db)
    as [[H1 H2]|[[H1 [H2 H3]]|[H1 [H2 H3]]]]; rewrite ?H2, ?H3;
    unfold granted in *.
  - split; [tauto|]. split; (split; [intros E; try discriminate E; contradiction|tauto]).
  - split; [split; [discriminate|contradiction]|].
    split; [tauto|]. split; [discriminate|tauto].
  - split; [split; [intros E; symmetry in E; contradiction|contradiction]|].
    split; [split; [discriminate|tauto]|tauto].
Qed.

(** ** Scopes and roles *)

Section AuthorizeMore.
Import rbac.
Import authz.

Lemma bound_in_scope tenant project db s b :
  authz.bound tenant project db s b ->
  in_scope tenant project b = true.
Proof.
  intros [_ [Ht [_ Hp]]]. unfold in_scope. rewrite Ht, String.eqb_refl. simpl.
  destruct Hp as [-> | [Htp Hp]]; [reflexivity|].
  rewrite Hp. destruct project as [p|]; [|discriminate].
  rewrite Htp. simpl. apply String.eqb_refl.
Qed.

Lemma holds_incl tenant project db db' subjects r :
  (forall b, In b db -> in_scope tenant project b = true -> In b db') ->
  authz.holds tenant project db subjects r -> authz.holds tenant project db' subjects r.
Proof.
  intros Hincl [s [b [Hs [Hb Hr]]]]. exists s, b. split; [exact Hs|]. split; [|exact Hr].
  pose proof (bound_in_scope _ _ _ _ _ Hb) as Hsc.
  destruct Hb as [Hin Hrest]. split; [apply Hincl; assumption | exact Hrest].
Qed.

(** X4. Bindings only add permissions: a request that is let through is
    still let through when the table holds more bindings. *)
Theorem authorize_more_bindings (action resource tenant : string) (project : option string)
    (subjects : list subject) (db db' : list RoleBinding) :
  incl db db' ->
  authorize action resource tenant project subjects db = Ret tt ->
  authorize action resource tenant project subjects db' = Ret tt.
Proof.
  intros Hincl H. apply authorize_grant_iff in H. apply authorize_grant_iff.
  destruct H as [Hne [r [Hr Hp]]]. split; [exact Hne|]. exists r. split; [|exact Hp].
  apply (holds_incl tenant project db db'); [|exact Hr].
  intros b Hb _. apply Hincl. exact Hb.
Qed.

(** X5. [authorize] reads the bindings of its own scope only: its answer
    is the one it gives on the table cut down to the bindings of the
    tenant of the request that are for no project or for the project of
    the request.  Bindings of other tenants and of other projects change
    nothing. *)
Theorem authorize_reads_own_scope (action resource tenant : string) (project : option string)
    (subjects : list subject) (db : list RoleBinding) :
  authorize action resource tenant project subjects db
  = authorize action resource tenant project subjects
      (filter (in_scope tenant project) db).
Proof.
  apply authorize_ext. unfold granted. split; intros [r [Hr Hp]]; exists r; (split; [|exact Hp]).
  - apply (holds_incl tenant project db); [|exact Hr].
    intros b Hb Hsc. apply filter_In. auto.
  - apply (holds_incl tenant project (filter (in_scope tenant project) db)); [|exact Hr].
    intros b Hb _. apply filter_In in Hb. tauto.
Qed.

Lemma viewer_permission action resource :
  _check_permission "Viewer" action resource = String.eqb action "read".
Proof.
  unfold _check_permission. simpl. unfold perm_eqb. simpl.
  destruct (String.eqb_spec action "read") as [->|Hne]; simpl.
  - destruct (String.eqb resource "*"); reflexivity.
  - destruct (String.eqb_spec action "*") as [->|H2]; simpl; reflexivity.
Qed.

Lemma unknown_role_permission r action resource :
  ~ In r ["Admin"; "SRE"; "OnCall"; "Viewer"] ->
  _check_permission r action resource = false.
Proof.
  intros H. unfold _check_permission.
  destruct (String.eqb_spec r "Admin") as [->|H1]; [exfalso; apply H; simpl; auto|].
  unfold py.get_default, PERMISSIONS. cbn [py.lookup].
  destruct (String.eqb_spec r "Admin") as [|_]; [contradiction|].
  destruct (String.eqb_spec r "SRE") as [->|H2]; [exfalso; apply H; simpl; auto|].
  destruct (String.eqb_spec r "OnCall") as [->|H3]; [exfalso; apply H; simpl; auto|].
  destruct (String.eqb_spec r "Viewer") as [->|H4]; [exfalso; apply H; simpl; auto|].
  reflexivity.
Qed.

(** X6. A viewer reads and does nothing else: a request whose subjects
    hold the role [Viewer], and beside it only roles that the permission
    matrix does not know, is let through exactly for the action [read],
    on every resource. *)
Theorem viewer_is_read_only (action resource tenant : string) (project : option string)
    (subjects : list subject) (db : list RoleBinding) :
  authz.holds tenant project db subjects "Viewer" ->
  (forall r, authz.holds tenant project db subjects r ->
             r = "Viewer" \/ ~ In r ["Admin"; "SRE"; "OnCall"; "Viewer"]) ->
  (authorize action resource tenant project subjects db = Ret tt <-> action = "read").
Proof.
  intros Hv Honly. rewrite authorize_grant_iff. unfold granted. split.
  - intros [_ [r [Hr Hp]]]. destruct (Honly r Hr) as [->|Hu].
    + rewrite viewer_permission in Hp. apply String.eqb_eq. exact Hp.
    + rewrite unknown_role_permission in Hp by exact Hu. discriminate.
  - intros ->. split.
    + destruct Hv as [s [b [Hs _]]]. intros E. rewrite E in Hs. destruct Hs.
    + exists "Viewer". split; [exact Hv | apply viewer_permission].
Qed.

End AuthorizeMore.

Lemma authorize_more_bindings_witness :
  incl (firstn 1 demo_bindings) demo_bindings /\
  rbac.authorize "read" "runbook" "acme" None [("user", "sre@example.com")] demo_bindings
  = Ret tt.
Proof.
  assert (H : incl (firstn 1 demo_bindings) demo_bindings)
    by (intros b Hb; simpl in Hb; destruct Hb as [<-|[]]; left; reflexivity).
  split; [exact H|].
  apply (authorize_more_bindings "read" "runbook" "acme" None [("user", "sre@example.com")]
           (firstn 1 demo_bindings) demo_bindings H).
  reflexivity.
Defined.

Lemma viewer_is_read_only_witness :
  rbac.authorize "read" "run" "acme" None [("user", "vi@example.com")] viewer_bindings
  = Ret tt /\
  rbac.authorize "execute" "run" "acme" None [("user", "vi@example.com")] viewer_bindings
  <> Ret tt.
Proof.
  assert (H1 : authz.holds "acme" None viewer_bindings [("user", "vi@example.com")] "Viewer").
  { exists ("user", "vi@example.com"). eexists. split; [left; reflexivity|].
    split; [split; [left; reflexivity|]|reflexivity].
    split; [reflexivity|]. split; [reflexivity|]. left. reflexivity. }
  assert (H2 : forall r,
             authz.holds "acme" None viewer_bindings [("user", "vi@example.com")] r ->
             r = "Viewer" \/ ~ In r ["Admin"; "SRE"; "OnCall"; "Viewer"]).
  { intros r [s [b [_ [[Hin _] Hr]]]]. left. destruct Hin as [<-|[]]. symmetry. exact Hr. }
  split.
  - apply (viewer_is_read_only "read" "run" "acme" None _ _ H1 H2). reflexivity.
  - intros H. apply (viewer_is_read_only "execute" "run" "acme" None _ _ H1 H2) in H.
    discriminate.
Defined.

(** ** The tokens of an expression *)

Section Tokenizer.
Import policy_engine.

Lemma str_of_length l : String.length (str_of l) = List.length l.
Proof.
  unfold str_of. induction l as [|c l IH]; simpl; [reflexivity | f_equal; exact IH].
Qed.

Lemma str_of_inj l l' : str_of l = str_of l' -> l = l'.
Proof.
  unfold str_of. intros H.
  rewrite <- (list_ascii_of_string_of_list_ascii l),
          <- (list_ascii_of_string_of_list_ascii l'), H. reflexivity.
Qed.

Lemma scan_ident_app s : forall t rest, scan_ident s = (t, rest) -> s = (t ++ rest)%list.
Proof.
  induction s as [|c r IH]; intros t rest H; simpl in H.
  - inversion H. reflexivity.
  - destruct (is_ident_char c).
    + destruct (scan_ident r) as [t' rest'] eqn:E. inversion H; subst.
      simpl. f_equal. apply IH. reflexivity.
    + inversion H. reflexivity.
Qed.

Lemma scan_string_suffix q : forall n s t rest,
  List.length s <= n ->
  scan_string q s = (t, rest) -> exists pre, s = (pre ++ rest)%list.
Proof.
  induction n as [|n IH]; intros s t rest Hlen H.
  - destruct s; [|simpl in Hlen; lia]. inversion H. exists []. reflexivity.
  - destruct s as [|c r]; simpl in H.
    + inversion H. exists []. reflexivity.
    + simpl in Hlen. destruct (Ascii.eqb c q).
      * inversion H; subst. exists [c]. reflexivity.
      * destruct (Ascii.eqb c "\"%char).
        -- destruct r as [|c2 r2].
           ++ inversion H; subst. exists [c]. reflexivity.
           ++ destruct (scan_string q r2) as [t' rest'] eqn:E. inversion H; subst.
              destruct (IH r2 _ _ ltac:(simpl in Hlen; lia) E) as [pre Hp].
              exists (c :: c2 :: pre). simpl. rewrite Hp. reflexivity.
        -- destruct (scan_string q r) as [t' rest'] eqn:E. inversion H; subst.
           destruct (IH r _ _ ltac:(lia) E) as [pre Hp].
           exists (c :: pre). simpl. rewrite Hp. reflexivity.
Qed.

Lemma In_firstn {A : Type} (x : A) n l : In x (firstn n l) -> In x l.
Proof.
  intros H. rewrite <- (firstn_skipn n l). apply in_or_app. left. exact H.
Qed.

Lemma In_skipn {A : Type} (x : A) n l : In x (skipn n l) -> In x l.
Proof.
  intros H. rewrite <- (firstn_skipn n l). apply in_or_app. right. exact H.
Qed.

Lemma in_strs_In s l : in_strs s l = true <-> In s l.
Proof.
  unfold in_strs. rewrite existsb_exists. split.
  - intros [y [Hy E]]. apply String.eqb_eq in E. subst. exact Hy.
  - intros H. exists s. split; [exact H | apply String.eqb_refl].
Qed.

Lemma not_in_never (s : chars) : String.eqb (str_of (firstn 5 s)) "not in" = false.
Proof.
  apply String.eqb_neq. intros E.
  apply (f_equal String.length) in E. rewrite str_of_length in E.
  change (String.length "not in") with 6 in E.
  pose proof (firstn_le_length 5 s). lia.
Qed.

(** What one iteration appends. *)
Lemma tokenize_step_token s tokens s' tokens' :
  tokenize_step s tokens = (s', tokens') ->
  tokens' = tokens \/
  exists tok, tokens' = (tokens ++ [tok])%list /\ tok <> "in" /\ tok <> "not in".
Proof.
  unfold tokenize_step. destruct s as [|c r]; [intros H; inversion H; auto|].
  destruct (isspace c); [intros H; inversion H; auto|].
  destruct (in_strs (str_of (firstn 2 (c :: r))) ["=="; "!="; "<="; ">="; "in"; "not"]) eqn:Hop.
  - rewrite not_in_never.
    destruct (in_strs (str_of (firstn 2 (c :: r))) ["=="; "!="; "<="; ">="]) eqn:H2.
    + intros H; inversion H; subst. right. eexists. split; [reflexivity|].
      apply in_strs_In in H2. simpl in H2.
      destruct H2 as [<-|[<-|[<-|[<-|[]]]]]; split; discriminate.
    + intros H; inversion H; subst. right. eexists. split; [reflexivity|].
      split; discriminate.
  - destruct (in_strs (str_of [c]) ["="; "<"; ">"; "("; ")"; "&"; "|"]).
    + intros H; inversion H; subst. right. eexists. split; [reflexivity|].
      split; discriminate.
    + destruct (is_quote c) eqn:Hq.
      * destruct (scan_string c r) as [t rest]. intros H; inversion H; subst.
        right. eexists. split; [reflexivity|].
        split; intros E; simpl in E; inversion E; subst; discriminate Hq.
      * destruct (scan_ident (c :: r)) as [t rest] eqn:Hsc.
        intros H; inversion H; subst. right. eexists. split; [reflexivity|].
        pose proof (scan_ident_app _ _ _ Hsc) as Happ.
        split; intros E.
        -- change "in" with (str_of ["i"; "n"]%char) in E. apply str_of_inj in E.
           subst t. rewrite Happ in Hop. simpl in Hop. discriminate.
        -- change "not in" with (str_of ["n"; "o"; "t"; " "; "i"; "n"]%char) in E.
           apply str_of_inj in E. subst t. rewrite Happ in Hsc.
           simpl in Hsc. inversion Hsc.
Qed.

Lemma tokenize_loop_tokens fuel : forall s tokens r,
  tokenize_loop fuel s tokens = Some r ->
  (~ In "in" tokens /\ ~ In "not in" tokens) ->
  ~ In "in" r /\ ~ In "not in" r.
Proof.
  induction fuel as [|fuel IH]; intros s tokens r H Hfree.
  - destruct s; simpl in H; [inversion H; subst; exact Hfree | discriminate].
  - destruct s as [|c s']; [simpl in H; inversion H; subst; exact Hfree|].
    cbn [tokenize_loop] in H.
    destruct (tokenize_step (c :: s') tokens) as [s'' tokens''] eqn:Hstep.
    apply (IH _ _ _ H).
    destruct (tokenize_step_token _ _ _ _ Hstep) as [->|[tok [-> [H1 H2]]]]; [exact Hfree|].
    destruct Hfree as [F1 F2].
    split; intros Hin; apply in_app_or in Hin; destruct Hin as [Hin|[Hin|[]]];
      try contradiction; congruence.
Qed.

(** X7. [_tokenize] never yields the token [in] nor the token [not in]:
    at an [i] followed by [n] it emits the single character, and its test
    for [not in] compares five characters with a string of six.  So among
    the tokens of an expression the only operators that the evaluator
    finds are [==] and [!=]: the membership tests of the evaluator are out
    of reach of every expression. *)
Theorem tokenize_has_no_membership (fuel : nat) (expr : string) (tokens : list string) :
  _tokenize fuel expr = Some tokens ->
  ~ In "in" tokens /\ ~ In "not in" tokens /\
  (forall i op, op_at tokens i = Some op -> op = OpEq \/ op = OpNe).
Proof.
  intros H. unfold _tokenize in H.
  destruct (tokenize_loop_tokens _ _ _ _ H) as [H1 H2]; [split; intros []|].
  split; [exact H1|]. split; [exact H2|].
  intros i op. unfold op_at.
  destruct (String.eqb (nth i tokens "") "=="); [intros E; inversion E; auto|].
  destruct (String.eqb (nth i tokens "") "!="); [intros E; inversion E; auto|].
  destruct (Nat.ltb_spec i (List.length tokens - 1)) as [Hlt|Hge]; simpl; [|discriminate].
  assert (Hnth : nth i tokens "" <> "in").
  { intros E. apply H1. rewrite <- E. apply nth_In. lia. }
  assert (Hsl : match slice i (i + 2) tokens with
                | [a; b] => String.eqb a "not" && String.eqb b "in"
                | _ => false
                end = false).
  { unfold slice.
    destruct (firstn (i + 2 - i) (skipn i tokens)) as [|a [|b [|x l]]] eqn:E; try reflexivity.
    destruct (String.eqb_spec b "in") as [->|]; [|apply andb_false_r].
    exfalso. apply H1.
    assert (Hin : In "in" (firstn (i + 2 - i) (skipn i tokens)))
      by (rewrite E; right; left; reflexivity).
    apply (In_skipn _ i). apply In_firstn in Hin. exact Hin. }
  rewrite Hsl.
  destruct (String.eqb_spec (nth i tokens "") "in"); [contradiction|discriminate].
Qed.

End Tokenizer.

Lemma tokenize_has_no_membership_witness :
  policy_engine._tokenize 100 "step.tool in context.tools"
  = Some ["step.tool"; "i"; "n"; "context.tools"] /\
  ~ In "in" ["step.tool"; "i"; "n"; "context.tools"].
Proof.
  assert (H : policy_engine._tokenize 100 "step.tool in context.tools"
              = Some ["step.tool"; "i"; "n"; "context.tools"]) by reflexivity.
  split; [exact H|].
  apply (tokenize_has_no_membership 100 "step.tool in context.tools" _ H).
Defined.

(** ** Termination of the tokenizer *)

Section TokenizerTerminates.
Import policy_engine.
Import rules.

Lemma tokenizable_suffix (pre : chars) : forall s,
  tokenizable (pre ++ s)%list = true -> tokenizable s = true.
Proof.
  induction pre as [|c pre IH]; intros s H; [exact H|].
  simpl in H. apply andb_true_iff in H. apply IH. tauto.
Qed.

(** An iteration on a tokenizable rest consumes at least one character. *)
Lemma tokenize_step_progress c r tokens s' tokens' :
  tokenizable (c :: r) = true ->
  tokenize_step (c :: r) tokens = (s', tokens') ->
  exists pre, r = (pre ++ s')%list.
Proof.
  intros Hok. unfold tokenize_step.
  destruct (isspace c) eqn:Hsp; [intros H; inversion H; subst; exists []; reflexivity|].
  destruct (in_strs (str_of (firstn 2 (c :: r))) ["=="; "!="; "<="; ">="; "in"; "not"]) eqn:Hop.
  - rewrite not_in_never.
    destruct (in_strs (str_of (firstn 2 (c :: r))) ["=="; "!="; "<="; ">="]) eqn:H2.
    + intros H; inversion H; subst.
      destruct r as [|c2 r2]; [|exists [c2]; reflexivity].
      apply in_strs_In in H2. simpl in H2.
      destruct H2 as [E|[E|[E|[E|[]]]]]; discriminate E.
    + intros H; inversion H; subst. exists []. reflexivity.
  - destruct (in_strs (str_of [c]) ["="; "<"; ">"; "("; ")"; "&"; "|"]) eqn:Hs1.
    + intros H; inversion H; subst. exists []. reflexivity.
    + destruct (is_quote c) eqn:Hq.
      * destruct (scan_string c r) as [t rest] eqn:Hsc. intros H; inversion H; subst.
        apply (scan_string_suffix c (List.length r) r t s' (Nat.le_refl _) Hsc).
      * assert (Hid : is_ident_char c = true).
        { simpl in Hok. apply andb_true_iff in Hok. destruct Hok as [Hc _].
          unfold handled in Hc. rewrite Hsp, Hs1, Hq in Hc. simpl in Hc.
          apply orb_true_iff in Hc. destruct Hc as [Hc|Hc]; [exact Hc|].
          apply andb_true_iff in Hc. destruct Hc as [Hc1 Hc2].
          apply Ascii.eqb_eq in Hc1. subst c.
          destruct r as [|c2 r2]; [discriminate|].
          apply Ascii.eqb_eq in Hc2. subst c2. simpl in Hop. discriminate. }
        cbn [scan_ident]. rewrite Hid.
        destruct (scan_ident r) as [t rest] eqn:Hsc. intros H; inversion H; subst.
        exists t. apply scan_ident_app. exact Hsc.
Qed.

Lemma tokenize_loop_terminates fuel : forall s tokens,
  tokenizable s = true -> List.length s <= fuel ->
  exists r, tokenize_loop fuel s tokens = Some r.
Proof.
  induction fuel as [|fuel IH]; intros s tokens Hok Hlen.
  - destruct s; [eexists; reflexivity | simpl in Hlen; lia].
  - destruct s as [|c r]; [eexists; reflexivity|].
    cbn [tokenize_loop].
    destruct (tokenize_step (c :: r) tokens) as [s' tokens'] eqn:Hstep.
    destruct (tokenize_step_progress _ _ _ _ _ Hok Hstep) as [pre Hpre].
    apply IH.
    + apply (tokenizable_suffix (c :: pre)). simpl. rewrite <- Hpre. exact Hok.
    + simpl in Hlen. rewrite Hpre, length_app in Hlen. lia.
Qed.

(** X8. [_tokenize] returns on every expression each of whose characters
    opens one of its cases: white space, one of [= < > ( ) & |], a quote,
    a letter, a digit, a dot or an underscore, or a [!] followed by [=].
    It then takes at most one iteration for each character, and a larger
    bound gives the same tokens. *)
Theorem tokenize_terminates (expr : string) (fuel : nat) :
  tokenizable (list_ascii_of_string expr) = true ->
  String.length expr <= fuel ->
  exists tokens, _tokenize fuel expr = Some tokens /\
                 _tokenize (String.length expr) expr = Some tokens.
Proof.
  intros Hok Hlen. unfold _tokenize.
  assert (Hl : List.length (list_ascii_of_string expr) = String.length expr).
  { rewrite <- (string_of_list_ascii_of_string expr) at 2.
    symmetry. apply str_of_length. }
  destruct (tokenize_loop_terminates (String.length expr) _ [] Hok) as [r Hr];
    [rewrite Hl; apply Nat.le_refl|].
  exists r. split; [|exact Hr].
  apply (tokenize_loop_mono _ _ _ _ _ Hr Hlen).
Qed.

End TokenizerTerminates.

Lemma tokenize_terminates_witness :
  exists tokens,
    policy_engine._tokenize 100 "context.env == 'prod' and (step.tool != 'k8s.drain')"
    = Some tokens /\
    tokens = ["context.env"; "=="; "'prod'"; "and"; "("; "step.tool"; "!="; "'k8s.drain'"; ")"].
Proof.
  destruct (tokenize_terminates "context.env == 'prod' and (step.tool != 'k8s.drain')" 100)
    as [tokens [H _]]; [reflexivity | simpl; lia |].
  exists tokens. split; [exact H|]. vm_compute in H. inversion H. reflexivity.
Defined.

(** ** First match *)

Section DecideFirstMatch.
Import policy_engine.

Variable fuel : nat.
Variable step context : py.dict.

Local Abbreviation stuck := (rules.stuck fuel step).
Local Abbreviation decided := (rules.decided fuel step context).

Lemma rule_cases prec :
  passed fuel step context prec \/ fires fuel step context prec \/ stuck prec.
Proof.
  unfold passed, fires, stuck.
  destruct (applicable prec step); [|auto].
  destruct (_tokenize fuel (when prec)) as [tokens|] eqn:Ht; [|auto].
  destruct (_eval_expr tokens context step) as [[|]| |] eqn:He.
  - right. left. split; [reflexivity|]. exists tokens. auto.
  - left. right. exists tokens. split; [reflexivity|]. rewrite He. discriminate.
  - left. right. exists tokens. split; [reflexivity|]. rewrite He. discriminate.
  - left. right. exists tokens. split; [reflexivity|]. rewrite He. discriminate.
Qed.

Lemma decide_stuck pre : forall prec post,
  Forall (passed fuel step context) pre -> stuck prec ->
  decide fuel (pre ++ prec :: post) step context = None.
Proof.
  induction pre as [|p pre IH]; intros prec post Hpre [Ha Ht].
  - cbn [app decide]. unfold applicable in Ha. apply negb_true_iff in Ha.
    rewrite Ha, Ht. reflexivity.
  - inversion Hpre; subst. rewrite <- app_comm_cons.
    rewrite decide_passed by assumption. apply IH; [assumption | split; assumption].
Qed.

Lemma decide_decided preconditions :
  decided preconditions (decide fuel preconditions step context).
Proof.
  induction preconditions as [|p rest IH].
  - apply decided_none. constructor.
  - destruct (rule_cases p) as [Hp|[Hf|Hs]].
    + rewrite decide_passed by exact Hp.
      inversion IH as [Hall E|pre prec post E Hpre Hfire E2|pre prec post E Hpre Hst E2].
      * apply decided_none. constructor; assumption.
      * apply (decided_first _ (p :: pre) prec post).
        -- rewrite E. reflexivity.
        -- constructor; assumption.
        -- exact Hfire.
      * apply (decided_stuck _ (p :: pre) prec post).
        -- rewrite E. reflexivity.
        -- constructor; assumption.
        -- exact Hst.
    + rewrite (decide_first fuel step context [] p rest (Forall_nil _) Hf : decide fuel (p :: rest) step context = _).
      apply (decided_first _ [] p rest); [reflexivity|constructor|exact Hf].
    + rewrite (decide_stuck [] p rest (Forall_nil _) Hs : decide fuel (p :: rest) step context = _).
      apply (decided_stuck _ [] p rest); [reflexivity|constructor|exact Hs].
Qed.

Lemma decide_applicable preconditions :
  decide fuel preconditions step context
  = decide fuel (filter (fun p => applicable p step) preconditions) step context.
Proof.
  induction preconditions as [|p rest IH]; [reflexivity|].
  cbn [filter]. destruct (applicable p step) eqn:Ha.
  - cbn [decide]. rewrite IH. reflexivity.
  - rewrite decide_passed by (left; exact Ha). exact IH.
Qed.

End DecideFirstMatch.

(** X9. [decide] is first-match over the rules that apply to the step.
    It answers the [then] of a rule exactly when that rule fires and every
    rule before it is passed over (it is for another step, or its [when]
    is falsy or raises); it answers nothing exactly when every rule is
    passed over; it has no answer exactly when the tokenizer is caught in
    its loop on a rule that applies, every rule before being passed over.
    The rules for other steps can be left out without changing the
    answer. *)
Theorem decide_first_match (fuel : nat) (preconditions : list policy_engine.precondition)
    (step context : py.dict) :
  let answer := policy_engine.decide fuel preconditions step context in
  (forall d, answer = Some (Some d) <->
     exists pre prec post,
       preconditions = (pre ++ prec :: post)%list /\
       Forall (passed fuel step context) pre /\
       fires fuel step context prec /\ policy_engine.then_ prec = d) /\
  (answer = Some None <-> Forall (passed fuel step context) preconditions) /\
  (answer = None <->
     exists pre prec post,
       preconditions = (pre ++ prec :: post)%list /\
       Forall (passed fuel step context) pre /\ stuck fuel step prec) /\
  answer = policy_engine.decide fuel
             (filter (fun p => applicable p step) preconditions) step context.
Proof.
  cbv zeta. split; [|split; [|split]].
  - intros d. split.
    + intros H. pose proof (decide_decided fuel step context preconditions) as D.
      rewrite H in D. inversion D as [|pre prec post E Hpre Hfire E2|]; subst.
      exists pre, prec, post. auto.
    + intros [pre [prec [post [-> [Hpre [Hfire <-]]]]]]. apply decide_first; assumption.
  - split.
    + intros H. pose proof (decide_decided fuel step context preconditions) as D.
      rewrite H in D. inversion D. assumption.
    + apply decide_none.
  - split.
    + intros H. pose proof (decide_decided fuel step context preconditions) as D.
      rewrite H in D. inversion D as [| |pre prec post E Hpre Hst]; subst.
      exists pre, prec, post. auto.
    + intros [pre [prec [post [-> [Hpre Hst]]]]]. apply decide_stuck; assumption.
  - apply decide_applicable.
Qed.

(** ** Comparisons and connectives *)

Section EvalComparisons.
Import policy_engine.
Import rules.

Variable context step : py.dict.

Lemma operand_eqb tok : operand tok ->
  String.eqb tok "(" = false /\ String.eqb tok ")" = false /\
  String.eqb tok "==" = false /\ String.eqb tok "!=" = false /\
  String.eqb tok "in" = false /\ String.eqb tok "not" = false /\
  String.eqb tok "and" = false /\ String.eqb tok "or" = false.
Proof.
  unfold operand. simpl. intros H.
  repeat split; apply String.eqb_neq; intros E; apply H; subst; tauto.
Qed.

Lemma operand_bool b : operand (str_of_bool b).
Proof. destruct b; unfold operand; simpl; intuition discriminate. Qed.

Lemma operand_plain tok : operand tok -> plain tok.
Proof. unfold operand, plain. simpl. tauto. Qed.

Lemma connective_plain k : plain (connective_token k).
Proof. destruct k; unfold plain; simpl; intuition discriminate. Qed.

Lemma plain_eqb tok : plain tok ->
  String.eqb tok "==" = false /\ String.eqb tok "!=" = false /\
  String.eqb tok "in" = false /\ String.eqb tok "not" = false.
Proof.
  unfold plain. simpl. intros H.
  repeat split; apply String.eqb_neq; intros E; apply H; subst; tauto.
Qed.

Lemma operand_comparison o : String.eqb (comparison_token o) "(" = false /\
  String.eqb (comparison_token o) ")" = false.
Proof. destruct o; split; reflexivity. Qed.

Lemma parse_bool b : _parse_value (str_of_bool b) context step = Ret (py.PBool b).
Proof. destruct b; reflexivity. Qed.

(** No parenthesis: the scan finds no group. *)
Lemma scan_parens_flat tokens : forall i lvl ps,
  Forall (fun t => String.eqb t "(" = false /\ String.eqb t ")" = false) tokens ->
  scan_parens tokens i lvl ps = Level lvl.
Proof.
  induction tokens as [|t r IH]; intros i lvl ps H; [reflexivity|].
  inversion H as [|? ? [H1 H2] Hr]; subst. cbn [scan_parens]. rewrite H1, H2.
  apply IH. exact Hr.
Qed.

Lemma op_at_plain tokens i :
  plain (nth i tokens "") ->
  String.eqb (nth (S i) tokens "") "in" = false ->
  op_at tokens i = None.
Proof.
  intros Ho Hn. apply plain_eqb in Ho.
  destruct Ho as [H1 [H2 [H3 H4]]].
  unfold op_at. rewrite H1, H2, H3.
  replace (match slice i (i + 2) tokens with
           | [a; b] => String.eqb a "not" && String.eqb b "in"
           | _ => false
           end) with false; [rewrite !andb_false_r; reflexivity|].
  unfold slice. replace (i + 2 - i) with 2 by lia.
  revert i H1 H2 H3 H4 Hn. induction tokens as [|t r IH]; intros i H1 H2 H3 H4 Hn.
  - destruct i; reflexivity.
  - destruct i as [|i].
    + simpl in *. destruct r as [|t2 [|t3 r]]; try reflexivity; simpl in *;
        rewrite H4; reflexivity.
    + simpl. apply IH; assumption.
Qed.

Lemma op_at_comparison tokens i o :
  nth i tokens "" = comparison_token o ->
  op_at tokens i = Some (match o with Equal => OpEq | Differs => OpNe end).
Proof.
  intros H. unfold op_at. rewrite H. destruct o; reflexivity.
Qed.

(** One round of the comparison loop on [pre ++ a o b ++ post] when no
    operator stands in [pre]. *)
Lemma reduce_round fuel pre a o b post x y :
  Forall plain pre -> plain a ->
  _parse_value a context step = Ret x -> _parse_value b context step = Ret y ->
  reduce_comparisons (S fuel) (pre ++ a :: comparison_token o :: b :: post)%list context step
  = reduce_comparisons fuel (pre ++ str_of_bool (compare o x y) :: post)%list context step.
Proof.
  intros Hpre Ha Hx Hy. cbn [reduce_comparisons].
  set (tokens := (pre ++ a :: comparison_token o :: b :: post)%list).
  assert (Hlen : List.length tokens = List.length pre + 3 + List.length post).
  { subst tokens. rewrite length_app. simpl. lia. }
  assert (Hop : first_op tokens 0 (List.length tokens)
                = Some (S (List.length pre),
                        match o with Equal => OpEq | Differs => OpNe end)).
  { assert (G : forall k i, i + k = S (List.length pre) -> 
                first_op tokens i (k + 2 + List.length post)
                = Some (S (List.length pre),
                        match o with Equal => OpEq | Differs => OpNe end)).
    { induction k as [|k IHk]; intros i Hi.
      - rewrite Nat.add_0_r in Hi. subst i. cbn [Nat.add first_op].
        rewrite (op_at_comparison tokens (S (List.length pre)) o); [reflexivity|].
        subst tokens. rewrite app_nth2 by lia.
        replace (S (List.length pre) - List.length pre) with 1 by lia. reflexivity.
      - cbn [Nat.add first_op]. rewrite op_at_plain.
        + apply IHk. lia.
        + subst tokens. destruct (Nat.eq_dec i (List.length pre)) as [->|Hne].
          * rewrite app_nth2 by lia. rewrite Nat.sub_diag. exact Ha.
          * rewrite app_nth1 by lia. rewrite Forall_forall in Hpre. apply Hpre.
            apply nth_In. lia.
        + subst tokens. destruct (Nat.eq_dec (S i) (List.length pre)) as [E|Hne].
          * rewrite app_nth2 by lia. rewrite E, Nat.sub_diag. simpl.
            apply plain_eqb in Ha. tauto.
          * destruct (Nat.eq_dec i (List.length pre)) as [->|Hne2].
            -- rewrite app_nth2 by lia.
               replace (S (List.length pre) - List.length pre) with 1 by lia.
               destruct o; reflexivity.
            -- rewrite app_nth1 by lia.
               assert (Ho : plain (nth (S i) pre "")).
               { rewrite Forall_forall in Hpre. apply Hpre. apply nth_In. lia. }
               apply plain_eqb in Ho. tauto. }
    rewrite Hlen. replace (List.length pre + 3 + List.length post)
      with (S (List.length pre) + 2 + List.length post) by lia.
    apply G. lia. }
  rewrite Hop.
  assert (Hi0 : Nat.eqb (S (List.length pre)) 0 = false) by reflexivity.
  assert (Hi1 : Nat.eqb (S (List.length pre)) (List.length tokens - 1) = false)
    by (apply Nat.eqb_neq; lia).
  assert (Hl : nth (S (List.length pre) - 1) tokens "" = a).
  { subst tokens. rewrite app_nth2 by lia.
    replace (S (List.length pre) - 1 - List.length pre) with 0 by lia. reflexivity. }
  assert (Hr : nth (S (List.length pre) + 1) tokens "" = b).
  { subst tokens. rewrite app_nth2 by lia.
    replace (S (List.length pre) + 1 - List.length pre) with 2 by lia. reflexivity. }
  assert (Hnew : (firstn (S (List.length pre) - 1) tokens ++
                  [str_of_bool (compare o x y)] ++
                  skipn (S (List.length pre) + 2) tokens)%list
                 = (pre ++ str_of_bool (compare o x y) :: post)%list).
  { subst tokens. cbn [app].
    replace (S (List.length pre) - 1) with (List.length pre + 0) by lia.
    rewrite firstn_app_2. cbn [firstn]. rewrite app_nil_r.
    replace (S (List.length pre) + 2) with (List.length pre + 3) by lia.
    rewrite skipn_app, skipn_all2 by lia.
    replace (List.length pre + 3 - List.length pre) with 3 by lia. reflexivity. }
  destruct o; cbn [compare] in *; rewrite Hi0, Hi1, Hl, Hr, Hx, Hy; cbn [orb bind];
    rewrite Hnew; reflexivity.
Qed.

(** When no operator is left, the loop hands the tokens on. *)
Lemma reduce_done fuel tokens :
  Forall (fun t => String.eqb t "==" = false /\ String.eqb t "!=" = false /\
                   String.eqb t "in" = false) tokens ->
  reduce_comparisons (S fuel) tokens context step = Tokens tokens.
Proof.
  intros H. cbn [reduce_comparisons].
  assert (G : forall k i, first_op tokens i k = None).
  { induction k as [|k IHk]; intros i; [reflexivity|].
    cbn [first_op].
    assert (Ho : op_at tokens i = None).
    { unfold op_at.
      assert (Hn : forall j, String.eqb (nth j tokens "") "==" = false /\
                             String.eqb (nth j tokens "") "!=" = false /\
                             String.eqb (nth j tokens "") "in" = false).
      { intros j. destruct (Nat.lt_ge_cases j (List.length tokens)) as [Hj|Hj].
        - rewrite Forall_forall in H. apply H. apply nth_In. exact Hj.
        - rewrite nth_overflow by exact Hj. repeat split. }
      destruct (Hn i) as [H1 [H2 H3]]. rewrite H1, H2, H3, andb_false_r.
      replace (match slice i (i + 2) tokens with
               | [a; b] => String.eqb a "not" && String.eqb b "in"
               | _ => false
               end) with false; [rewrite andb_false_r; reflexivity|].
      unfold slice. replace (i + 2 - i) with 2 by lia.
      destruct (skipn i tokens) as [|t1 [|t2 r]] eqn:E; try reflexivity.
      assert (Ht2 : String.eqb t2 "in" = false).
      { rewrite Forall_forall in H. apply H.
        apply (In_skipn _ i). rewrite E. right. left. reflexivity. }
      simpl. destruct r; rewrite Ht2, andb_false_r; reflexivity. }
    rewrite Ho. apply IHk. }
  rewrite G. reflexivity.
Qed.

Lemma eval_flat tokens tokens' :
  tokens <> [] ->
  Forall (fun t => String.eqb t "(" = false /\ String.eqb t ")" = false) tokens ->
  reduce_comparisons (S (List.length tokens)) tokens context step = Tokens tokens' ->
  _eval_expr tokens context step
  = match eval_connectives tokens' context step with
    | Ret b => Value b
    | Raise e => Exception e
    end.
Proof.
  intros Hne Hflat Hred. unfold _eval_expr. cbn [eval_expr_fuel].
  destruct tokens as [|t r]; [contradiction|].
  rewrite (scan_parens_flat _ 0 0%Z 0 Hflat). cbn [Z.eqb negb].
  rewrite Hred. reflexivity.
Qed.

Lemma comparison_flat o :
  String.eqb (comparison_token o) "(" = false /\
  String.eqb (comparison_token o) ")" = false.
Proof. destruct o; split; reflexivity. Qed.

Lemma operand_flat tok : operand tok ->
  String.eqb tok "(" = false /\ String.eqb tok ")" = false.
Proof. intros H. apply operand_eqb in H. tauto. Qed.

Lemma bool_quiet b :
  String.eqb (str_of_bool b) "==" = false /\ String.eqb (str_of_bool b) "!=" = false /\
  String.eqb (str_of_bool b) "in" = false.
Proof. destruct b; repeat split. Qed.

Lemma connective_flat k :
  String.eqb (connective_token k) "(" = false /\
  String.eqb (connective_token k) ")" = false.
Proof. destruct k; split; reflexivity. Qed.

Lemma connective_quiet k :
  String.eqb (connective_token k) "==" = false /\
  String.eqb (connective_token k) "!=" = false /\
  String.eqb (connective_token k) "in" = false.
Proof. destruct k; repeat split. Qed.

Ltac each_token :=
  repeat (apply Forall_cons;
          [first [ apply operand_flat; assumption | apply comparison_flat
                 | apply connective_flat | apply bool_quiet | apply connective_quiet
                 | apply operand_plain; apply operand_bool | apply connective_plain ]|]);
  apply Forall_nil.

(** One comparison. *)
Lemma eval_one_comparison (o : comparison) (a b : string) (x y : py.value) :
  operand a -> operand b ->
  _parse_value a context step = Ret x -> _parse_value b context step = Ret y ->
  _eval_expr [a; comparison_token o; b] context step = Value (compare o x y).
Proof.
  intros Ha Hb Hx Hy.
  rewrite (eval_flat _ [str_of_bool (compare o x y)]).
  - cbn [eval_connectives index_of].
    destruct (compare o x y); reflexivity.
  - discriminate.
  - each_token.
  - cbn [List.length].
    rewrite (reduce_round _ [] a o b [] x y (Forall_nil _) (operand_plain _ Ha) Hx Hy).
    cbn [app]. apply reduce_done. each_token.
Qed.

Lemma eval_two_comparisons (k : connective) (o1 o2 : comparison) (a b c d : string)
    (x y z w : py.value) :
  operand a -> operand b -> operand c -> operand d ->
  _parse_value a context step = Ret x -> _parse_value b context step = Ret y ->
  _parse_value c context step = Ret z -> _parse_value d context step = Ret w ->
  _eval_expr [a; comparison_token o1; b; connective_token k;
              c; comparison_token o2; d] context step
  = Value (connect k (compare o1 x y) (compare o2 z w)).
Proof.
  intros Ha Hb Hc Hd Hx Hy Hz Hw.
  rewrite (eval_flat _ [str_of_bool (compare o1 x y); connective_token k;
                        str_of_bool (compare o2 z w)]).
  - destruct k; cbn [connective_token eval_connectives index_of connect];
      destruct (compare o1 x y), (compare o2 z w); reflexivity.
  - discriminate.
  - each_token.
  - cbn [List.length].
    etransitivity;
      [exact (reduce_round 7 [] a o1 b [connective_token k; c; comparison_token o2; d]
                x y (Forall_nil _) (operand_plain _ Ha) Hx Hy)|].
    etransitivity;
      [apply (reduce_round 6 [str_of_bool (compare o1 x y); connective_token k]
                c o2 d [] z w); [each_token|apply operand_plain; exact Hc|exact Hz|exact Hw]|].
    apply reduce_done. each_token.
Qed.

(** X10. What the evaluator computes on the expressions that the policies
    write: [a == b] and [a != b] compare the values of the two operands
    with Python's equality, and two such comparisons joined by [and] or
    [or] give the conjunction or the disjunction of the two results.  An
    operand is a token that parses to a value: a literal or a dotted path
    into the context or the step. *)
Theorem eval_comparisons (k : connective) (o1 o2 : comparison) (a b c d : string)
    (x y z w : py.value) :
  operand a -> operand b -> operand c -> operand d ->
  _parse_value a context step = Ret x -> _parse_value b context step = Ret y ->
  _parse_value c context step = Ret z -> _parse_value d context step = Ret w ->
  _eval_expr [a; comparison_token o1; b] context step = Value (compare o1 x y) /\
  _eval_expr [a; comparison_token o1; b; connective_token k;
              c; comparison_token o2; d] context step
  = Value (connect k (compare o1 x y) (compare o2 z w)).
Proof.
  intros Ha Hb Hc Hd Hx Hy Hz Hw. split.
  - apply eval_one_comparison; assumption.
  - apply eval_two_comparisons; assumption.
Qed.

End EvalComparisons.

Lemma eval_comparisons_witness :
  policy_engine._eval_expr
    ["context.env"; "=="; "'prod'"; "and"; "step.tool"; "!="; "'k8s.drain'"]
    prod_context drain_step
  = policy_engine.Value true.
Proof.
  assert (Hop : forall tok, In tok ["context.env"; "'prod'"; "step.tool"; "'k8s.drain'"] ->
                            operand tok).
  { intros tok Hin. unfold operand. simpl in Hin. simpl.
    intuition (subst; discriminate). }
  apply (eval_comparisons prod_context drain_step And Equal Differs
           "context.env" "'prod'" "step.tool" "'k8s.drain'"
           (py.PStr "prod") (py.PStr "prod") (py.PStr "k8s.drain_node") (py.PStr "k8s.drain")).
  - apply Hop. simpl. auto.
  - apply Hop. simpl. auto.
  - apply Hop. simpl. auto.
  - apply Hop. simpl. auto.
  - reflexivity.
  - reflexivity.
  - reflexivity.
  - reflexivity.
Defined.

(** ** Validation and the decision of the preconditions *)

Section PolicyValidateMore.
Import activities.
Import gate.

Variable schema_errors : py.value -> py.value -> list string.

Lemma nonempty_app_r {A : Type} (l : list A) x : nonempty (l ++ [x])%list = true.
Proof. destruct l; reflexivity. Qed.


(** X12. In every result of [policy_validate], [ok] holds exactly when
    there is no reason; and [require_approval] comes with [ok] and no
    reason: a step sent to approval carries none of the reasons that the
    allowlist or the schema gave. *)
Theorem policy_validate_ok_iff (fuel : nat) (step : py.dict) (policy : Policy)
    (user_roles : list string) (context : py.dict) (v : validation) :
  policy_validate schema_errors fuel step policy user_roles context = Some v ->
  (ok v = true <-> reasons v = []) /\
  (require_approval v = true -> ok v = true /\ reasons v = []).
Proof.
  unfold policy_validate.
  set (rs := if nonempty (schema_errors _ _) then _ else _).
  assert (Hrs : forall l : list string, negb (nonempty l) = true <-> l = []).
  { intros [|x l]; simpl; split; congruence. }
  destruct (nonempty (preconditions policy) && nonempty context).
  - destruct (policy_engine.decide fuel (preconditions policy) step context) as [d|];
      [|discriminate].
    destruct (opt_str_eqb d (Some "block")).
    + intros H; inversion H; subst; simpl. split; [apply Hrs | discriminate].
    + destruct (opt_str_eqb d (Some "require_approval")).
      * intros H; inversion H; subst; simpl. tauto.
      * intros H; inversion H; subst; simpl. split; [apply Hrs | discriminate].
  - intros H; inversion H; subst; simpl. split; [apply Hrs | discriminate].
Qed.

End PolicyValidateMore.


Lemma policy_validate_ok_iff_witness :
  activities.policy_validate no_schema 100 drain_step approve_policy ["Viewer"] prod_context
  = Some approval_result /\
  activities.reasons approval_result = [].
Proof.
  assert (H : activities.policy_validate no_schema 100 drain_step approve_policy ["Viewer"]
                                         prod_context
              = Some approval_result) by (vm_compute; reflexivity).
  split; [exact H|].
  apply (policy_validate_ok_iff no_schema 100 drain_step approve_policy ["Viewer"]
           prod_context approval_result H).
  reflexivity.
Defined.

(** ** The rows that [record_step] writes *)

Section RecordStepMore.
Import models activities.

Variable now : Z.
Variable run step_name : string.

Local Abbreviation this := (is_step run step_name).
Local Abbreviation other := (fun s => negb (is_step run step_name s)).

Lemma apply_fields_is_step f step step' :
  apply_fields now f step = Ret step' -> this step = true -> this step' = true.
Proof.
  intros H Hs. destruct (apply_fields_status _ _ _ _ H) as [_ [Hr Hn]].
  unfold is_step in *. rewrite Hr, Hn. exact Hs.
Qed.

Lemma update_first_other s' db :
  this s' = true ->
  filter other (update_first this s' db) = filter other db.
Proof.
  intros Hs'. induction db as [|s db IH]; [reflexivity|].
  cbn [update_first]. destruct (this s) eqn:Hs; cbn [filter].
  - rewrite Hs', Hs. reflexivity.
  - rewrite Hs. cbn [negb]. rewrite IH. reflexivity.
Qed.

Lemma update_first_this s' db s :
  this s' = true -> find this db = Some s ->
  List.length (filter this (update_first this s' db)) = List.length (filter this db).
Proof.
  intros Hs'. revert s. induction db as [|x db IH]; intros s Hf; [discriminate|].
  cbn [update_first find filter] in *. destruct (this x) eqn:Hx; cbn [filter].
  - rewrite Hs'. reflexivity.
  - rewrite Hx. apply (IH s). exact Hf.
Qed.

Lemma find_none_filter {A : Type} (f : A -> bool) l : find f l = None -> filter f l = [].
Proof.
  induction l as [|x l IH]; [reflexivity|]. simpl.
  destruct (f x); [discriminate | exact IH].
Qed.

Lemma find_some_filter {A : Type} (f : A -> bool) l x :
  find f l = Some x -> 1 <= List.length (filter f l).
Proof.
  induction l as [|y l IH]; [discriminate|]. simpl.
  destruct (f y); simpl; [lia | exact IH].
Qed.

Lemma find_app_none {A : Type} (f : A -> bool) l x :
  find f l = None -> f x = true -> find f (l ++ [x]) = Some x.
Proof.
  induction l as [|y l IH]; simpl; intros Hn Hx; [rewrite Hx; reflexivity|].
  destruct (f y); [discriminate | apply IH; assumption].
Qed.

(** X13. [record_step] is an upsert on the pair of the run and the step
    name: after it the step has a row; the rows of other steps and other
    runs are as they were; and the number of rows of the step is as
    before, or one when there was none. *)
Theorem record_step_upsert (f : fields) (db db' : list Step) :
  record_step now run step_name f db = Ret db' ->
  (exists s', find this db' = Some s') /\
  filter other db' = filter other db /\
  List.length (filter this db') = Nat.max 1 (List.length (filter this db)).
Proof.
  unfold record_step. destruct (find this db) as [s|] eqn:Hf.
  - destruct (apply_fields now f s) as [s'|e] eqn:Ha; simpl; [|discriminate].
    intros H; inversion H; subst; clear H.
    assert (Hs : this s = true) by (apply find_some in Hf; tauto).
    pose proof (apply_fields_is_step _ _ _ Ha Hs) as Hs'.
    split; [exists s'; apply (find_update_first _ _ _ s Hf Hs')|].
    split; [apply update_first_other; exact Hs'|].
    rewrite (update_first_this s' db s Hs' Hf).
    pose proof (find_some_filter _ _ _ Hf) as Hone.
    destruct (List.length (filter this db)); [lia|reflexivity].
  - destruct (apply_fields now f (new_step run step_name f)) as [s'|e] eqn:Ha; simpl;
      [|discriminate].
    intros H; inversion H; subst; clear H.
    assert (Hs' : this s' = true).
    { apply (apply_fields_is_step _ _ _ Ha). unfold is_step, new_step. simpl.
      rewrite !String.eqb_refl. reflexivity. }
    split; [exists s'; apply find_app_none; assumption|].
    rewrite !filter_app. simpl. rewrite Hs'. simpl.
    split; [apply app_nil_r|].
    rewrite (find_none_filter _ _ Hf). reflexivity.
Qed.

(** X14. The timestamps that [record_step] keeps.  After a record with
    the status running the row has a start; after one with a terminal
    status it has an end; and a start or an end that the row had is kept
    by every record that gives none. *)
Theorem record_step_timestamps (f : fields) (db db' : list Step) (s' : Step) :
  record_step now run step_name f db = Ret db' ->
  find this db' = Some s' ->
  (status_arg_is (f_status f) RUNNING = true -> started_at s' <> None) /\
  (status_arg_is (f_status f) SUCCEEDED || status_arg_is (f_status f) FAILED ||
   status_arg_is (f_status f) SKIPPED || status_arg_is (f_status f) COMPENSATED = true ->
   ended_at s' <> None) /\
  (forall s t, find this db = Some s ->
     (f_started_at f = None -> started_at s = Some t -> started_at s' = Some t) /\
     (f_ended_at f = None -> ended_at s = Some t -> ended_at s' = Some t)).
Proof.
  intros Hrec Hfind.
  assert (Hs' : exists s0, apply_fields now f s0 = Ret s' /\
                           (forall s, find this db = Some s -> s0 = s)).
  { unfold record_step in Hrec. destruct (find this db) as [s|] eqn:Hf.
    - destruct (apply_fields now f s) as [s1|e] eqn:Ha; simpl in Hrec; [|discriminate].
      inversion Hrec; subst; clear Hrec.
      assert (Hs : this s = true) by (apply find_some in Hf; tauto).
      pose proof (apply_fields_is_step _ _ _ Ha Hs) as Hs1.
      rewrite (find_update_first _ _ _ s Hf Hs1) in Hfind. inversion Hfind; subst.
      exists s. split; [exact Ha|]. intros s0 E. inversion E. reflexivity.
    - destruct (apply_fields now f (new_step run step_name f)) as [s1|e] eqn:Ha;
        simpl in Hrec; [|discriminate].
      inversion Hrec; subst; clear Hrec.
      assert (Hs1 : this s1 = true).
      { apply (apply_fields_is_step _ _ _ Ha). unfold is_step, new_step. simpl.
        rewrite !String.eqb_refl. reflexivity. }
      rewrite (find_app_none _ _ _ Hf Hs1) in Hfind. inversion Hfind; subst.
      eexists. split; [exact Ha|]. intros s0 E. discriminate E. }
  destruct Hs' as [s0 [Ha Hs0]]. unfold apply_fields in Ha.
  destruct (match f_status f with
            | Some StatusNone => Raise "IntegrityError"
            | Some (StatusStr v) => match StepStatus_of v with
                                    | Ret e => Ret e
                                    | Raise _ => Ret PENDING
                                    end
            | Some (StatusEnum e) => Ret e
            | None => Ret (status s0)
            end) as [st|e]; simpl in Ha; [|discriminate].
  inversion Ha; subst s'; clear Ha. simpl.
  split; [|split].
  - intros ->. destruct (assign (f_started_at f) (started_at s0)); discriminate.
  - intros ->. destruct (assign (f_ended_at f) (ended_at s0)); discriminate.
  - intros s t Hf. rewrite (Hs0 s Hf). split; intros Hk Ht; rewrite Hk; simpl; rewrite Ht.
    + destruct (status_arg_is (f_status f) RUNNING); reflexivity.
    + destruct (status_arg_is (f_status f) SUCCEEDED || status_arg_is (f_status f) FAILED ||
                status_arg_is (f_status f) SKIPPED || status_arg_is (f_status f) COMPENSATED);
        reflexivity.
Qed.

End RecordStepMore.

Lemma record_step_upsert_witness :
  exists db',
    activities.record_step 30 "run-1" "ack" (status_only "failed") [succeeded_step] = Ret db' /\
    List.length (filter (activities.is_step "run-1" "ack") db') = 1.
Proof.
  eexists. split; [vm_compute; reflexivity|].
  apply (record_step_upsert 30 "run-1" "ack" (status_only "failed") [succeeded_step]).
  vm_compute. reflexivity.
Defined.

Lemma record_step_timestamps_witness :
  exists db' s',
    activities.record_step 30 "run-1" "ack" (status_only "failed") [succeeded_step] = Ret db' /\
    find (activities.is_step "run-1" "ack") db' = Some s' /\
    models.started_at s' = Some 10%Z /\ models.ended_at s' = Some 20%Z.
Proof.
  eexists. eexists. split; [vm_compute; reflexivity|]. split; [vm_compute; reflexivity|].
  match goal with
  | |- models.started_at ?s = _ /\ _ =>
      destruct (record_step_timestamps 30 "run-1" "ack" (status_only "failed")
                  [succeeded_step] _ s eq_refl eq_refl) as [_ [_ H]]
  end.
  destruct (H succeeded_step 10%Z eq_refl) as [H1 _].
  destruct (H succeeded_step 20%Z eq_refl) as [_ H2].
  split; [apply H1 | apply H2]; reflexivity.
Defined.

(** ** The engine: dry runs *)

(** The activities that a branch of the loop adds to the trace. *)
Ltac new_activities :=
  eexists; split;
  [ unfold workflows.emit; cbn [workflows.trace]; rewrite <- ?app_assoc; cbn [app]; reflexivity | ].

Section EngineMore.
Import models activities workflows.

Variable schema_errors : py.value -> py.value -> list string.
Variable sha256_hex : string -> string.
Variable adapter_invoke : string -> ToolCall -> outcome py.value.
Variable wait_for_approval : option string -> bool.
Variable brain : brain_result.
Variable utcnow : nat -> Z.
Variable fuel : nat.

Let run_step' :=
  run_step schema_errors sha256_hex adapter_invoke wait_for_approval brain utcnow fuel.
Let run_steps' :=
  run_steps schema_errors sha256_hex adapter_invoke wait_for_approval brain utcnow fuel.
Let run' :=
  run schema_errors sha256_hex adapter_invoke wait_for_approval brain utcnow fuel.

Lemma execute_dry_run dry_run step p e :
  exists new,
    trace (result_engine (execute adapter_invoke utcnow dry_run step p e))
    = (trace e ++ new)%list /\
    Forall (fun d => d = dry_run) (dry_run_flags new).
Proof.
  unfold execute.
  destruct (invoke_adapter adapter_invoke (py.str (plan_tool p)) (plan_args p) dry_run
              (plan_idempotencyKey p)) as [res|exc].
  - destruct (plan_usage p) as [u|]; cbn [result_engine];
      new_activities; repeat constructor.
  - destruct (py.lookup "compensate" step) as [[| | | | | |[|kv comp]]|];
      try (cbn [result_engine]; new_activities; repeat constructor).
    destruct (compensate adapter_invoke _ _ dry_run (plan_idempotencyKey p));
      cbn [result_engine]; new_activities; repeat constructor.
Qed.

Lemma run_step_dry_run dry_run c step e it :
  run_step' dry_run c step e = Some it ->
  exists new,
    trace (result_engine it) = (trace e ++ new)%list /\
    Forall (fun d => d = dry_run) (dry_run_flags new).
Proof.
  unfold run_step', run_step.
  destruct (match max_tokens_per_run (ctx_policy c) with Some _ => _ | None => _ end).
  { intros H; inversion H; subst. cbn [result_engine]. new_activities. repeat constructor. }
  destruct (match max_cost_per_run_usd (ctx_policy c) with Some _ => _ | None => _ end).
  { intros H; inversion H; subst. cbn [result_engine]. new_activities. repeat constructor. }
  destruct (policy_validate _ _ _ _ _ _) as [val|]; [|discriminate].
  destruct (negb (ok val)).
  { intros H; inversion H; subst. cbn [result_engine]. new_activities. repeat constructor. }
  destruct (_ && negb (wait_for_approval _)).
  { intros H; inversion H; subst. cbn [result_engine]. new_activities. repeat constructor. }
  destruct (opt_str_eqb _ _).
  { intros H; inversion H; subst. cbn [result_engine]. new_activities. repeat constructor. }
  intros H; inversion H; subst; clear H.
  match goal with
  | |- context [execute _ _ dry_run step ?p ?e'] =>
      destruct (execute_dry_run dry_run step p e') as [new [Ht Hd]]
  end.
  rewrite Ht. new_activities. cbn [dry_run_flags flat_map app]. exact Hd.
Qed.

Lemma dry_run_flags_app a b : dry_run_flags (a ++ b) = (dry_run_flags a ++ dry_run_flags b)%list.
Proof. apply flat_map_app. Qed.

Lemma run_steps_dry_run dry_run c steps : forall e it,
  run_steps' dry_run c steps e = Some it ->
  exists new,
    trace (result_engine it) = (trace e ++ new)%list /\
    Forall (fun d => d = dry_run) (dry_run_flags new).
Proof.
  induction steps as [|step rest IH]; intros e it H.
  - inversion H; subst. exists []. split; [symmetry; apply app_nil_r | constructor].
  - unfold run_steps' in H. cbn [run_steps] in H. fold run_step' in H.
    destruct (run_step' dry_run c step e) as [[e1|e1 exc]|] eqn:Hstep; [| |discriminate].
    + destruct (run_step_dry_run _ _ _ _ _ Hstep) as [new1 [Ht1 Hd1]].
      destruct (IH _ _ H) as [new2 [Ht2 Hd2]].
      exists (new1 ++ new2)%list. split.
      * rewrite Ht2. cbn [result_engine] in Ht1. rewrite Ht1. symmetry. apply app_assoc.
      * rewrite dry_run_flags_app. apply Forall_app. split; assumption.
    + inversion H; subst. apply (run_step_dry_run _ _ _ _ _ Hstep).
Qed.

(** [run] returns when the policy has no preconditions or the context is empty. *)
Lemma run_step_returns dry_run c step e :
  preconditions (ctx_policy c) = [] \/ ctx_context c = [] ->
  exists it, run_step' dry_run c step e = Some it.
Proof.
  intros H. unfold run_step', run_step.
  destruct (match max_tokens_per_run (ctx_policy c) with Some _ => _ | None => _ end);
    [eauto|].
  destruct (match max_cost_per_run_usd (ctx_policy c) with Some _ => _ | None => _ end);
    [eauto|].
  destruct (policy_validate_returns schema_errors fuel step (ctx_policy c)
              (ctx_user_roles c) (ctx_context c)) as [v Hv]; [tauto|].
  rewrite Hv.
  destruct (negb (ok v)); [eauto|].
  destruct (_ && negb (wait_for_approval _)); [eauto|].
  destruct (opt_str_eqb _ _); eauto.
Qed.

Lemma run_steps_returns dry_run c steps : forall e,
  preconditions (ctx_policy c) = [] \/ ctx_context c = [] ->
  exists it, run_steps' dry_run c steps e = Some it.
Proof.
  induction steps as [|step rest IH]; intros e H; [simpl; eauto|].
  unfold run_steps'. cbn [run_steps]. fold run_step'.
  destruct (run_step_returns dry_run c step e H) as [[e1|e1 exc] Hit]; rewrite Hit.
  - apply IH. exact H.
  - eauto.
Qed.

(** X15. The mode of a run decides the dry-run flag of every adapter
    call: each invocation and each compensation of the run carries
    [dryRun = (mode != "execute")].  Only the mode [execute] reaches an
    adapter for real; [shadow], [plan] and any other word run dry.  A run
    returns whenever the policy has no precondition or the context is
    empty. *)
Theorem run_dry_run_flag (c : ctx) (mode : string) :
  (forall e r, run' c mode = Some (e, r) ->
     Forall (fun d => d = negb (String.eqb mode "execute")) (dry_run_flags (trace e))) /\
  (preconditions (ctx_policy c) = [] \/ ctx_context c = [] ->
   exists e r, run' c mode = Some (e, r)).
Proof.
  split.
  - intros e r. unfold run', run. fold run_steps'.
    destruct (run_steps' _ c (ctx_steps c) _) as [it|] eqn:Hrun; [|discriminate].
    destruct (run_steps_dry_run _ _ _ _ _ Hrun) as [new [Ht Hd]].
    cbn [trace app] in Ht.
    destruct it as [e1|e1 exc]; cbn [result_engine] in Ht.
    + intros H; injection H as <- <-.
      destruct (String.eqb mode "shadow"); unfold emit; cbn [trace]; rewrite Ht.
      * rewrite dry_run_flags_app. apply Forall_app. split; [exact Hd|constructor].
      * exact Hd.
    + intros H; injection H as <- <-. rewrite Ht. exact Hd.
  - intros H. unfold run', run. fold run_steps'.
    destruct (run_steps_returns (negb (String.eqb mode "execute")) c (ctx_steps c)
                {| trace := []; run_totals := totals0 |} H) as [[e1|e1 exc] Hit];
      rewrite Hit; eauto.
Qed.

End EngineMore.

(** ** The engine: the gates before an adapter *)

Section EngineGates.
Import models activities workflows.

Variable schema_errors : py.value -> py.value -> list string.
Variable sha256_hex : string -> string.
Variable adapter_invoke : string -> ToolCall -> outcome py.value.
Variable wait_for_approval : option string -> bool.
Variable brain : brain_result.
Variable utcnow : nat -> Z.
Variable fuel : nat.

Let run_step' :=
  run_step schema_errors sha256_hex adapter_invoke wait_for_approval brain utcnow fuel.
Local Abbreviation admitted :=
  (budget.admitted schema_errors sha256_hex wait_for_approval brain fuel).

Let run_steps' :=
  run_steps schema_errors sha256_hex adapter_invoke wait_for_approval brain utcnow fuel.

Lemma execute_invocations dry_run step p e :
  exists new,
    trace (result_engine (execute adapter_invoke utcnow dry_run step p e))
    = (trace e ++ new)%list /\
    invocations new
    = [InvokeAdapter (py.str (plan_tool p)) (plan_args p) dry_run (plan_idempotencyKey p)].
Proof.
  unfold execute.
  destruct (invoke_adapter adapter_invoke (py.str (plan_tool p)) (plan_args p) dry_run
              (plan_idempotencyKey p)) as [res|exc].
  - destruct (plan_usage p) as [u|]; cbn [result_engine]; new_activities; reflexivity.
  - destruct (py.lookup "compensate" step) as [[| | | | | |[|kv comp]]|];
      try (cbn [result_engine]; new_activities; reflexivity).
    destruct (compensate adapter_invoke _ _ dry_run (plan_idempotencyKey p));
      cbn [result_engine]; new_activities; reflexivity.
Qed.

Lemma opt_str_eqb_eq a b : opt_str_eqb a b = true <-> a = b.
Proof.
  destruct a, b; simpl; try (split; congruence).
  rewrite String.eqb_eq. split; congruence.
Qed.

Lemma tokens_gate c e :
  match max_tokens_per_run (ctx_policy c) with
  | Some m => (m <=? tokens_in (run_totals e) + tokens_out (run_totals e))%Z
  | None => false
  end = true <-> tokens_exhausted c e.
Proof.
  unfold tokens_exhausted. destruct (max_tokens_per_run (ctx_policy c)) as [m|].
  - rewrite Z.leb_le. split.
    + intros H. exists m. auto.
    + intros [m' [E H]]. inversion E; subst. exact H.
  - split; [discriminate|]. intros [m [E _]]. discriminate.
Qed.

Lemma cost_gate c e :
  match max_cost_per_run_usd (ctx_policy c) with
  | Some m => Qle_bool m (cost_usd (run_totals e))
  | None => false
  end = true <-> cost_exhausted c e.
Proof.
  unfold cost_exhausted. destruct (max_cost_per_run_usd (ctx_policy c)) as [m|].
  - rewrite Qle_bool_iff. split.
    + intros H. exists m. auto.
    + intros [m' [E H]]. inversion E; subst. exact H.
  - split; [discriminate|]. intros [m [E _]]. discriminate.
Qed.

(** The gates before the adapter. *)
Lemma adapter_gates (dry_run : bool) (c : ctx) (step : py.dict)
    (e : engine) (it : iteration) :
  run_step' dry_run c step e = Some it ->
  exists new,
    trace (result_engine it) = (trace e ++ new)%list /\
    ((admitted c step e /\
      let p := plan_step sha256_hex brain step c in
      invocations new
      = [InvokeAdapter (py.str (plan_tool p)) (plan_args p) dry_run
                       (plan_idempotencyKey p)]) \/
     (~ admitted c step e /\ adapter_calls new = [])).
Proof.
  unfold run_step', run_step. cbn [emit run_totals].
  pose proof (tokens_gate c e) as Htok. pose proof (cost_gate c e) as Hcost.
  destruct (match max_tokens_per_run (ctx_policy c) with Some _ => _ | None => _ end).
  { intros H; inversion H; subst. cbn [result_engine]. new_activities.
    right. split; [|reflexivity]. intros [Hn _]. apply Hn, Htok. reflexivity. }
  destruct (match max_cost_per_run_usd (ctx_policy c) with Some _ => _ | None => _ end).
  { intros H; inversion H; subst. cbn [result_engine]. new_activities.
    right. split; [|reflexivity]. intros [_ [Hn _]]. apply Hn, Hcost. reflexivity. }
  destruct (policy_validate _ _ _ _ _ _) as [val|] eqn:Hval; [|discriminate].
  destruct (ok val) eqn:Hok; cbn [negb].
  2:{ intros H; inversion H; subst. cbn [result_engine]. new_activities.
      right. split; [|reflexivity]. intros [_ [_ [[v [Hv Hvok]] _]]]. congruence. }
  fold (needs_approval c step).
  destruct (needs_approval c step && negb (wait_for_approval _)) eqn:Happ.
  { intros H; inversion H; subst. cbn [result_engine]. new_activities.
    right. split; [|reflexivity]. intros [_ [_ [_ [Hw _]]]].
    apply andb_true_iff in Happ. destruct Happ as [Hn Hw'].
    rewrite (Hw Hn) in Hw'. discriminate. }
  destruct (opt_str_eqb _ _) eqn:Hblock.
  { intros H; inversion H; subst. cbn [result_engine]. new_activities.
    right. split; [|reflexivity]. intros [_ [_ [_ [_ Hb]]]].
    apply opt_str_eqb_eq in Hblock. contradiction. }
  intros H; inversion H; subst; clear H.
  match goal with
  | |- context [execute _ _ dry_run step ?p ?e'] =>
      destruct (execute_invocations dry_run step p e') as [new [Ht Hi]]
  end.
  rewrite Ht. new_activities. left. split.
  - split; [intros Hx; apply Htok in Hx; discriminate|].
    split; [intros Hx; apply Hcost in Hx; discriminate|].
    split; [exists val; auto|]. split.
    + intros Hn. rewrite Hn in Happ. simpl in Happ. apply negb_false_iff in Happ. exact Happ.
    + intros Hb. apply opt_str_eqb_eq in Hb. congruence.
  - exact Hi.
Qed.


End EngineGates.

(** ** The engine: terminal states *)

Ltac engine_records :=
  repeat (apply Forall_cons;
          [first [ exact I
                 | split; [reflexivity | first [ left; reflexivity
                                               | right; eexists; reflexivity ]]]|]);
  apply Forall_nil.

Section EngineTerminal.
Import models activities workflows.

Variable schema_errors : py.value -> py.value -> list string.
Variable sha256_hex : string -> string.
Variable adapter_invoke : string -> ToolCall -> outcome py.value.
Variable wait_for_approval : option string -> bool.
Variable brain : brain_result.
Variable utcnow : nat -> Z.
Variable fuel : nat.

Let run_step' :=
  run_step schema_errors sha256_hex adapter_invoke wait_for_approval brain utcnow fuel.

Lemma record_step_engine run name f db :
  f_status f = None \/ (exists v, f_status f = Some (StatusStr v)) ->
  exists db' s',
    record_step 0 run name f db = Ret db' /\
    find (is_step run name) db' = Some s' /\
    Some (status s')
    = final_status [RecordStep name f] (option_map status (find (is_step run name) db)).
Proof.
  intros Hf. unfold record_step.
  assert (Happ : forall s0, exists s', apply_fields 0 f s0 = Ret s').
  { intros s0. unfold apply_fields.
    destruct Hf as [->|[v ->]]; [simpl; eauto|].
    destruct (StepStatus_of v); simpl; eauto. }
  destruct (find (is_step run name) db) as [s|] eqn:Hfind.
  - destruct (Happ s) as [s' Hs']. rewrite Hs'. simpl bind.
    exists (update_first (is_step run name) s' db), s'.
    destruct (apply_fields_status _ _ _ _ Hs') as [Hst [Hr Hn]].
    split; [reflexivity|]. split.
    + apply (find_update_first _ _ _ s Hfind).
      apply find_some in Hfind. unfold is_step in *. rewrite Hr, Hn. tauto.
    + simpl. rewrite Hst. destruct Hf as [->|[v ->]]; reflexivity.
  - destruct (Happ (new_step run name f)) as [s' Hs']. rewrite Hs'. simpl bind.
    exists (db ++ [s'])%list, s'.
    destruct (apply_fields_status _ _ _ _ Hs') as [Hst [Hr Hn]].
    split; [reflexivity|]. split.
    + apply find_app_none; [exact Hfind|].
      unfold is_step. rewrite Hr, Hn. simpl. rewrite !String.eqb_refl. reflexivity.
    + simpl. rewrite Hst. destruct Hf as [->|[v ->]]; reflexivity.
Qed.

Lemma replay_engine run name t : forall db,
  Forall (engine_record name) t ->
  exists db',
    replay run t db = Ret db' /\
    option_map status (find (is_step run name) db')
    = final_status t (option_map status (find (is_step run name) db)).
Proof.
  induction t as [|a t IH]; intros db Hall.
  - exists db. split; reflexivity.
  - inversion Hall as [|? ? Ha Ht]; subst.
    destruct a as [n f| | | |]; try (cbn [replay final_status]; apply IH; exact Ht).
    destruct Ha as [-> Hf].
    destruct (record_step_engine run name f db Hf) as [db1 [s1 [Hrec [Hfind Hst]]]].
    cbn [replay]. rewrite Hrec. simpl bind.
    destruct (IH db1 Ht) as [db' [Hrep Hfin]].
    exists db'. split; [exact Hrep|]. rewrite Hfin, Hfind. simpl option_map.
    rewrite Hst. reflexivity.
Qed.

Lemma execute_terminal dry_run step p e f0 :
  f_status f0 = Some (StatusStr "running") ->
  exists new,
    trace (result_engine (execute adapter_invoke utcnow dry_run step p e))
    = (trace e ++ new)%list /\
    terminal_after (name_of step) (RecordStep (name_of step) f0 :: new).
Proof.
  intros Hf0. unfold execute, terminal_after.
  destruct (invoke_adapter adapter_invoke (py.str (plan_tool p)) (plan_args p) dry_run
              (plan_idempotencyKey p)) as [res|exc].
  - destruct (plan_usage p) as [u|]; cbn [result_engine]; new_activities;
      (split; [apply Forall_cons; [split; [reflexivity|right; eauto]|engine_records]|]);
      intros st; cbn [final_status f_status]; rewrite ?Hf0; eexists; split; reflexivity.
  - destruct (py.lookup "compensate" step) as [[| | | | | |[|kv comp]]|];
      try (cbn [result_engine]; new_activities;
           (split; [apply Forall_cons; [split; [reflexivity|right; eauto]|engine_records]|]);
           intros st; cbn [final_status f_status]; rewrite ?Hf0; eexists; split; reflexivity).
    destruct (compensate adapter_invoke _ _ dry_run (plan_idempotencyKey p));
      cbn [result_engine]; new_activities;
      (split; [apply Forall_cons; [split; [reflexivity|right; eauto]|engine_records]|]);
      intros st; cbn [final_status f_status]; rewrite ?Hf0; eexists; split; reflexivity.
Qed.

(** The records of an iteration end on a terminal status. *)
Lemma step_terminal (dry_run : bool) (c : ctx) (step : py.dict)
    (e : engine) (it : iteration) :
  run_step' dry_run c step e = Some it ->
  exists new,
    trace (result_engine it) = (trace e ++ new)%list /\
    forall run db,
      exists db' s,
        replay run new db = Ret db' /\
        find (is_step run (name_of step)) db' = Some s /\
        _terminal (status s) = true.
Proof.
  intros H.
  assert (Hmain : exists new,
             trace (result_engine it) = (trace e ++ new)%list /\
             terminal_after (name_of step) new).
  { revert H. unfold run_step', run_step, terminal_after.
    destruct (match max_tokens_per_run (ctx_policy c) with Some _ => _ | None => _ end).
    { intros H; inversion H; subst. cbn [result_engine]. new_activities.
      split; [engine_records|]. intros st. eexists. split; reflexivity. }
    destruct (match max_cost_per_run_usd (ctx_policy c) with Some _ => _ | None => _ end).
    { intros H; inversion H; subst. cbn [result_engine]. new_activities.
      split; [engine_records|]. intros st. eexists. split; reflexivity. }
    destruct (policy_validate _ _ _ _ _ _) as [val|]; [|discriminate].
    destruct (negb (ok val)).
    { intros H; inversion H; subst. cbn [result_engine]. new_activities.
      split; [engine_records|]. intros st. eexists. split; reflexivity. }
    destruct (_ && negb (wait_for_approval _)).
    { intros H; inversion H; subst. cbn [result_engine]. new_activities.
      split; [engine_records|]. intros st. eexists. split; reflexivity. }
    destruct (opt_str_eqb _ _).
    { intros H; inversion H; subst. cbn [result_engine]. new_activities.
      split; [engine_records|]. intros st. eexists. split; reflexivity. }
    intros H; inversion H; subst; clear H.
    match goal with
    | |- context [execute _ _ dry_run step ?p (emit (RecordStep _ ?f0) ?e')] =>
        destruct (execute_terminal dry_run step p (emit (RecordStep (name_of step) f0) e')
                    f0 eq_refl) as [new [Ht [Hall Hfin]]]
    end.
    rewrite Ht. new_activities. split.
    - apply Forall_cons; [split; [reflexivity|right; eexists; reflexivity]|exact Hall].
    - intros st.
      exact (Hfin (final_status [RecordStep (name_of step) (pending step)] st)). }
  destruct Hmain as [new [Ht [Hall Hfin]]]. exists new. split; [exact Ht|].
  intros run db.
  destruct (replay_engine run (name_of step) new db Hall) as [db' [Hrep Hst]].
  destruct (Hfin (option_map status (find (is_step run (name_of step)) db)))
    as [s [Hs Hterm]].
  rewrite Hs in Hst.
  destruct (find (is_step run (name_of step)) db') as [s'|] eqn:Hfind; [|discriminate].
  exists db', s'. split; [exact Hrep|]. split; [exact Hfind|].
  simpl in Hst. injection Hst as ->. exact Hterm.
Qed.


End EngineTerminal.

(** ** The engine: exhausted budgets *)

Section BudgetFinal.
Import models activities workflows.

Variable schema_errors : py.value -> py.value -> list string.
Variable sha256_hex : string -> string.
Variable adapter_invoke : string -> ToolCall -> outcome py.value.
Variable wait_for_approval : option string -> bool.
Variable brain : brain_result.
Variable utcnow : nat -> Z.
Variable fuel : nat.

Let run_step' :=
  run_step schema_errors sha256_hex adapter_invoke wait_for_approval brain utcnow fuel.
Let run_steps' :=
  run_steps schema_errors sha256_hex adapter_invoke wait_for_approval brain utcnow fuel.

(** X18. An exhausted budget is final.  From an engine whose tokens or
    whose cost have reached the maximum of the policy, the loop returns
    without an exception, records every remaining step pending and then
    skipped, calls no adapter and leaves the totals as they are. *)
Theorem budget_exhaustion_is_final (dry_run : bool) (c : ctx) (steps : list py.dict)
    (e : engine) :
  tokens_exhausted c e \/ cost_exhausted c e ->
  exists e' new,
    run_steps' dry_run c steps e = Some (Continue e') /\
    run_totals e' = run_totals e /\
    trace e' = (trace e ++ new)%list /\
    adapter_calls new = [] /\
    statuses new = all_skipped steps.
Proof.
  revert e. induction steps as [|step rest IH]; intros e Hex.
  - exists e, []. repeat split. symmetry. apply app_nil_r.
  - assert (Hstep : exists what,
               run_step' dry_run c step e
               = Some (Continue (skip_for_budget what step e))).
    { destruct Hex as [Ht|Hc].
      - exists "max_tokens_per_run". apply run_step_tokens. exact Ht.
      - destruct (run_step_cost schema_errors sha256_hex adapter_invoke wait_for_approval
                    brain utcnow fuel dry_run c step e Hc) as [what [_ [_ H]]].
        exists what. exact H. }
    destruct Hstep as [what Hstep].
    destruct (IH (skip_for_budget what step e) Hex)
      as [e' [new [Hrun [Htot [Htr [Hcalls Hst]]]]]].
    exists e'. eexists. unfold run_steps'. cbn [run_steps]. fold run_step'.
    rewrite Hstep. fold run_steps'. split; [exact Hrun|]. split; [exact Htot|].
    split; [rewrite Htr; cbn [skip_for_budget trace]; rewrite <- app_assoc; reflexivity|].
    split.
    + cbn [app adapter_calls filter]. exact Hcalls.
    + cbn [app all_skipped flat_map]. unfold statuses in *. cbn [flat_map app f_status].
      rewrite Hst. reflexivity.
Qed.

End BudgetFinal.

Lemma budget_exhaustion_is_final_witness :
  tokens_exhausted demo_ctx spent_engine /\
  exists e',
    workflows.run_steps no_schema demo_sha demo_adapter (fun _ => true) demo_brain demo_clock
      100 false demo_ctx [step_s1; step_s2] spent_engine
    = Some (workflows.Continue e') /\
    workflows.run_totals e' = workflows.run_totals spent_engine.
Proof.
  assert (H : tokens_exhausted demo_ctx spent_engine)
    by (exists 50%Z; split; [reflexivity | simpl; lia]).
  split; [exact H|].
  destruct (budget_exhaustion_is_final no_schema demo_sha demo_adapter (fun _ => true)
              demo_brain demo_clock 100 false demo_ctx [step_s1; step_s2] spent_engine
              (or_introl H)) as [e' [new [H1 [H2 _]]]].
  exists e'. split; assumption.
Defined.

(** ** Bounds of the shadow score *)

Section ShadowBound.
Import models activities.
Import score.

Lemma eqb_PStr_l s v : py.eqb (py.PStr s) v = true <-> v = py.PStr s.
Proof.
  destruct v; simpl; try (split; discriminate).
  rewrite String.eqb_eq. split; [intros ->; reflexivity | intros H; inversion H; reflexivity].
Qed.

Lemma existsb_eqb_PStr s l : existsb (py.eqb (py.PStr s)) l = true <-> In s (str_names l).
Proof.
  unfold str_names. rewrite existsb_exists, in_flat_map. split.
  - intros [v [Hv E]]. apply eqb_PStr_l in E. subst. exists (py.PStr s). split; [exact Hv|].
    left. reflexivity.
  - intros [v [Hv Hs]]. destruct v; try (destruct Hs; fail). destruct Hs as [->|[]].
    exists (py.PStr s). split; [exact Hv | apply eqb_PStr_l; reflexivity].
Qed.

Lemma dedup_str_names l : forall seen,
  NoDup (str_names
           ((fix dedup (l : list py.value) (seen : list py.value) : list py.value :=
               match l with
               | [] => []
               | x :: r => if existsb (py.eqb x) seen then dedup r seen
                           else x :: dedup r (x :: seen)
               end) l seen)) /\
  forall s, In s (str_names
           ((fix dedup (l : list py.value) (seen : list py.value) : list py.value :=
               match l with
               | [] => []
               | x :: r => if existsb (py.eqb x) seen then dedup r seen
                           else x :: dedup r (x :: seen)
               end) l seen)) -> ~ In s (str_names seen).
Proof.
  induction l as [|x r IH]; intros seen.
  - split; [constructor | intros s []].
  - destruct (existsb (py.eqb x) seen) eqn:Hex.
    + apply IH.
    + destruct (IH (x :: seen)) as [Hnd Hnot].
      destruct x; try (split; [exact Hnd | intros s0 Hs0; exact (Hnot s0 Hs0)]).
      split.
      * cbn [str_names flat_map app]. constructor; [|exact Hnd].
        intros Hin. apply (Hnot s Hin). left. reflexivity.
      * intros s0 [<-|Hs0].
        -- intros Hin. apply existsb_eqb_PStr in Hin. congruence.
        -- intros Hin. apply (Hnot s0 Hs0). right. exact Hin.
Qed.

Lemma vunion_str_names a b : NoDup (str_names (vunion a b)).
Proof.
  induction a as [|x r IH].
  - apply dedup_str_names.
  - cbn [vunion]. destruct (existsb (py.eqb x) (vunion r b)) eqn:Hex; [exact IH|].
    destruct x; try exact IH.
    cbn [str_names flat_map app]. constructor; [|exact IH].
    intros Hin. apply existsb_eqb_PStr in Hin. congruence.
Qed.

Lemma vlookup_key {B : Type} n (m : list (py.value * B)) x :
  Forall (fun kv => exists s, fst kv = py.PStr s) m ->
  vlookup n m = Some x -> exists s, n = py.PStr s /\ In s (str_names (map fst m)).
Proof.
  induction m as [|[k v] m IH]; intros Hm H; simpl in H; [discriminate|].
  inversion Hm as [|? ? [s Hs] Hr]; subst. simpl in Hs. subst k.
  destruct (py.eqb n (py.PStr s)) eqn:E.
  - apply eqb_PStr in E. exists s. split; [exact E | left; reflexivity].
  - destruct (IH Hr H) as [s' [-> Hin]]. exists s'. split; [reflexivity | right; exact Hin].
Qed.

Lemma vset_keys {B : Type} s (v : B) (m : list (py.value * B)) :
  Forall (fun kv => exists s, fst kv = py.PStr s) m ->
  Forall (fun kv => exists s, fst kv = py.PStr s) (vset (py.PStr s) v m) /\
  List.length (vset (py.PStr s) v m) <= S (List.length m).
Proof.
  induction m as [|[k v'] m IH]; intros Hm; cbn [vset].
  - split; [constructor; [exists s; reflexivity | constructor] | simpl; lia].
  - inversion Hm as [|? ? Hk Hr]; subst. destruct (py.eqb (py.PStr s) k).
    + split; [constructor; assumption | simpl; lia].
    + destruct (IH Hr) as [Hk' Hl']. split; [constructor; assumption | simpl; lia].
Qed.

Lemma agent_map_keys l : forall m,
  Forall (fun kv : py.value * agent_entry => exists s, fst kv = py.PStr s) m ->
  Forall (fun kv : py.value * agent_entry => exists s, fst kv = py.PStr s)
         (fold_left (fun m s => vset (py.PStr (a_name s)) s m) l m) /\
  List.length (fold_left (fun m s => vset (py.PStr (a_name s)) s m) l m)
  <= List.length l + List.length m.
Proof.
  induction l as [|a l IH]; intros m Hm; simpl; [split; [exact Hm | lia]|].
  destruct (vset_keys (a_name a) a m Hm) as [Hk Hl].
  destruct (IH _ Hk) as [A B]. split; [exact A | lia].
Qed.

Lemma str_names_length l : List.length (str_names l) <= List.length l.
Proof.
  induction l as [|x l IH]; [reflexivity|].
  destruct x; cbn [str_names flat_map app List.length] in *; fold (str_names l); lia.
Qed.

Lemma str_names_filter p l s : In s (str_names (filter p l)) -> In s (str_names l).
Proof.
  unfold str_names. rewrite !in_flat_map. intros [v [Hv Hs]].
  apply filter_In in Hv. exists v. tauto.
Qed.

Lemma str_names_filter_NoDup p l : NoDup (str_names l) -> NoDup (str_names (filter p l)).
Proof.
  induction l as [|x l IH]; intros H; [constructor|].
  cbn [filter]. destruct x; cbn [str_names flat_map app] in H; fold (str_names l) in H;
    try (destruct (p _); [cbn [str_names flat_map app]; fold (str_names (filter p l))|];
         apply IH; exact H).
  inversion H; subst.
  destruct (p (py.PStr s)).
  - cbn [str_names flat_map app]. fold (str_names (filter p l)). constructor.
    + intros Hin. apply str_names_filter in Hin. contradiction.
    + apply IH. assumption.
  - apply IH. assumption.
Qed.

(** A count over names bound in the agent map is at most its size. *)
Lemma count_bound (am : list (py.value * agent_entry)) (p : py.value -> bool) names :
  Forall (fun kv => exists s, fst kv = py.PStr s) am ->
  NoDup (str_names names) ->
  (forall n, p n = true -> exists a, vlookup n am = Some a) ->
  count p names <= List.length am.
Proof.
  intros Hkeys Hnd Hp. unfold count.
  assert (Hall : Forall (fun n => exists s, n = py.PStr s /\ In s (str_names (map fst am)))
                        (filter p names)).
  { apply Forall_forall. intros n Hn. apply filter_In in Hn. destruct Hn as [_ Hn].
    destruct (Hp n Hn) as [a Ha]. apply (vlookup_key n am a Hkeys Ha). }
  assert (Hlen : List.length (filter p names) = List.length (str_names (filter p names))).
  { clear - Hall. induction Hall as [|n l [s [-> _]] _ IH]; [reflexivity|].
    cbn [str_names flat_map app List.length]. fold (str_names l). f_equal. exact IH. }
  rewrite Hlen.
  transitivity (List.length (str_names (map fst am))).
  - apply NoDup_incl_length; [apply str_names_filter_NoDup; exact Hnd|].
    intros s Hs. rewrite Forall_forall in Hall.
    unfold str_names in Hs. apply in_flat_map in Hs. destruct Hs as [v [Hv Hs]].
    destruct (Hall v Hv) as [s' [-> Hin]]. destruct Hs as [<-|[]]. exact Hin.
  - rewrite (str_names_length (map fst am)), length_map. apply Nat.le_refl.
Qed.

Lemma ratio_bounds k n : k <= n -> (0 <= ratio k n /\ ratio k n <= 1)%Q.
Proof.
  intros H. unfold ratio. destruct (Nat.ltb_spec 0 n) as [Hn|Hn].
  - assert (Hpos : (0 < inject_Z (Z.of_nat n))%Q).
    { change 0%Q with (inject_Z 0). rewrite <- Zlt_Qlt. lia. }
    split.
    + apply Qle_shift_div_l; [exact Hpos|]. rewrite Qmult_0_l.
      change 0%Q with (inject_Z 0). rewrite <- Zle_Qle. lia.
    + apply Qle_shift_div_r; [exact Hpos|]. rewrite Qmult_1_l.
      rewrite <- Zle_Qle. lia.
  - split; [apply Qle_refl | discriminate].
Qed.

Lemma weighted_bounds a b c :
  (0 <= a /\ a <= 1)%Q -> (0 <= b /\ b <= 1)%Q -> (0 <= c /\ c <= 1)%Q ->
  (0 <= weighted a b c /\ weighted a b c <= 1)%Q.
Proof.
  intros [A0 A1] [B0 B1] [C0 C1]. unfold weighted. split.
  - repeat apply Qplus_le_compat with (x := 0%Q) || idtac.
    replace 0%Q with (0 + 0 + 0)%Q by reflexivity.
    apply Qplus_le_compat; [apply Qplus_le_compat|]; apply Qmult_le_0_compat;
      try assumption; discriminate.
  - assert (E : (1 == (5 # 10) * 1 + (3 # 10) * 1 + (2 # 10) * 1)%Q) by reflexivity.
    rewrite E.
    apply Qplus_le_compat; [apply Qplus_le_compat|];
      (apply Qmult_le_l; [reflexivity | assumption]).
Qed.

(** X19. The bounds of a shadow result: the match score lies between 0
    and 1, each of the three counts of matches is at most the number of
    compared steps, and the policy violations are at most the number of
    recorded steps. *)
Theorem match_score_bounds (steps : list Step) (expected_steps : list py.value)
    (sh : shadow) :
  compute_shadow steps expected_steps = Ret sh ->
  (0 <= match_score sh /\ match_score sh <= 1)%Q /\
  shadow_tool_matches sh <= shadow_total_steps sh /\
  shadow_args_matches sh <= shadow_total_steps sh /\
  shadow_order_matches sh <= shadow_total_steps sh /\
  policy_violations sh <= List.length steps.
Proof.
  unfold compute_shadow. intros H.
  destruct (expected_map_from 0 expected_steps []) as [em|] eqn:Hem; [|discriminate].
  simpl in H.
  set (am := agent_map_of (agent_steps_from 0 steps)) in *.
  set (names := vunion (map fst am) (map fst em)) in *.
  destruct (compare_all am em names _) as [c|] eqn:Hc; [|discriminate].
  simpl in H. inversion H; subst sh; clear H. cbn [match_score shadow_tool_matches
    shadow_args_matches shadow_order_matches shadow_total_steps policy_violations].
  apply compare_all_counts in Hc. simpl in Hc. destruct Hc as [Ht [Ha Ho]].
  destruct (agent_map_keys (agent_steps_from 0 steps) [] (Forall_nil _)) as [Hkeys Hlen].
  fold (agent_map_of (agent_steps_from 0 steps)) in Hkeys, Hlen. fold am in Hkeys, Hlen.
  set (N0 := Nat.max (List.length (agent_steps_from 0 steps)) (List.length expected_steps)).
  set (N := if Nat.eqb N0 0 then 1 else N0).
  assert (HN : List.length am <= N).
  { subst N N0. simpl in Hlen. destruct (Nat.eqb_spec (Nat.max (List.length (agent_steps_from 0 steps))
            (List.length expected_steps)) 0); lia. }
  assert (Hnd : NoDup (str_names names)) by apply vunion_str_names.
  assert (B1 : tool_matches c <= N).
  { rewrite Ht. etransitivity; [|exact HN]. apply count_bound; [exact Hkeys|exact Hnd|].
    intros n. unfold score.tool_matches_at. destruct (vlookup n am); [eauto|discriminate]. }
  assert (B2 : args_matches c <= N).
  { rewrite Ha. etransitivity; [|exact HN]. apply count_bound; [exact Hkeys|exact Hnd|].
    intros n. unfold score.args_match_at. destruct (vlookup n am); [eauto|discriminate]. }
  assert (B3 : order_matches c <= N).
  { rewrite Ho. etransitivity; [|exact HN]. apply count_bound; [exact Hkeys|exact Hnd|].
    intros n. unfold score.order_matches_at. destruct (vlookup n am); [eauto|discriminate]. }
  split; [apply weighted_bounds; apply ratio_bounds; assumption|].
  repeat split; try assumption.
  apply filter_length_le.
Qed.

End ShadowBound.

Lemma match_score_bounds_witness :
  activities.compute_shadow shadow_steps shadow_expected
  = Ret (shadow_of shadow_steps shadow_expected) /\
  (activities.match_score (shadow_of shadow_steps shadow_expected) <= 1)%Q.
Proof.
  assert (H : activities.compute_shadow shadow_steps shadow_expected
              = Ret (shadow_of shadow_steps shadow_expected)) by reflexivity.
  split; [exact H|].
  apply (match_score_bounds shadow_steps shadow_expected _ H).
Defined.

(** ** Signed approval tokens *)

Section SignApproval.
Import security signing.

Variable hmac_sha256 : string -> string -> string.
Variable secret : string.
Variable isoformat : Z -> string.

Lemma split_on_dot_free s : dot_free s -> split_on "."%char s = [s].
Proof.
  unfold dot_free. induction s as [|c s IH]; intros H; simpl in *; [reflexivity|].
  destruct (Ascii.eqb_spec c "."%char) as [->|Hc]; [exfalso; apply H; left; reflexivity|].
  rewrite IH by (intros Hin; apply H; right; exact Hin). reflexivity.
Qed.

Lemma split_on_dot a b :
  dot_free a -> split_on "."%char (a ++ "." ++ b) = a :: split_on "."%char b.
Proof.
  unfold dot_free. induction a as [|c a IH]; intros H; simpl in *; [reflexivity|].
  destruct (Ascii.eqb_spec c "."%char) as [->|Hc]; [exfalso; apply H; left; reflexivity|].
  rewrite IH by (intros Hin; apply H; right; exact Hin). reflexivity.
Qed.

Lemma substring_In c s : forall n m,
  In c (list_ascii_of_string (String.substring n m s)) -> In c (list_ascii_of_string s).
Proof.
  induction s as [|d s IH]; intros n m H.
  - destruct n, m; simpl in H; contradiction.
  - destruct n as [|n].
    + destruct m as [|m]; simpl in H; [contradiction|].
      destruct H as [H|H]; [left; exact H | right; apply (IH 0 m); exact H].
    + simpl in H. right. apply (IH n m). exact H.
Qed.

(** X20. The token that [sign_approval] hands out passes [verify_approval]
    against the signature and the expiry it was handed out with, at every
    instant up to the expiry and at none after it; the expiry is [ttl_min]
    minutes after the signing.  The nonce of [secrets.token_urlsafe] and
    the hexadecimal digest hold no dot, and the digest is not empty. *)
Theorem sign_then_verify (nonce : string) (now : Z) (payload : py.dict) (ttl_min : Z)
    (at_ : Z) :
  dot_free nonce ->
  (forall key data, dot_free (hmac_sha256 key data) /\ hmac_sha256 key data <> "") ->
  let s := sign_approval hmac_sha256 secret isoformat nonce now payload ttl_min in
  expires_at s = (now + ttl_min * 60000000)%Z /\
  verify_approval at_ (token s) (Some (sig s)) (Some (expires_at s))
  = (at_ <=? expires_at s)%Z.
Proof.
  intros Hn Hd s. split; [reflexivity|].
  unfold verify_approval. subst s. cbn [sign_approval token sig expires_at].
  set (exp := (now + ttl_min * 60000000)%Z).
  set (canonical := json.dumps_sort_keys _).
  destruct (Hd secret canonical) as [Hdot Hne].
  rewrite split_on_dot by exact Hn.
  rewrite split_on_dot_free
    by (intros Hin; apply Hdot; apply (substring_In _ _ 0 16); exact Hin).
  cbn [List.length Nat.eqb negb].
  destruct (hmac_sha256 secret canonical) as [|c d] eqn:E; [contradiction|].
  cbn [String.length Nat.ltb Nat.leb].
  rewrite Z.leb_antisym. destruct (exp <? at_)%Z; reflexivity.
Qed.

End SignApproval.

Lemma sign_then_verify_witness :
  signing.dot_free "Zm9vYmFy" /\
  let s := security.sign_approval demo_digest "k" demo_isoformat "Zm9vYmFy" 1000000
             [("approval_id", py.PStr "ap-1")] 60 in
  security.token s = "Zm9vYmFy.5f2a9c0e77b1d4a8" /\
  security.verify_approval 2000000 (security.token s) (Some (security.sig s))
                           (Some (security.expires_at s)) = true.
Proof.
  assert (Hn : signing.dot_free "Zm9vYmFy")
    by (unfold signing.dot_free; simpl; intuition discriminate).
  assert (Hd : forall key data : string,
             signing.dot_free (demo_digest key data) /\ demo_digest key data <> "").
  { intros key data. split; [|discriminate].
    unfold signing.dot_free, demo_digest, demo_sig. simpl. intuition discriminate. }
  split; [exact Hn|]. cbv zeta. split; [reflexivity|].
  destruct (sign_then_verify demo_digest "k" demo_isoformat "Zm9vYmFy" 1000000
              [("approval_id", py.PStr "ap-1")] 60 2000000 Hn Hd) as [_ H].
  rewrite H. reflexivity.
Defined.

(** ** Decisions on approvals *)

Section ApprovalDecisions.
Import approvals approval_requests.

Variable hmac_sha256 : string -> string -> string.
Variable secret : string.

Let approve := approve_approval hmac_sha256 secret.
Let deny := deny_approval hmac_sha256 secret.

Lemma selected_set_approved approval_id tenant project a b :
  selected approval_id tenant project (set_approved a b)
  = selected approval_id tenant project a.
Proof. reflexivity. Qed.

Lemma find_commit_approved (sel : Approval -> bool) l a :
  (forall x, sel (set_approved x true) = sel x) ->
  find sel l = Some a ->
  find sel (commit_approved sel l) = Some (set_approved a true).
Proof.
  intros Hsel. induction l as [|x r IH]; simpl; [discriminate|].
  destruct (sel x) eqn:E; intros H.
  - injection H as <-. simpl. rewrite Hsel, E. reflexivity.
  - simpl. rewrite E. apply IH. exact H.
Qed.

Lemma others_commit_approved (sel : Approval -> bool) l :
  (forall x, sel (set_approved x true) = sel x) ->
  filter (others sel) (commit_approved sel l) = filter (others sel) l /\
  List.length (commit_approved sel l) = List.length l.
Proof.
  intros Hsel. unfold others. induction l as [|x r [IH1 IH2]]; simpl; [split; reflexivity|].
  destruct (sel x) eqn:E; simpl.
  - rewrite Hsel, E. simpl. split; reflexivity.
  - rewrite E. simpl. rewrite IH1, IH2. split; reflexivity.
Qed.

(** X21. What [approve_approval] answers and does, case by case.  No row
    selected: 404.  The row approved already: "already approved".  Else
    the token decides: when it is accepted the row and no other becomes
    approved and one entry [approval.approved] is appended to the audit
    table; when it is not the answer is 400 or 403.  In every case but
    the approval itself both tables are as they were. *)
Theorem approve_outcome (now : Z) (audit_id user_email tenant : string)
    (project : option string) (approval_id : string) (payload_token : option string)
    (st : state) :
  let sel := selected approval_id tenant project in
  let answer := approve now audit_id user_email tenant project approval_id payload_token st in
  match find sel (approvals_table st) with
  | None => answer = (HTTPException 404 "approval not found", st)
  | Some a =>
      if approved a then answer = (Ok200 AlreadyApproved, st)
      else if token_accepted now a payload_token then
        fst answer = Ok200 (Approved approval_id) /\
        find sel (approvals_table (snd answer)) = Some (set_approved a true) /\
        filter (others sel) (approvals_table (snd answer))
        = filter (others sel) (approvals_table st) /\
        List.length (approvals_table (snd answer)) = List.length (approvals_table st) /\
        exists log, audit_table (snd answer) = (audit_table st ++ [log])%list /\
                    audit.id log = audit_id /\
                    decision_entry "approval.approved" user_email tenant approval_id a log
      else
        snd answer = st /\
        (fst answer = HTTPException 400 "token required" \/
         fst answer = HTTPException 403 "invalid or expired token" \/
         fst answer = HTTPException 403 "invalid token")
  end.
Proof.
  cbv zeta. unfold approve, approve_approval, token_accepted.
  destruct (find _ (approvals_table st)) as [a|] eqn:Hf; [|reflexivity].
  destruct (approved a) eqn:Ha; [reflexivity|].
  destruct (truthy_str (sig a) &&
            match sig_expires_at a with Some _ => true | None => false end) eqn:Hs.
  - destruct payload_token as [tok|]; cbn [truthy_str negb].
    + destruct (String.eqb tok ""); cbn [negb andb]; [split; auto|].
      destruct (security.verify_approval now tok (sig a) (sig_expires_at a));
        cbn [negb fst snd approvals_table audit_table]; [|split; auto].
      split; [reflexivity|].
      split; [apply find_commit_approved; [intros x; reflexivity | exact Hf]|].
      split; [apply others_commit_approved; intros x; reflexivity|].
      split; [apply others_commit_approved; intros x; reflexivity|].
      unfold audit.write_audit. eexists. split; [reflexivity|].
      split; [reflexivity|]. repeat split.
    + split; auto.
  - destruct (truthy_str (token a)) eqn:Ht; cbn [negb orb andb].
    + destruct (opt_str_eqb (token a) payload_token);
        cbn [negb fst snd approvals_table audit_table]; [|split; auto].
      split; [reflexivity|].
      split; [apply find_commit_approved; [intros x; reflexivity | exact Hf]|].
      split; [apply others_commit_approved; intros x; reflexivity|].
      split; [apply others_commit_approved; intros x; reflexivity|].
      unfold audit.write_audit. eexists. split; [reflexivity|].
      split; [reflexivity|]. repeat split.
    + cbn [fst snd approvals_table audit_table].
      split; [reflexivity|].
      split; [apply find_commit_approved; [intros x; reflexivity | exact Hf]|].
      split; [apply others_commit_approved; intros x; reflexivity|].
      split; [apply others_commit_approved; intros x; reflexivity|].
      unfold audit.write_audit. eexists. split; [reflexivity|].
      split; [reflexivity|]. repeat split.
Qed.

Lemma approve_approved_inv now audit_id user_email tenant project approval_id payload_token
    st i st' :
  approve now audit_id user_email tenant project approval_id payload_token st
  = (Ok200 (Approved i), st') ->
  exists a, find (selected approval_id tenant project) (approvals_table st) = Some a /\
            approvals_table st'
            = commit_approved (selected approval_id tenant project) (approvals_table st).
Proof.
  unfold approve, approve_approval.
  destruct (find _ (approvals_table st)) as [a|] eqn:Hf; [|discriminate].
  destruct (approved a); [discriminate|].
  match goal with |- (match ?c with _ => _ end) = _ -> _ => destruct c as [err|] eqn:Hc end.
  - intros H. injection H as H _.
    destruct (truthy_str (sig a) && _) in Hc.
    + destruct (negb (truthy_str payload_token)); [injection Hc as <-; discriminate|].
      destruct payload_token as [tok|]; [|injection Hc as <-; discriminate].
      destruct (negb _) in Hc; [injection Hc as <-; discriminate | discriminate].
    + destruct (truthy_str (token a) && _) in Hc;
        [injection Hc as <-; discriminate | discriminate].
  - intros H. injection H as _ <-. exists a. split; reflexivity.
Qed.

(** X22. An approval is given once: after a request has approved a row,
    every further request for it, whatever its token and whenever it
    comes, is answered "already approved" and changes neither table. *)
Theorem approve_twice (now : Z) (audit_id user_email tenant : string)
    (project : option string) (approval_id : string) (payload_token : option string)
    (st st' : state) :
  approve now audit_id user_email tenant project approval_id payload_token st
  = (Ok200 (Approved approval_id), st') ->
  forall now' audit_id' user_email' payload_token',
    approve now' audit_id' user_email' tenant project approval_id payload_token' st'
    = (Ok200 AlreadyApproved, st').
Proof.
  intros H now' audit_id' user_email' payload_token'.
  destruct (approve_approved_inv _ _ _ _ _ _ _ _ _ _ H) as [a [Hf Ht]].
  apply (approve_already_approved hmac_sha256 secret now' audit_id' user_email' tenant
           project approval_id payload_token' st' (set_approved a true)).
  - rewrite Ht. apply find_commit_approved; [intros x; reflexivity | exact Hf].
  - reflexivity.
Qed.

Lemma find_replace_first {A : Type} (sel : A -> bool) row l x :
  sel row = true -> find sel l = Some x -> find sel (replace_first sel row l) = Some row.
Proof.
  intros Hrow. induction l as [|y r IH]; simpl; [discriminate|].
  destruct (sel y) eqn:E; intros H; simpl.
  - rewrite Hrow. reflexivity.
  - rewrite E. apply IH. exact H.
Qed.

Lemma others_replace_first {A : Type} (sel : A -> bool) row l :
  sel row = true ->
  filter (others sel) (replace_first sel row l) = filter (others sel) l /\
  List.length (replace_first sel row l) = List.length l.
Proof.
  intros Hrow. unfold others. induction l as [|y r [IH1 IH2]]; simpl; [split; reflexivity|].
  destruct (sel y) eqn:E; simpl.
  - rewrite Hrow. simpl. split; reflexivity.
  - rewrite E. simpl. rewrite IH1, IH2. split; reflexivity.
Qed.

Lemma remove_first_rows {A : Type} (sel : A -> bool) l x :
  find sel l = Some x ->
  filter sel (remove_first sel l) = tl (filter sel l) /\
  filter (others sel) (remove_first sel l) = filter (others sel) l /\
  S (List.length (remove_first sel l)) = List.length l.
Proof.
  unfold others. induction l as [|y r IH]; simpl; [discriminate|].
  destruct (sel y) eqn:E; intros H; simpl.
  - repeat split; reflexivity.
  - rewrite E. simpl. destruct (IH H) as [H1 [H2 H3]]. rewrite H1, H2, H3.
    repeat split; reflexivity.
Qed.

(** X23. What [deny_approval] answers and does, case by case.  No row
    selected: 404.  The row approved already: "already approved, cannot
    deny", and nothing changes.  Else the row, and that row only, is
    deleted, one entry [approval.reject] is appended to the audit table,
    and when the run and its step of that name exist the step becomes
    FAILED with the error "Approval denied" and the clock reading as its
    end, and the run FAILED; when either is missing the runs and the steps
    stay as they are. *)
Theorem deny_outcome (now : Z) (audit_id user_email tenant : string)
    (project : option string) (approval_id : string) (db : database) :
  let sel := selected approval_id tenant project in
  let answer := deny now audit_id user_email tenant project approval_id db in
  let db' := snd answer in
  match find sel (approvals_rows db) with
  | None => answer = (DenyHTTPException 404 "approval not found", db)
  | Some a =>
      if approved a then answer = (DenyOk200 CannotDeny, db)
      else
        fst answer = DenyOk200 (Denied approval_id) /\
        (filter sel (approvals_rows db') = tl (filter sel (approvals_rows db)) /\
         filter (others sel) (approvals_rows db') = filter (others sel) (approvals_rows db) /\
         S (List.length (approvals_rows db')) = List.length (approvals_rows db)) /\
        (exists log, audit_rows db' = (audit_rows db ++ [log])%list /\
                     audit.id log = audit_id /\
                     decision_entry "approval.reject" user_email tenant approval_id a log) /\
        let this_run := is_run (run_id a) in
        let this_step := is_run_step (run_id a) (step_name a) in
        match find this_run (runs_rows db), find this_step (steps_rows db) with
        | Some run, Some step =>
            find this_step (steps_rows db') = Some (denied_step now step) /\
            models.status (denied_step now step) = models.FAILED /\
            models.error (denied_step now step)
            = Some (py.PDict [("message", py.PStr "Approval denied")]) /\
            models.ended_at (denied_step now step) = Some now /\
            filter (others this_step) (steps_rows db')
            = filter (others this_step) (steps_rows db) /\
            find this_run (runs_rows db') = Some (failed_run run) /\
            models.Run.status (failed_run run) = models.RunStatus.FAILED /\
            filter (others this_run) (runs_rows db') = filter (others this_run) (runs_rows db)
        | _, _ => runs_rows db' = runs_rows db /\ steps_rows db' = steps_rows db
        end
  end.
Proof.
  cbv zeta. unfold deny, deny_approval.
  destruct (find _ (approvals_rows db)) as [a|] eqn:Hf; [|reflexivity].
  destruct (approved a) eqn:Ha; [reflexivity|].
  destruct (find (is_run (run_id a)) (runs_rows db)) as [run|] eqn:Hr;
    [destruct (find (is_run_step (run_id a) (step_name a)) (steps_rows db))
       as [step|] eqn:Hs|];
    cbn [fst snd approvals_rows audit_rows runs_rows steps_rows].
  all: split; [reflexivity|].
  all: split; [apply (remove_first_rows _ _ a); exact Hf|].
  all: split; [unfold audit.write_audit; eexists; split; [reflexivity|];
               split; [reflexivity|]; repeat split|].
  - assert (Hs' : is_run_step (run_id a) (step_name a) (denied_step now step) = true)
      by (destruct (find_some _ _ Hs) as [_ H]; exact H).
    assert (Hr' : is_run (run_id a) (failed_run run) = true)
      by (destruct (find_some _ _ Hr) as [_ H]; exact H).
    split; [apply (find_replace_first _ _ _ step); assumption|].
    do 3 (split; [reflexivity|]).
    split; [apply others_replace_first; exact Hs'|].
    split; [apply (find_replace_first _ _ _ run); assumption|].
    split; [reflexivity|].
    apply others_replace_first; exact Hr'.
  - split; reflexivity.
  - split; reflexivity.
Qed.

Lemma selected_id approval_id tenant project a :
  selected approval_id tenant project a = true -> id a = approval_id.
Proof.
  unfold selected. intros H. apply andb_true_iff in H. destruct H as [H _].
  apply andb_true_iff in H. destruct H as [H _]. apply String.eqb_eq. exact H.
Qed.

Lemma remove_first_unique approval_id tenant project l a :
  NoDup (map id l) ->
  find (selected approval_id tenant project) l = Some a ->
  find (selected approval_id tenant project)
       (remove_first (selected approval_id tenant project) l) = None.
Proof.
  induction l as [|y r IH]; simpl; [discriminate|]. intros Hnd.
  inversion Hnd as [|? ? Hy Hr]; subst.
  destruct (selected approval_id tenant project y) eqn:E; intros H.
  - destruct (find (selected approval_id tenant project) r) as [z|] eqn:Hz; [|reflexivity].
    exfalso. apply Hy. destruct (find_some _ _ Hz) as [Hin Hsel].
    apply selected_id in E. apply selected_id in Hsel. rewrite E, <- Hsel.
    apply in_map. exact Hin.
  - simpl. rewrite E. apply IH; assumption.
Qed.

Lemma deny_denied_inv now audit_id user_email tenant project approval_id db i db' :
  deny now audit_id user_email tenant project approval_id db = (DenyOk200 (Denied i), db') ->
  exists a, find (selected approval_id tenant project) (approvals_rows db) = Some a /\
            approvals_rows db'
            = remove_first (selected approval_id tenant project) (approvals_rows db).
Proof.
  unfold deny, deny_approval.
  destruct (find _ (approvals_rows db)) as [a|] eqn:Hf; [|discriminate].
  destruct (approved a); [discriminate|].
  destruct (find (is_run (run_id a)) (runs_rows db)) as [run|];
    [destruct (find (is_run_step (run_id a) (step_name a)) (steps_rows db)) as [step|]|];
    intros H; injection H as _ <-; exists a; split; reflexivity.
Qed.

(** X24. A denial is final.  The ids of the approvals being distinct, once
    a request has denied an approval every later request to approve it or
    to deny it, whatever its token, is answered 404 and changes nothing:
    the row is deleted, not marked. *)
Theorem deny_is_final (now : Z) (audit_id user_email tenant : string)
    (project : option string) (approval_id : string) (db db' : database) :
  NoDup (map id (approvals_rows db)) ->
  deny now audit_id user_email tenant project approval_id db
  = (DenyOk200 (Denied approval_id), db') ->
  forall now' audit_id' user_email' payload_token',
    approve now' audit_id' user_email' tenant project approval_id payload_token'
            (gateway_state db')
    = (HTTPException 404 "approval not found", gateway_state db') /\
    deny now' audit_id' user_email' tenant project approval_id db'
    = (DenyHTTPException 404 "approval not found", db').
Proof.
  intros Hnd H now' audit_id' user_email' payload_token'.
  destruct (deny_denied_inv _ _ _ _ _ _ _ _ _ H) as [a [Hf Hrows]].
  pose proof (remove_first_unique approval_id tenant project _ a Hnd Hf) as Hgone.
  rewrite <- Hrows in Hgone.
  unfold approve, approve_approval, deny, deny_approval, gateway_state.
  cbn [approvals_table]. rewrite Hgone. split; reflexivity.
Qed.

End ApprovalDecisions.

Lemma approve_twice_witness :
  let st' :=
    snd (approvals.approve_approval demo_hmac "k" 1000000 "audit-1" "ana@example.com"
           "acme" None "ap-1" (Some "nonce.5f2a9c0e77b1d4a8") demo_gateway) in
  approvals.approve_approval demo_hmac "k" 9000000 "audit-2" "eve@example.com"
    "acme" None "ap-1" None st'
  = (approvals.Ok200 approvals.AlreadyApproved, st').
Proof.
  cbv zeta.
  apply (approve_twice demo_hmac "k" 1000000 "audit-1" "ana@example.com" "acme" None
           "ap-1" (Some "nonce.5f2a9c0e77b1d4a8") demo_gateway).
  vm_compute. reflexivity.
Defined.

Lemma deny_is_final_witness :
  NoDup (map approvals.id (approvals.approvals_rows demo_database)) /\
  let db' :=
    snd (approvals.deny_approval demo_hmac "k" 1000000 "audit-1" "ana@example.com"
           "acme" None "ap-1" demo_database) in
  approvals.approve_approval demo_hmac "k" 1500000 "audit-2" "eve@example.com"
    "acme" None "ap-1" (Some "nonce.5f2a9c0e77b1d4a8") (approval_requests.gateway_state db')
  = (approvals.HTTPException 404 "approval not found", approval_requests.gateway_state db').
Proof.
  assert (Hnd : NoDup (map approvals.id (approvals.approvals_rows demo_database)))
    by (repeat constructor; simpl; intuition).
  split; [exact Hnd|]. cbv zeta.
  apply (deny_is_final demo_hmac "k" 1000000 "audit-1" "ana@example.com" "acme" None
           "ap-1" demo_database _ Hnd).
  vm_compute. reflexivity.
Defined.

(** On the example data: the denial deletes the approval, fails the step
    and the run, and writes one audit entry. *)
Example deny_approval_scenario :
  let '(answer, db') :=
    approvals.deny_approval demo_hmac "k" 1000000 "audit-1" "ana@example.com"
      "acme" None "ap-1" demo_database in
  answer = approvals.DenyOk200 (approvals.Denied "ap-1") /\
  approvals.approvals_rows db' = [] /\
  map models.status (approvals.steps_rows db') = [models.FAILED] /\
  map models.Run.status (approvals.runs_rows db') = [models.RunStatus.FAILED] /\
  map audit.action (approvals.audit_rows db') = ["approval.reject"].
Proof. vm_compute. repeat split. Qed.

(** ** Tenants, projects and subjects of a request *)

Section Tenancy.
Import request tenancy identity.

Variable DEFAULT_TENANT_NAME : string.
Variable AUTO_CREATE_PROJECTS : bool.

Local Abbreviation resolve_tenant' := (resolve_tenant DEFAULT_TENANT_NAME).
Local Abbreviation resolve_project' := (resolve_project AUTO_CREATE_PROJECTS).
Local Abbreviation resolve :=
  (get_tenant_and_project DEFAULT_TENANT_NAME AUTO_CREATE_PROJECTS).

Lemma find_app_new {A : Type} (f : A -> bool) l x :
  find f l = None -> f x = true -> find f (l ++ [x])%list = Some x.
Proof.
  induction l as [|y r IH]; simpl; intros H Hx; [rewrite Hx; reflexivity|].
  destruct (f y); [discriminate|]. apply IH; assumption.
Qed.

Lemma resolve_tenant_again new_id new_id' req req' db t db1 db2 :
  resolve_tenant' new_id req db = (t, db1) ->
  request.tenant_id (state req') = Some t ->
  tenants db2 = tenants db1 ->
  resolve_tenant' new_id' req' db2 = (t, db2).
Proof.
  unfold resolve_tenant. intros H Hst Hdb. rewrite Hst.
  destruct (truthy_str (Some t)) eqn:Ht; [reflexivity|].
  rewrite Hdb.
  destruct (truthy_str (request.tenant_id (state req))) eqn:Hreq.
  - injection H as H _. destruct (request.tenant_id (state req)) as [t0|]; [|discriminate].
    subst t0. rewrite Ht in Hreq. discriminate.
  - destruct (find _ (tenants db)) as [tenant|] eqn:Hf.
    + injection H as <- <-. rewrite Hf. reflexivity.
    + injection H as <- <-. cbn [tenants].
      rewrite (find_app_new _ _ _ Hf) by (cbn [Tenant.name]; apply String.eqb_refl).
      reflexivity.
Qed.

Lemma resolve_project_again new_id new_id' req req' db t p db1 :
  resolve_project' new_id req db t = Ret (p, db1) ->
  x_project req' = x_project req ->
  resolve_project' new_id' req' db1 t = Ret (p, db1).
Proof.
  unfold resolve_project. intros H Hx. rewrite Hx.
  destruct (negb (truthy_str (x_project req))); [injection H as <- <-; reflexivity|].
  destruct (find _ (projects db)) as [project|] eqn:Hf.
  - injection H as <- <-. rewrite Hf. reflexivity.
  - destruct AUTO_CREATE_PROJECTS; [|discriminate].
    injection H as <- <-. cbn [projects].
    rewrite (find_app_new _ _ _ Hf)
      by (cbn [Project.tenant_id Project.name]; rewrite !String.eqb_refl; reflexivity).
    reflexivity.
Qed.

(** X25. Resolving the tenant and the project of a request is stable:
    resolved again, with the state that the first resolution attached and
    the tables it left, the request gets the same tenant and the same
    project, and no row is created. *)
Theorem resolution_is_stable (tenant_uuid project_uuid : string) (req req' : Request)
    (db db' : tables) (tenant : string) (project : option string) :
  resolve tenant_uuid project_uuid req db = Ret (tenant, project, req', db') ->
  forall tenant_uuid' project_uuid',
    resolve tenant_uuid' project_uuid' req' db' = Ret (tenant, project, req', db').
Proof.
  unfold get_tenant_and_project. intros H tenant_uuid' project_uuid'.
  destruct (resolve_tenant' tenant_uuid req db) as [t db1] eqn:Ht.
  destruct (resolve_project' project_uuid req db1 t) as [[p db2]|e] eqn:Hp;
    [|discriminate].
  cbn [bind] in H. injection H as <- <- <- <-.
  assert (Hten : tenants db2 = tenants db1).
  { revert Hp. unfold resolve_project.
    destruct (negb _); [intros H; injection H as _ <-; reflexivity|].
    destruct (find _ (projects db1)); [intros H; injection H as _ <-; reflexivity|].
    destruct AUTO_CREATE_PROJECTS; [|discriminate].
    intros H; injection H as _ <-. reflexivity. }
  rewrite (resolve_tenant_again tenant_uuid tenant_uuid' req _ db t db1 db2 Ht)
    by (try reflexivity; exact Hten).
  rewrite (resolve_project_again project_uuid project_uuid' req _ db1 t p db2 Hp)
    by reflexivity.
  reflexivity.
Qed.

(** X26. What a resolution returns.  The tenant is the one that the
    middleware attached to the request when there is one, and the tenant
    named [DEFAULT_TENANT_NAME] else, created when it is missing.  The
    project is none exactly when the [X-Project] header is absent or
    empty, and else the id of a project of that very tenant with the name
    of the header; both are attached to the state of the request; the
    tables grow by one tenant and one project at most, and by no project
    unless [AUTO_CREATE_PROJECTS] is set.  The only error is the 404 for a
    name that no project of the tenant has, when projects are not
    created. *)
Theorem resolution_outcome (tenant_uuid project_uuid : string) (req : Request)
    (db : tables) :
  match resolve tenant_uuid project_uuid req db with
  | Ret (tenant, project, req', db') =>
      request.tenant_id (state req') = Some tenant /\
      request.project_id (state req') = project /\
      (truthy_str (request.tenant_id (state req)) = true ->
       request.tenant_id (state req) = Some tenant /\ tenants db' = tenants db) /\
      (truthy_str (request.tenant_id (state req)) = false ->
       exists row, In row (tenants db') /\ Tenant.id row = tenant /\
                   Tenant.name row = DEFAULT_TENANT_NAME) /\
      (project = None <-> truthy_str (x_project req) = false) /\
      (forall pid, project = Some pid ->
         exists row, In row (projects db') /\ Project.id row = pid /\
                     names_project req tenant row) /\
      grown db db' /\
      (AUTO_CREATE_PROJECTS = false -> projects db' = projects db)
  | Raise e =>
      AUTO_CREATE_PROJECTS = false /\
      exists name, x_project req = Some name /\ name <> "" /\
        e = "404 project '" ++ name ++ "' not found" /\
        forall row, In row (projects db) -> Project.name row = name ->
                    Project.tenant_id row <> fst (resolve_tenant' tenant_uuid req db)
  end.
Proof.
  unfold get_tenant_and_project.
  destruct (resolve_tenant' tenant_uuid req db) as [t db1] eqn:Ht.
  assert (Htenant :
    projects db1 = projects db /\
    (exists new, tenants db1 = (tenants db ++ new)%list /\ List.length new <= 1) /\
    (truthy_str (request.tenant_id (state req)) = true ->
     request.tenant_id (state req) = Some t /\ tenants db1 = tenants db) /\
    (truthy_str (request.tenant_id (state req)) = false ->
     exists row, In row (tenants db1) /\ Tenant.id row = t /\
                 Tenant.name row = DEFAULT_TENANT_NAME)).
  { revert Ht. unfold resolve_tenant.
    destruct (truthy_str (request.tenant_id (state req))) eqn:Hst.
    - intros H. injection H as <- <-. split; [reflexivity|].
      split; [exists []; split; [symmetry; apply app_nil_r | simpl; lia]|].
      split; [|discriminate]. intros _.
      destruct (request.tenant_id (state req)); [split; reflexivity | discriminate].
    - destruct (find _ (tenants db)) as [tenant|] eqn:Hf; intros H; injection H as <- <-.
      + split; [reflexivity|].
        split; [exists []; split; [symmetry; apply app_nil_r | simpl; lia]|].
        split; [discriminate|]. intros _. destruct (find_some _ _ Hf) as [Hin Hn].
        exists tenant. split; [exact Hin|]. split; [reflexivity|].
        apply String.eqb_eq. exact Hn.
      + cbn [projects tenants]. split; [reflexivity|].
        split; [eexists; split; [reflexivity | simpl; lia]|].
        split; [discriminate|]. intros _. eexists. split; [apply in_or_app; right; left;
          reflexivity|]. split; reflexivity. }
  destruct Htenant as [Hproj [[newt [Hten Hlen]] [Hkey Hdef]]].
  unfold resolve_project.
  destruct (truthy_str (x_project req)) eqn:Hx; cbn [negb].
  - destruct (x_project req) as [name|] eqn:Hname; [|discriminate].
    assert (Hne : name <> "").
    { intros ->. discriminate. }
    destruct (find _ (projects db1)) as [project|] eqn:Hf.
    + cbn [bind state request.tenant_id request.project_id].
      split; [reflexivity|]. split; [reflexivity|].
      split; [exact Hkey|]. split; [exact Hdef|].
      split; [split; discriminate|].
      split.
      * intros pid H. injection H as <-. destruct (find_some _ _ Hf) as [Hin Hp].
        apply andb_true_iff in Hp. destruct Hp as [Hp1 Hp2].
        apply String.eqb_eq in Hp1. apply String.eqb_eq in Hp2.
        exists project. split; [exact Hin|]. split; [reflexivity|].
        split; [exact Hp1|]. rewrite Hname, Hp2. reflexivity.
      * split; [|intros _; exact Hproj].
        exists newt, []. split; [exact Hten|].
        split; [rewrite Hproj; symmetry; apply app_nil_r|]. split; [exact Hlen | simpl; lia].
    + destruct AUTO_CREATE_PROJECTS eqn:Hauto.
      * cbn [bind state request.tenant_id request.project_id projects tenants].
        split; [reflexivity|]. split; [reflexivity|].
        split; [exact Hkey|]. split; [exact Hdef|].
        split; [split; discriminate|].
        split.
        -- intros pid H. injection H as <-. eexists.
           split; [apply in_or_app; right; left; reflexivity|].
           split; [reflexivity|]. split; [reflexivity | exact Hname].
        -- split; [|discriminate].
           exists newt. eexists. split; [exact Hten|].
           split; [rewrite Hproj; reflexivity|]. split; [exact Hlen | simpl; lia].
      * cbn [bind fst]. split; [reflexivity|]. exists name.
        split; [reflexivity|]. split; [exact Hne|]. split; [reflexivity|].
        intros row Hin Hn Ht'. rewrite <- Hproj in Hin.
        pose proof (find_none _ _ Hf row Hin) as Hno. cbv beta in Hno.
        rewrite Ht', Hn, !String.eqb_refl in Hno. discriminate.
  - cbn [bind state request.tenant_id request.project_id].
    split; [reflexivity|]. split; [reflexivity|].
    split; [exact Hkey|]. split; [exact Hdef|].
    split; [split; reflexivity|].
    split; [discriminate|].
    split; [|intros _; exact Hproj].
    exists newt, []. split; [exact Hten|].
    split; [rewrite Hproj; symmetry; apply app_nil_r|]. split; [exact Hlen | simpl; lia].
Qed.

End Tenancy.

Section Subjects.
Import request tenancy identity rbac.

Variable DEFAULT_TENANT_NAME : string.
Variable AUTO_CREATE_PROJECTS : bool.

Local Abbreviation resolve :=
  (get_tenant_and_project DEFAULT_TENANT_NAME AUTO_CREATE_PROJECTS).

Lemma subjects_nil st : _get_subject_identifiers st = [] <-> no_credentials st.
Proof.
  unfold _get_subject_identifiers, no_credentials.
  destruct (truthy_str (user_email st)) eqn:He; cbn [app].
  - split; [|intros [H _]; discriminate].
    intros H. exfalso. revert H.
    destruct (opt_str_eqb (authn st) (Some "apikey"));
      [destruct (truthy_str (api_key_id st))|]; discriminate.
  - destruct (user_groups st) as [|g gs] eqn:Hg; cbn [map app].
    + destruct (opt_str_eqb (authn st) (Some "apikey")) eqn:Ha.
      * destruct (truthy_str (api_key_id st)) eqn:Hk; cbn [app].
        -- split; [discriminate|]. intros [_ [_ H]].
           destruct (authn st) as [a|]; [|discriminate]. simpl in Ha.
           apply String.eqb_eq in Ha. subst a. specialize (H eq_refl). discriminate.
        -- split; auto.
      * split; [|reflexivity]. intros _. split; [reflexivity|]. split; [reflexivity|].
        intros E. rewrite E in Ha. discriminate.
    + split; [|intros [_ [H _]]; discriminate].
      intros H. exfalso. revert H.
      destruct (opt_str_eqb (authn st) (Some "apikey"));
        [destruct (truthy_str (api_key_id st))|]; discriminate.
Qed.

Lemma resolve_keeps_credentials tenant_uuid project_uuid req db tenant project req' db' :
  resolve tenant_uuid project_uuid req db = Ret (tenant, project, req', db') ->
  _get_subject_identifiers (state req') = _get_subject_identifiers (state req).
Proof.
  unfold get_tenant_and_project.
  destruct (resolve_tenant _ _ _ _) as [t db1].
  destruct (resolve_project _ _ _ _ _) as [[p db2]|e]; [|discriminate].
  cbn [bind]. intros H. injection H as _ _ <- _. reflexivity.
Qed.

Lemma resolve_raises tenant_uuid project_uuid req db e :
  resolve tenant_uuid project_uuid req db = Raise e ->
  exists name, x_project req = Some name /\ e = "404 project '" ++ name ++ "' not found".
Proof.
  unfold get_tenant_and_project.
  destruct (resolve_tenant _ _ _ _) as [t db1]. unfold resolve_project.
  destruct (x_project req) as [name|]; [|discriminate].
  destruct (negb (truthy_str (Some name))); [discriminate|].
  destruct (find _ (projects db1)); [discriminate|].
  destruct AUTO_CREATE_PROJECTS; [discriminate|].
  cbn [bind]. intros H. injection H as <-. exists name. split; reflexivity.
Qed.

(** X27. Who passes the dependency of [authorize].  A request with no
    user, no group and no API key id is never let through: it is answered
    401, or 404 when it names a project that does not resolve.  A request
    with a credential is never answered 401.  A request is let through
    only when some role bound to one of its subjects, in the tenant and
    the project that the resolution gave it, has the permission. *)
Theorem authorize_dependency (action resource tenant_uuid project_uuid : string)
    (req : Request) (db : tables) (bindings : list RoleBinding) :
  let answer :=
    _authorize DEFAULT_TENANT_NAME AUTO_CREATE_PROJECTS action resource
               tenant_uuid project_uuid req db bindings in
  let subjects := _get_subject_identifiers (state req) in
  (subjects = [] <-> no_credentials (state req)) /\
  (no_credentials (state req) ->
   answer = Raise "401 authentication required" \/
   exists name, x_project req = Some name /\
                answer = Raise ("404 project '" ++ name ++ "' not found")) /\
  (~ no_credentials (state req) -> answer <> Raise "401 authentication required") /\
  (forall req' db', answer = Ret (req', db') ->
     exists tenant project,
       resolve tenant_uuid project_uuid req db = Ret (tenant, project, req', db') /\
       granted action resource tenant project bindings subjects).
Proof.
  cbv zeta. split; [apply subjects_nil|].
  unfold _authorize.
  pose proof (resolve_raises tenant_uuid project_uuid req db) as Hres.
  destruct (resolve tenant_uuid project_uuid req db) as [[[[t p] req1] db1]|e] eqn:Hr.
  - cbn [bind]. rewrite (resolve_keeps_credentials _ _ _ _ _ _ _ _ Hr).
    destruct (authorize_cases action resource t p
                (_get_subject_identifiers (state req)) bindings)
      as [[H1 H2]|[[H1 [H2 H3]]|[H1 [H2 H3]]]]; rewrite ?H2, ?H3; cbn [bind].
    + split; [intros _; left; reflexivity|].
      split; [intros Hc; exfalso; apply Hc; apply subjects_nil; exact H1|].
      discriminate.
    + split; [intros Hc; exfalso; apply H1; apply subjects_nil; exact Hc|].
      split; [discriminate|].
      intros req' db' H. injection H as <- <-. exists t, p. split; [reflexivity | exact H2].
    + split; [intros Hc; exfalso; apply H1; apply subjects_nil; exact Hc|].
      split; [intros _; simpl; discriminate|]. discriminate.
  - cbn [bind]. destruct (Hres e eq_refl) as [name [Hname ->]].
    split; [intros _; right; exists name; split; [exact Hname | reflexivity]|].
    split; [intros _; simpl; discriminate | discriminate].
Qed.

End Subjects.

Lemma resolution_is_stable_witness :
  exists req' db',
    tenancy.get_tenant_and_project "default" true "t-1" "p-1" demo_request no_tables
    = Ret ("t-1", Some "p-1", req', db') /\
    tenancy.get_tenant_and_project "default" true "t-2" "p-2" req' db'
    = Ret ("t-1", Some "p-1", req', db').
Proof.
  eexists. eexists. split; [vm_compute; reflexivity|].
  apply (resolution_is_stable "default" true "t-1" "p-1" demo_request _ no_tables).
  vm_compute. reflexivity.
Defined.

(** On the example request: with no project [payments] and without
    [AUTO_CREATE_PROJECTS] the dependency answers 404, before it looks at
    the subjects; with it, the user has no binding and gets 403. *)
Example authorize_scenario :
  rbac._authorize "default" false "read" "run" "t-1" "p-1" demo_request no_tables
    demo_bindings
  = Raise "404 project 'payments' not found" /\
  rbac._authorize "default" true "read" "run" "t-1" "p-1" demo_request no_tables
    demo_bindings
  = Raise "403 permission denied: read on run".
Proof. split; vm_compute; reflexivity. Qed.

(** ** The guard of a tool call *)

Section Guard.
Import activities policy_guard guard.

Variable validate_tool_input : string -> py.dict -> list string.
Variable K8S_NAMESPACE_ALLOWLIST : list py.value.

Local Abbreviation guard_tool_call' :=
  (guard_tool_call validate_tool_input K8S_NAMESPACE_ALLOWLIST).

Lemma in_strs_tool_in tool tools :
  policy_engine.in_strs tool tools = tool_in (py.PStr tool) tools.
Proof. reflexivity. Qed.

Lemma allowed_by_allowed_for allowlist tool user_roles :
  allowed_by allowlist tool user_roles = allowed_for allowlist (py.PStr tool) user_roles.
Proof.
  induction user_roles as [|r rest IH]; simpl; [reflexivity|].
  rewrite in_strs_tool_in, IH. reflexivity.
Qed.

Lemma check_allowlist_gate user_roles tool policy :
  check_allowlist user_roles tool policy
  = if allowlist_gate (tool_allowlist policy) (py.PStr tool) user_roles then [] else [tool].
Proof.
  unfold check_allowlist, allowlist_gate. rewrite allowed_by_allowed_for.
  destruct (allowed_for _ _ _); [rewrite andb_false_r; reflexivity|].
  destruct (tool_allowlist policy); reflexivity.
Qed.

Lemma check_budgets_spec tokens usd policy :
  check_budgets tokens usd policy = true <-> within_budgets tokens usd policy.
Proof.
  unfold check_budgets, within_budgets.
  destruct (max_tokens_per_run policy) as [mt|].
  - destruct (Z.ltb_spec mt tokens) as [Hlt|Hge].
    + split; [discriminate|]. intros [H _]. specialize (H mt eq_refl). lia.
    + destruct (max_cost_per_run_usd policy) as [mc|].
      * destruct (Qle_bool usd mc) eqn:Hq; simpl.
        -- split; [|reflexivity]. intros _. split.
           ++ intros m E. injection E as <-. exact Hge.
           ++ intros m E. injection E as <-. apply Qle_bool_iff. exact Hq.
        -- split; [discriminate|]. intros [_ H]. specialize (H mc eq_refl).
           apply Qle_bool_iff in H. rewrite H in Hq. discriminate.
      * split; [|reflexivity]. intros _. split.
        -- intros m E. injection E as <-. exact Hge.
        -- discriminate.
  - destruct (max_cost_per_run_usd policy) as [mc|].
    + destruct (Qle_bool usd mc) eqn:Hq; simpl.
      * split; [|reflexivity]. intros _. split; [discriminate|].
        intros m E. injection E as <-. apply Qle_bool_iff. exact Hq.
      * split; [discriminate|]. intros [_ H]. specialize (H mc eq_refl).
        apply Qle_bool_iff in H. rewrite H in Hq. discriminate.
    + split; [|reflexivity]. intros _. split; discriminate.
Qed.

Lemma check_namespace_spec tool payload :
  _check_k8s_namespace K8S_NAMESPACE_ALLOWLIST tool payload = Ret tt <->
  namespace_allowed K8S_NAMESPACE_ALLOWLIST tool payload.
Proof.
  unfold _check_k8s_namespace, namespace_allowed.
  destruct (String.prefix "k8s." tool); cbn [negb]; [|split; [discriminate | reflexivity]].
  destruct (py.truthy (py.get payload "namespace")); cbn [negb];
    [|split; [discriminate | reflexivity]].
  destruct K8S_NAMESPACE_ALLOWLIST as [|v0 l] eqn:Hk.
  - cbn [nonempty andb]. split; [intros _ _ _; left; reflexivity | reflexivity].
  - rewrite <- Hk. destruct (existsb (py.eqb (py.get payload "namespace"))
                               K8S_NAMESPACE_ALLOWLIST) eqn:He.
    + rewrite Hk at 1. cbn [nonempty andb negb]. split; [|reflexivity].
      intros _ _ _. right. apply existsb_exists in He. exact He.
    + rewrite Hk at 1. cbn [nonempty andb negb]. split; [discriminate|].
      intros H. destruct (H eq_refl eq_refl) as [E|Hex]; [rewrite Hk in E; discriminate|].
      apply existsb_exists in Hex. rewrite Hex in He. discriminate.
Qed.

(** X28. The guard that the gateway puts before a tool call.  Its
    allowlist check is the allowlist gate of [policy_validate]; the budget
    check lets through what exceeds neither maximum, a spending equal to a
    maximum included.  A call passes the guard exactly when the allowlist
    lets it through, its input has no schema error, its namespace is
    allowed and no maximum of the policy is negative (the guard checks the
    budgets with nothing spent); a call that the allowlist refuses is
    answered 403 whatever else is wrong with it. *)
Theorem guard_tool_call_outcome (tool : string) (payload : py.dict)
    (user_roles : list string) (policy : Policy) :
  let allowed := allowlist_gate (tool_allowlist policy) (py.PStr tool) user_roles in
  (check_allowlist user_roles tool policy = [] <-> allowed = true) /\
  (forall tokens usd,
     check_budgets tokens usd policy = true <-> within_budgets tokens usd policy) /\
  (guard_tool_call' tool payload user_roles policy = Ret tt <->
   allowed = true /\ validate_tool_input tool payload = [] /\
   namespace_allowed K8S_NAMESPACE_ALLOWLIST tool payload /\
   within_budgets 0 0 policy) /\
  (allowed = false ->
   guard_tool_call' tool payload user_roles policy
   = Raise ("403 tool not allowed for roles " ++ py.str (py.PList (map py.PStr user_roles)))).
Proof.
  cbv zeta. split.
  { rewrite check_allowlist_gate. destruct (allowlist_gate _ _ _); split; congruence. }
  split; [intros tokens usd; apply check_budgets_spec|].
  unfold guard_tool_call. rewrite check_allowlist_gate.
  destruct (allowlist_gate _ _ _); cbn [nonempty].
  - split; [|discriminate].
    destruct (validate_tool_input tool payload) as [|err errs] eqn:Hv; cbn [nonempty].
    + pose proof (check_namespace_spec tool payload) as Hns.
      pose proof (check_budgets_spec 0 0 policy) as Hb.
      destruct (_check_k8s_namespace K8S_NAMESPACE_ALLOWLIST tool payload) as [[]|e];
        cbn [bind].
      * destruct (check_budgets 0 0 policy); cbn [negb].
        -- split; [|reflexivity]. intros _. split; [reflexivity|]. split; [reflexivity|].
           split; [apply Hns; reflexivity | apply Hb; reflexivity].
        -- split; [discriminate|]. intros [_ [_ [_ H]]]. apply Hb in H. discriminate.
      * split; [discriminate|]. intros [_ [_ [H _]]]. apply Hns in H. discriminate.
    + split; [discriminate|]. intros [_ [H _]]. discriminate.
  - split; [|reflexivity]. split; [discriminate|]. intros [H _]. discriminate.
Qed.

End Guard.

(** On the example policy: the role [SRE] may acknowledge a page, the
    role [Viewer] may not; and a namespace off the list is refused. *)
Example guard_tool_call_scenario :
  policy_guard.guard_tool_call (fun _ _ => []) [] "pagerduty.ack" [] ["SRE"] demo_policy
  = Ret tt /\
  policy_guard.guard_tool_call (fun _ _ => []) [] "pagerduty.ack" [] ["Viewer"] demo_policy
  = Raise "403 tool not allowed for roles ['Viewer']" /\
  policy_guard.guard_tool_call (fun _ _ => []) [py.PStr "staging"] "k8s.drain_node"
    [("namespace", py.PStr "prod")] ["Admin"] open_policy
  = Raise "403 namespace 'prod' not in allowlist: ['staging']".
Proof. repeat split; vm_compute; reflexivity. Qed.

(** ** The controls of a run *)

Section RunControl.
Import models runs run_control approval_requests.

Variable hmac_sha256 : string -> string -> string.
Variable secret : string.
Variable utcnow : nat -> Z.

Local Abbreviation cancel := (cancel_run hmac_sha256 secret utcnow).
Local Abbreviation pause := (pause_run hmac_sha256 secret).
Local Abbreviation resume := (resume_run utcnow).

Lemma open_step_status id s :
  of_run id s && (status_eqb (status s) PENDING || status_eqb (status s) RUNNING)
  = open_step id s.
Proof. unfold open_step. destruct (of_run id s), (status s); reflexivity. Qed.

Lemma cancel_steps_rows id steps : forall n,
  Forall2 (fun s s' => if open_step id s then cancelled utcnow s s' else s' = s)
          steps (cancel_steps utcnow id n steps).
Proof.
  induction steps as [|s rest IH]; intros n; cbn [cancel_steps]; [constructor|].
  rewrite open_step_status. destruct (open_step id s) eqn:E.
  - constructor; [|apply IH]. rewrite E.
    split; [reflexivity|]. split; [exists n; reflexivity|].
    split; [reflexivity|]. repeat split.
  - constructor; [|apply IH]. rewrite E. reflexivity.
Qed.

Lemma cancel_steps_terminal id steps : forall n s',
  In s' (cancel_steps utcnow id n steps) -> of_run id s' = true ->
  _terminal (status s') = true.
Proof.
  induction steps as [|s rest IH]; intros n s'; cbn [cancel_steps]; [intros []|].
  rewrite open_step_status. destruct (open_step id s) eqn:E.
  - intros [<-|Hin] Hrun; [reflexivity | apply (IH _ _ Hin Hrun)].
  - intros [<-|Hin] Hrun; [|apply (IH _ _ Hin Hrun)].
    unfold open_step in E. rewrite Hrun in E. simpl in E.
    apply negb_false_iff in E. exact E.
Qed.

Lemma selected_find id tenant project rows run :
  find (selected id tenant project) rows = Some run ->
  forall st, selected id tenant project (set_status run st) = true.
Proof. intros H st. destruct (find_some _ _ H) as [_ Hs]. exact Hs. Qed.

(** X29. What [cancel_run] answers and does.  No run selected: 404.  A run
    that is neither running nor pending: 400, and nothing changes.  Else
    the run becomes FAILED; every step of the run that was pending or
    running becomes skipped with a reading of the clock as its end, the
    steps that were terminal and the steps of other runs stay as they
    are, so that every step of the run is terminal; one entry
    [run.cancel] is appended to the audit table.  A cancellation is
    final: every later request to cancel or to pause the run is answered
    400 and changes nothing. *)
Theorem cancel_run_outcome (audit_id user_email tenant : string)
    (project : option string) (id : string) (db : database) :
  let sel := selected id tenant project in
  let answer := cancel audit_id user_email tenant project id db in
  let db' := snd answer in
  match find sel (runs_table db) with
  | None => answer = (HTTPException 404 "run not found", db)
  | Some run =>
      if run_status_eqb (Run.status run) RunStatus.RUNNING ||
         run_status_eqb (Run.status run) RunStatus.PENDING
      then
        fst answer = RunResponse (set_status run RunStatus.FAILED)
                                 (filter (of_run id) (steps_table db')) /\
        find sel (runs_table db') = Some (set_status run RunStatus.FAILED) /\
        filter (others sel) (runs_table db') = filter (others sel) (runs_table db) /\
        Forall2 (fun s s' => if open_step id s then cancelled utcnow s s' else s' = s)
                (steps_table db) (steps_table db') /\
        (forall s', In s' (steps_table db') -> of_run id s' = true ->
                    _terminal (status s') = true) /\
        approvals_table db' = approvals_table db /\
        (exists log, audit_table db' = (audit_table db ++ [log])%list /\
                     audit.action log = "run.cancel" /\
                     audit.tenant_id log = Some tenant /\
                     audit.resource_id log = Some id /\
                     audit.actor_id log = user_email) /\
        (forall audit_id' user_email',
           cancel audit_id' user_email' tenant project id db'
           = (HTTPException 400 "run cannot be cancelled", db') /\
           pause audit_id' user_email' tenant project id db'
           = (HTTPException 400 "run is not running", db'))
      else answer = (HTTPException 400 "run cannot be cancelled", db)
  end.
Proof.
  cbv zeta. unfold cancel_run.
  destruct (find _ (runs_table db)) as [run|] eqn:Hf; [|reflexivity].
  destruct (run_status_eqb (Run.status run) RunStatus.RUNNING ||
            run_status_eqb (Run.status run) RunStatus.PENDING) eqn:Hst;
    cbn [negb]; [|reflexivity].
  cbn [fst snd runs_table steps_table approvals_table audit_table].
  pose proof (selected_find _ _ _ _ _ Hf RunStatus.FAILED) as Hsel.
  assert (Hfound : find (selected id tenant project)
                     (replace_first (selected id tenant project)
                        (set_status run RunStatus.FAILED) (runs_table db))
                   = Some (set_status run RunStatus.FAILED))
    by (apply (find_replace_first _ _ _ run); assumption).
  split; [reflexivity|]. split; [exact Hfound|].
  split; [apply others_replace_first; exact Hsel|].
  split; [apply cancel_steps_rows|].
  split; [apply cancel_steps_terminal|].
  split; [reflexivity|].
  split; [unfold audit.write_audit; eexists; split; [reflexivity|]; repeat split|].
  intros audit_id' user_email'. unfold pause_run.
  cbn [runs_table]. rewrite Hfound. split; reflexivity.
Qed.

Lemma resumable_cases approvals_rows id s :
  resumable approvals_rows id s
  = (of_run id s && status_eqb (status s) PENDING) &&
    negb match find (for_step id (name s)) approvals_rows with
         | Some a => negb (approvals.approved a)
         | None => false
         end.
Proof. reflexivity. Qed.

Lemma resumed_completed n s : completed s (fst (resumed utcnow n s)).
Proof.
  unfold resumed, completed.
  destruct (started_at s) as [t1|] eqn:H1; destruct (ended_at s) as [t2|] eqn:H2;
    cbn [fst status started_at ended_at];
    (split; [reflexivity|]); (split; [discriminate|]); (split; [discriminate|]);
    (split; [intros t E; try discriminate E; exact E|]);
    (split; [intros t E; try discriminate E; exact E|]); repeat split.
Qed.

Lemma resume_steps_rows approvals_rows id steps : forall n,
  Forall2 (fun s s' => if resumable approvals_rows id s then completed s s' else s' = s)
          steps (resume_steps utcnow approvals_rows id n steps).
Proof.
  induction steps as [|s rest IH]; intros n; cbn [resume_steps]; [constructor|].
  pose proof (resumable_cases approvals_rows id s) as Hr.
  destruct (of_run id s && status_eqb (status s) PENDING); cbn [andb] in Hr.
  - destruct (match find _ approvals_rows with Some _ => _ | None => _ end);
      cbn [negb] in Hr.
    + constructor; [rewrite Hr; reflexivity | apply IH].
    + pose proof (resumed_completed n s) as Hc.
      destruct (resumed utcnow n s) as [s' n'].
      constructor; [rewrite Hr; exact Hc | apply IH].
  - constructor; [rewrite Hr; reflexivity | apply IH].
Qed.

Lemma resume_steps_again approvals_rows id steps : forall n m,
  resume_steps utcnow approvals_rows id m (resume_steps utcnow approvals_rows id n steps)
  = resume_steps utcnow approvals_rows id n steps.
Proof.
  induction steps as [|s rest IH]; intros n m; cbn [resume_steps]; [reflexivity|].
  destruct (of_run id s && status_eqb (status s) PENDING) eqn:E.
  - destruct (match find _ approvals_rows with Some _ => _ | None => _ end) eqn:Ha.
    + cbn [resume_steps]. rewrite E, Ha, IH. reflexivity.
    + pose proof (resumed_completed n s) as [Hst _].
      destruct (resumed utcnow n s) as [s' n']. cbn [fst] in Hst. cbn [resume_steps].
      rewrite Hst. rewrite andb_false_r. rewrite IH. reflexivity.
  - cbn [resume_steps]. rewrite E, IH. reflexivity.
Qed.

(** X30. What [resume_run] does.  No run selected: 404.  Else every pending
    step of the run whose first approval, if it has one, is approved
    becomes succeeded, with a start and an end (those it had, or a reading
    of the clock); a pending step whose approval has not been given, a
    step that is not pending and the steps of other runs stay as they
    are; the run itself, the approvals and the audit table are not
    touched.  Resuming again changes nothing more. *)
Theorem resume_run_outcome (tenant : string) (project : option string) (id : string)
    (db : database) :
  let sel := selected id tenant project in
  let answer := resume tenant project id db in
  let db' := snd answer in
  match find sel (runs_table db) with
  | None => answer = (HTTPException 404 "run not found", db)
  | Some run =>
      fst answer = RunResponse run (filter (of_run id) (steps_table db')) /\
      runs_table db' = runs_table db /\
      approvals_table db' = approvals_table db /\
      audit_table db' = audit_table db /\
      Forall2 (fun s s' =>
                 if resumable (approvals_table db) id s then completed s s' else s' = s)
              (steps_table db) (steps_table db') /\
      resume tenant project id db' = (fst answer, db')
  end.
Proof.
  cbv zeta. unfold resume_run.
  destruct (find _ (runs_table db)) as [run|] eqn:Hf; [|reflexivity].
  cbn [fst snd runs_table steps_table approvals_table audit_table].
  split; [reflexivity|]. split; [reflexivity|]. split; [reflexivity|].
  split; [reflexivity|]. split; [apply resume_steps_rows|].
  rewrite Hf, resume_steps_again. reflexivity.
Qed.

End RunControl.

(** On the example run: a cancellation skips the running step and the two
    pending ones and leaves the succeeded one; a resumption completes the
    pending step that has no approval and leaves the one that waits for
    [ap-1]. *)
Example cancel_run_scenario :
  map (fun s => (models.name s, models.status s, models.ended_at s))
      (runs.steps_table
         (snd (runs.cancel_run demo_hmac "k" (fun n => 100 + Z.of_nat n)%Z "audit-1"
                 "ana@example.com" "acme" None "run-1" demo_runs)))
  = [ ("ack", models.SUCCEEDED, Some 20%Z); ("page", models.SKIPPED, Some 100%Z);
      ("drain-node", models.SKIPPED, Some 101%Z); ("notify", models.SKIPPED, Some 102%Z) ].
Proof. vm_compute. reflexivity. Qed.

Example resume_run_scenario :
  map (fun s => (models.name s, models.status s, models.started_at s, models.ended_at s))
      (runs.steps_table
         (snd (runs.resume_run (fun n => 100 + Z.of_nat n)%Z "acme" None "run-1" demo_runs)))
  = [ ("ack", models.SUCCEEDED, Some 10%Z, Some 20%Z);
      ("page", models.RUNNING, Some 30%Z, None);
      ("drain-node", models.PENDING, None, None);
      ("notify", models.SUCCEEDED, Some 100%Z, Some 101%Z) ].
Proof. vm_compute. reflexivity. Qed.
